(** * copy_and_template: staging and packaging pipeline of [main.py]

    A shallow embedding of [render_path], [process_files] and the exception
    handling of [main], over an explicit model of the world the program
    acts on (file system, clock, standard output, library calls).

    Conventions of the model.
    - The parsed manifest is the [dict] returned by [tomli.load]: an
      insertion-ordered association list from keys to TOML values.
    - Paths are [pathlib] paths of the POSIX flavour.
    - The file system maps resolved absolute component lists to nodes; there
      are no symbolic links, no permission errors and no other process.
    - Whatever the model does not cover (Jinja2 beyond [{{ name }}]
      substitution, paths with a [..] component, library calls on values of
      an unexpected type) yields the outcome [OutsideModel]; no theorem
      below says anything about such runs except that they are such. *)

From stdpp Require Import gmap strings list fin_maps.
From Stdlib Require Import ZArith DecimalString Ascii String.

Local Open Scope string_scope.
Local Open Scope Z_scope.
Local Open Scope list_scope.
Set Warnings "-register-all".

(** ** TOML values, as [tomli] hands them to the program *)

(** Strings, integers, booleans, arrays and tables; floats and date-times are
    left out. *)
Inductive toml : Type :=
| TStr (s : string)
| TInt (n : Z)
| TBool (b : bool)
| TArray (items : list toml)
| TTable (entries : list (string * toml)).

(** A Python [dict] with string keys, in insertion order. *)
Abbreviation py_dict := (list (string * toml)).

(** [d.get(key)]: [None] stands for Python's [None]. *)
Fixpoint dict_get (key : string) (d : py_dict) : option toml :=
  match d with
  | [] => None
  | (k, v) :: d' => if String.eqb k key then Some v else dict_get key d'
  end.

(** [d.get(key, default)] *)
Definition dict_get_default (key : string) (default : toml) (d : py_dict) : toml :=
  match dict_get key d with
  | Some v => v
  | None => default
  end.

(** Python truth value of a TOML value. *)
Definition truthy (v : toml) : bool :=
  match v with
  | TStr s => negb (String.eqb s EmptyString)
  | TInt n => negb (n =? 0)
  | TBool b => b
  | TArray items => match items with [] => false | _ => true end
  | TTable entries => match entries with [] => false | _ => true end
  end.

(** Truth value of the result of [d.get(key)]; [None] is false. *)
Definition truthy_opt (v : option toml) : bool :=
  match v with
  | Some v => truthy v
  | None => false
  end.

(** [isinstance(v, dict)] *)
Definition is_dict (v : toml) : bool :=
  match v with
  | TTable _ => true
  | _ => false
  end.

(** [str(v)] for the scalars a path template can print; arrays and tables are
    not covered. *)
Definition py_str (v : toml) : option string :=
  match v with
  | TStr s => Some s
  | TInt n => Some (NilZero.string_of_int (Z.to_int n))
  | TBool true => Some "True"
  | TBool false => Some "False"
  | TArray _ => None
  | TTable _ => None
  end.

(** ** [render_path]: Jinja2 with its default environment

    [Template(path_template).render(variables)] is called with no
    [undefined=] argument, so the environment is Jinja2's default one: an
    undefined name prints as the empty string.  The model covers the
    templates made of literal text and [{{ name }}] placeholders (blanks
    around the name are spaces or tabs, the name is an ASCII identifier);
    every other template is [None] here. *)

Module Jinja.

Definition is_blank (c : ascii) : bool :=
  (Ascii.eqb c " " || Ascii.eqb c "009")%bool.

Definition is_newline (c : ascii) : bool :=
  (Ascii.eqb c "010" || Ascii.eqb c "013")%bool.

Definition is_ident_start (c : ascii) : bool :=
  let n := nat_of_ascii c in
  ((65 <=? n) && (n <=? 90) || (97 <=? n) && (n <=? 122) || (n =? 95))%nat%bool.

Definition is_ident_char (c : ascii) : bool :=
  let n := nat_of_ascii c in
  (is_ident_start c || (48 <=? n) && (n <=? 57))%nat%bool.

(** Names kept out of the model because they do not, or might not, denote a
    plain variable lookup: constants, operators and keywords of the template
    language, the globals every default environment defines, and the names
    Jinja2 binds itself. *)
Definition reserved : list string :=
  [ "true"; "false"; "none"; "True"; "False"; "None";
    "and"; "or"; "not"; "in"; "is"; "if"; "else"; "elif";
    "for"; "while"; "with"; "without"; "as"; "from"; "import"; "set"; "do";
    "block"; "extends"; "include"; "macro"; "call"; "filter"; "raw";
    "recursive"; "ignore"; "missing"; "context"; "lambda";
    "range"; "dict"; "lipsum"; "cycler"; "joiner"; "namespace";
    "self"; "super"; "loop"; "caller"; "varargs"; "kwargs" ].

Definition is_reserved (name : string) : bool :=
  existsb (String.eqb name) reserved.

(** The value printed for [{{ name }}]: [str] of the variable, or the empty
    string when the mapping has no such key (Jinja2's default
    [Undefined]). *)
Definition lookup_var (variables : py_dict) (name : string) : option string :=
  if is_reserved name then None
  else match dict_get name variables with
       | Some v => py_str v
       | None => Some EmptyString
       end.

Inductive lex_state : Type :=
| InData                      (* literal text *)
| SawBrace                    (* literal text, the last character was an opening brace *)
| VarBegin                    (* after the two opening braces, before the name *)
| VarName (name : string)     (* inside the name *)
| VarEnd (name : string)      (* after the name, before the closing braces *)
| VarClose (name : string).   (* after the first closing brace *)

Definition snoc (s : string) (c : ascii) : string := s +:+ String c EmptyString.

Fixpoint render_from (variables : py_dict) (st : lex_state) (s : string) : option string :=
  match s with
  | EmptyString =>
      match st with
      | InData => Some EmptyString
      | SawBrace => Some "{"
      | _ => None
      end
  | String c rest =>
      if is_newline c then None else
      match st with
      | InData =>
          if Ascii.eqb c "{" then render_from variables SawBrace rest
          else String c <$> render_from variables InData rest
      | SawBrace =>
          if Ascii.eqb c "{" then render_from variables VarBegin rest
          else if (Ascii.eqb c "%" || Ascii.eqb c "#")%bool then None
          else (fun r => String "{" (String c r)) <$> render_from variables InData rest
      | VarBegin =>
          if is_blank c then render_from variables VarBegin rest
          else if is_ident_start c then render_from variables (VarName (String c EmptyString)) rest
          else None
      | VarName name =>
          if is_ident_char c then render_from variables (VarName (snoc name c)) rest
          else if is_blank c then render_from variables (VarEnd name) rest
          else if Ascii.eqb c "}" then render_from variables (VarClose name) rest
          else None
      | VarEnd name =>
          if is_blank c then render_from variables (VarEnd name) rest
          else if Ascii.eqb c "}" then render_from variables (VarClose name) rest
          else None
      | VarClose name =>
          if Ascii.eqb c "}" then
            match lookup_var variables name with
            | Some v => String.append v <$> render_from variables InData rest
            | None => None
            end
          else None
      end
  end.

Definition render (template : string) (variables : py_dict) : option string :=
  render_from variables InData template.

End Jinja.

(** [render_path(path_template, variables)].  The arguments are the values the
    caller read out of the manifest: a template that is not a string, or a
    [variables] entry that is not a table, is not covered. *)
Definition render_path (path_template : toml) (variables : toml) : option string :=
  match path_template, variables with
  | TStr t, TTable vars => Jinja.render t vars
  | _, _ => None
  end.

(** ** [pathlib] paths, POSIX flavour *)

Module PurePath.

(** The root of a path: none, one slash, or exactly two slashes (which
    POSIX keeps apart from one). *)
Inductive anchor : Type := Relative | Root | DoubleRoot.

Record t : Type := mk { root : anchor; parts : list string }.

#[global] Instance anchor_eq_dec : EqDecision anchor.
Proof. solve_decision. Defined.

#[global] Instance t_eq_dec : EqDecision t.
Proof. solve_decision. Defined.

(** Pieces of a string between slashes. *)
Fixpoint split_slash (cur : string) (s : string) : list string :=
  match s with
  | EmptyString => [cur]
  | String c rest =>
      if Ascii.eqb c "/" then cur :: split_slash EmptyString rest
      else split_slash (cur +:+ String c EmptyString) rest
  end.

Fixpoint leading_slashes (s : string) : nat :=
  match s with
  | String c rest => if Ascii.eqb c "/" then S (leading_slashes rest) else O
  | EmptyString => O
  end.

Definition is_component (p : string) : bool :=
  negb (String.eqb p EmptyString || String.eqb p ".").

(** [Path(s)]: empty pieces and single dots are dropped, double dots stay. *)
Definition parse (s : string) : t :=
  {| root := match leading_slashes s with
             | O => Relative
             | 2%nat => DoubleRoot
             | _ => Root
             end;
     parts := List.filter is_component (split_slash EmptyString s) |}.

Definition is_absolute (p : t) : bool :=
  match root p with
  | Relative => false
  | _ => true
  end.

(** [p / s] for a string [s]: an absolute right operand replaces the left
    one. *)
Definition joinpath (p : t) (s : string) : t :=
  let q := parse s in
  if is_absolute q then q
  else {| root := root p; parts := parts p ++ parts q |}.

(** [p.parent]; a path without components is its own parent. *)
Definition parent (p : t) : t :=
  {| root := root p; parts := removelast (parts p) |}.

(** [p.name] *)
Definition name (p : t) : string :=
  List.last (parts p) EmptyString.

(** [s.rfind('.')], as an index from the left. *)
Fixpoint rfind_dot (s : string) (i : nat) (found : option nat) : option nat :=
  match s with
  | EmptyString => found
  | String c rest => rfind_dot rest (S i) (if Ascii.eqb c "." then Some i else found)
  end.

(** [p.stem]: the name up to its last dot, when that dot is neither the
    first nor the last character. *)
Definition stem (p : t) : string :=
  let n := name p in
  match rfind_dot n O None with
  | Some i =>
      if ((0 <? i) && (i <? String.length n - 1))%nat%bool
      then String.substring 0 i n
      else n
  | None => n
  end.

Fixpoint join_parts (l : list string) : string :=
  match l with
  | [] => EmptyString
  | [x] => x
  | x :: l' => x +:+ "/" +:+ join_parts l'
  end.

(** [str(p)] *)
Definition to_string (p : t) : string :=
  match root p, parts p with
  | Relative, [] => "."
  | Relative, l => join_parts l
  | Root, l => "/" +:+ join_parts l
  | DoubleRoot, l => "//" +:+ join_parts l
  end.

(** The path [p] extended by components found below it. *)
Definition extend (p : t) (rel : list string) : t :=
  {| root := root p; parts := parts p ++ rel |}.

Fixpoint strip_prefix (pre l : list string) : option (list string) :=
  match pre, l with
  | [], _ => Some l
  | x :: pre', y :: l' => if String.eqb x y then strip_prefix pre' l' else None
  | _ :: _, [] => None
  end.

(** [p.relative_to(other)]; [None] is Python's [ValueError]. *)
Definition relative_to (p other : t) : option t :=
  if decide (root p = root other) then
    mk Relative <$> strip_prefix (parts other) (parts p)
  else None.

(** [p.suffix]: the name from its last dot on, when that dot is neither the
    first nor the last character; else empty. *)
Definition suffix (p : t) : string :=
  let n := name p in
  match rfind_dot n O None with
  | Some i =>
      if ((0 <? i) && (i <? String.length n - 1))%nat%bool
      then String.substring i (String.length n - i) n
      else EmptyString
  | None => EmptyString
  end.

End PurePath.

(** ** The world the program runs in *)

(** One row of the operation log below its header row. *)
Record log_entry : Type := mk_entry {
  timestamp : Z;
  operation : string;
  source : string;
  destination : string
}.

(** File contents, kept in decoded form: plain bytes, the CSV operation log
    (its header row and then one row per entry), an archive written by
    [zipfile] (entry names with the contents stored under them), and an
    archive written by [pyminizip.compress_multiple] (the source files read,
    with the prefix list, password and level it was given). *)
Inductive data : Type :=
| Raw (bytes : string)
| Log (entries : list log_entry)
| Zip (members : list (string * data))
| EncryptedZip (srcfiles : list (string * data)) (prefixes : list string)
               (password : string) (level : Z).

Inductive node : Type :=
| Dir
| File (content : data) (mtime : Z).

(** Resolved location of a node: the components below the root directory. *)
Abbreviation key := (list string).

(** Calls into the libraries that touch the file system, as the program
    issues them. *)
Inductive call : Type :=
| CallExists (p : PurePath.t)
| CallMkdir (p : PurePath.t)
| CallCopy2 (src dst : PurePath.t)
| CallOpen (p : PurePath.t) (mode : string)
| CallRglob (p : PurePath.t)
| CallZipFile (p : PurePath.t) (mode compression : string)
| CallZipWrite (file arcname : PurePath.t)
| CallCompressMultiple (srcfiles prefixes : list string) (zipfile password : string) (level : Z).

Record world : Type := mk_world {
  fs : gmap key node;          (* nodes other than the root directory *)
  cwd : key;                   (* working directory of the process *)
  clock : nat -> Z;            (* successive readings of the system clock *)
  ticks : nat;                 (* readings taken so far *)
  stdout : list string;        (* one string per call of print *)
  calls : list call            (* library calls so far, oldest first *)
}.

Definition set_fs (f : gmap key node) (w : world) : world :=
  mk_world f (cwd w) (clock w) (ticks w) (stdout w) (calls w).

(** The node at a location; the root directory always exists. *)
Definition node_at (f : gmap key node) (k : key) : option node :=
  match k with
  | [] => Some Dir
  | _ => f !! k
  end.

(** Every node lies in a directory: the maps that stand for a real file
    system.  The properties below hold for every map. *)
Definition fs_wf (f : gmap key node) : Prop :=
  forall k n, f !! k = Some n -> k <> [] /\ node_at f (removelast k) = Some Dir.

Inductive exn : Type :=
| ValueError (msg : string)
| AttributeError
| SystemExit (code : option Z)
| FileNotFoundError
| FileExistsError
| NotADirectoryError
| IsADirectoryError
| SameFileError
| OSError.

(** How a call ends: with a value, with an exception, or outside what the
    model covers. *)
Inductive outcome (A : Type) : Type :=
| Return (a : A)
| Raise (e : exn)
| OutsideModel.
Arguments Return {A} a.
Arguments Raise {A} e.
Arguments OutsideModel {A}.

(** Effectful code: a state transformer on the world with an outcome.  The
    world is kept when an exception is raised: nothing is rolled back. *)
Definition M (A : Type) : Type := world -> outcome A * world.

Definition ret {A} (a : A) : M A := fun w => (Return a, w).

Definition bind {A B} (m : M A) (k : A -> M B) : M B :=
  fun w =>
    match m w with
    | (Return a, w') => k a w'
    | (Raise e, w') => (Raise e, w')
    | (OutsideModel, w') => (OutsideModel, w')
    end.

Declare Scope m_scope.
Delimit Scope m_scope with M.
Notation "x <- m ;; k" := (bind m (fun x => k))
  (at level 100, m at next level, right associativity) : m_scope.
Notation "m ;;; k" := (bind m (fun _ => k))
  (at level 100, right associativity) : m_scope.
Local Open Scope m_scope.

Definition raise {A} (e : exn) : M A := fun w => (Raise e, w).
Definition outside_model {A} : M A := fun w => (OutsideModel, w).
Definition get_fs : M (gmap key node) := fun w => (Return (fs w), w).
Definition put_fs (f : gmap key node) : M unit := fun w => (Return tt, set_fs f w).

Definition when (b : bool) (m : M unit) : M unit := if b then m else ret tt.

(** A [for] loop whose body may raise. *)
Fixpoint for_each {A} (body : A -> M unit) (l : list A) : M unit :=
  match l with
  | [] => ret tt
  | x :: l' => body x ;;; for_each body l'
  end.

Definition record_call (c : call) : M unit :=
  fun w => (Return tt, mk_world (fs w) (cwd w) (clock w) (ticks w) (stdout w) (calls w ++ [c])).

(** [print(line)] *)
Definition print (line : string) : M unit :=
  fun w => (Return tt, mk_world (fs w) (cwd w) (clock w) (ticks w) (stdout w ++ [line]) (calls w)).

(** A reading of the clock: [datetime.now()], or the time stamp the system
    puts on a file it writes. *)
Definition now : M Z :=
  fun w => (Return (clock w (ticks w)),
            mk_world (fs w) (cwd w) (clock w) (S (ticks w)) (stdout w) (calls w)).

Definition has_dotdot (p : PurePath.t) : bool :=
  existsb (String.eqb "..") (PurePath.parts p).

(** The location a path denotes for the system: relative paths start at the
    working directory.  Paths through [..] are not covered. *)
Definition resolve_key (cwd : key) (p : PurePath.t) : option key :=
  if has_dotdot p then None
  else Some (match PurePath.root p with
             | PurePath.Relative => cwd ++ PurePath.parts p
             | _ => PurePath.parts p
             end).

Definition resolve (p : PurePath.t) : M key :=
  fun w =>
    match resolve_key (cwd w) p with
    | Some k => (Return k, w)
    | None => (OutsideModel, w)
    end.

(** Walk from [pre] down the components [rest]: [None] when every directory
    on the way exists, else the error the system reports. *)
Fixpoint check_dirs (f : gmap key node) (pre rest : key) : option exn :=
  match rest with
  | [] => None
  | c :: rest' =>
      match f !! (pre ++ [c]) with
      | Some Dir => check_dirs f (pre ++ [c]) rest'
      | Some (File _ _) => Some NotADirectoryError
      | None => Some FileNotFoundError
      end
  end.

(** Create the directories missing on the way from [pre] down [rest]. *)
Fixpoint mkdirs (f : gmap key node) (pre rest : key) : exn + gmap key node :=
  match rest with
  | [] => inr f
  | c :: rest' =>
      match f !! (pre ++ [c]) with
      | Some Dir => mkdirs f (pre ++ [c]) rest'
      | Some (File _ _) =>
          inl (match rest' with [] => FileExistsError | _ => NotADirectoryError end)
      | None => mkdirs (<[pre ++ [c] := Dir]> f) (pre ++ [c]) rest'
      end
  end.

(** [p.exists()] *)
Definition path_exists (p : PurePath.t) : M bool :=
  record_call (CallExists p) ;;;
  k <- resolve p ;;
  f <- get_fs ;;
  ret (match node_at f k with Some _ => true | None => false end).

(** [p.mkdir(parents=True, exist_ok=True)] *)
Definition mkdir_parents (p : PurePath.t) : M unit :=
  record_call (CallMkdir p) ;;;
  k <- resolve p ;;
  f <- get_fs ;;
  match mkdirs f [] k with
  | inl e => raise e
  | inr f' => put_fs f'
  end.

(** Create or truncate the file at [k] with the given content. *)
Definition create_file (k : key) (content : data) : M unit :=
  f <- get_fs ;;
  match node_at f k with
  | Some Dir => raise IsADirectoryError
  | _ =>
      match check_dirs f [] (removelast k) with
      | Some e => raise e
      | None => t <- now ;; put_fs (<[k := File content t]> f)
      end
  end.

(** [shutil.copy2(src, dst)]: into [dst] when it is a directory, refusing to
    copy a file onto itself; contents and modification time are copied. *)
Definition copy2 (src dst : PurePath.t) : M unit :=
  record_call (CallCopy2 src dst) ;;;
  ks <- resolve src ;;
  kd <- resolve dst ;;
  f <- get_fs ;;
  let kd' := match node_at f kd with
             | Some Dir => kd ++ match PurePath.parts src with
                                 | [] => []
                                 | _ => [PurePath.name src]
                                 end
             | _ => kd
             end in
  match node_at f ks with
  | None => raise FileNotFoundError
  | Some n =>
      if decide (ks = kd') then raise SameFileError
      else match n with
           | Dir => raise IsADirectoryError
           | File content mtime =>
               match node_at f kd' with
               | Some Dir => raise IsADirectoryError
               | _ =>
                   match check_dirs f [] (removelast kd') with
                   | Some e => raise e
                   | None => put_fs (<[kd' := File content mtime]> f)
                   end
               end
           end
  end.

(** [with log_path.open('w') as f: csv.writer(f).writerow(header)] *)
Definition write_log_header (log_path : PurePath.t) : M unit :=
  record_call (CallOpen log_path "w") ;;;
  k <- resolve log_path ;;
  create_file k (Log []).

(** [with log_path.open('a') as f: csv.writer(f).writerow([now, op, src, dst])].
    Appending to a file that is not the operation log is not covered. *)
Definition append_log (log_path : PurePath.t) (op src dst : string) : M unit :=
  record_call (CallOpen log_path "a") ;;;
  k <- resolve log_path ;;
  f <- get_fs ;;
  match node_at f k with
  | Some Dir => raise IsADirectoryError
  | Some (File (Log entries) _) =>
      ts <- now ;;
      mt <- now ;;
      put_fs (<[k := File (Log (entries ++ [mk_entry ts op src dst])) mt]> f)
  | _ => outside_model
  end.

(** Regular files stored strictly below location [k], as component lists
    relative to it.  The order is the one the map enumerates them in; the
    system promises none. *)
Definition files_below (f : gmap key node) (k : key) : list key :=
  omap (fun '(p, n) =>
          match n with
          | File _ _ =>
              match PurePath.strip_prefix k p with
              | Some (c :: rel) => Some (c :: rel)
              | _ => None
              end
          | Dir => None
          end) (map_to_list f).

(** What a recursive listing of [k] finds: nothing unless [k] is a
    directory. *)
Definition files_under (f : gmap key node) (k : key) : list key :=
  match node_at f k with
  | Some Dir => files_below f k
  | _ => []
  end.

(** [[f for f in p.rglob('*') if f.is_file()]] *)
Definition rglob_files (p : PurePath.t) : M (list PurePath.t) :=
  record_call (CallRglob p) ;;;
  k <- resolve p ;;
  f <- get_fs ;;
  ret (PurePath.extend p <$> files_under f k).

(** [zipfile.ZipFile(p, 'w', zipfile.ZIP_DEFLATED)]: the archive file is
    created, or emptied, when it is opened. *)
Definition zip_open (p : PurePath.t) : M unit :=
  record_call (CallZipFile p "w" "ZIP_DEFLATED") ;;;
  k <- resolve p ;;
  create_file k (Zip []).

(** [zipf.write(file, arcname)] on the archive opened at [zip_path].  An
    archive that is asked to store itself is not covered. *)
Definition zip_write (zip_path file arcname : PurePath.t) : M unit :=
  record_call (CallZipWrite file arcname) ;;;
  kz <- resolve zip_path ;;
  kf <- resolve file ;;
  f <- get_fs ;;
  if decide (kz = kf) then outside_model
  else match node_at f kf, node_at f kz with
       | Some (File content _), Some (File (Zip members) _) =>
           t <- now ;;
           put_fs (<[kz := File (Zip (members ++ [(PurePath.to_string arcname, content)])) t]> f)
       | Some (File _ _), _ => outside_model
       | Some Dir, _ => raise IsADirectoryError
       | None, _ => raise FileNotFoundError
       end.

(** The contents of the files [pyminizip] is asked to compress. *)
Fixpoint read_files (kz : key) (files : list PurePath.t) : M (list (string * data)) :=
  match files with
  | [] => ret []
  | p :: files' =>
      k <- resolve p ;;
      f <- get_fs ;;
      if decide (kz = k) then outside_model
      else match node_at f k with
           | Some (File content _) =>
               rest <- read_files kz files' ;;
               ret ((PurePath.to_string p, content) :: rest)
           | _ => raise OSError
           end
  end.

(** [pyminizip.compress_multiple(srcfiles, prefixes, zipfile, password, level)] *)
Definition compress_multiple (files : list PurePath.t) (prefixes : list string)
    (zip_path : PurePath.t) (password : string) (level : Z) : M unit :=
  record_call (CallCompressMultiple (PurePath.to_string <$> files) prefixes
                 (PurePath.to_string zip_path) password level) ;;;
  kz <- resolve zip_path ;;
  srcfiles <- read_files kz files ;;
  create_file kz (EncryptedZip srcfiles prefixes password level).

Fixpoint map_m {A B} (f : A -> M B) (l : list A) : M (list B) :=
  match l with
  | [] => ret []
  | x :: l' => y <- f x ;; ys <- map_m f l' ;; ret (y :: ys)
  end.

Definition relative_to (p other : PurePath.t) : M PurePath.t :=
  match PurePath.relative_to p other with
  | Some r => ret r
  | None => raise (ValueError "is not in the subpath of")
  end.

(** ** [process_files] *)

Definition newline : string := String "010" EmptyString.

(** [{k: v for k, v in config.items() if k.startswith('file') and isinstance(v, dict)}] *)
Definition file_sections (config : py_dict) : py_dict :=
  List.filter (fun '(k, v) => String.prefix "file" k && is_dict v) config.

Definition log_if (log_path : option PurePath.t) (m : PurePath.t -> M unit) : M unit :=
  match log_path with
  | Some lp => m lp
  | None => ret tt
  end.

Section Run.

Variables (variables : toml) (base_dir temp_dir : PurePath.t) (temp_dir_name : string).
Variables (verbose : bool) (log_path : option PurePath.t).

(** The source path of a rule: an absolute rendered [from] as it is, a
    relative one below the base directory. *)
Definition source_of (from_path_rendered : string) : PurePath.t :=
  if PurePath.is_absolute (PurePath.parse from_path_rendered)
  then PurePath.parse from_path_rendered
  else PurePath.joinpath base_dir from_path_rendered.

Definition destination_of (to_path_rendered : string) : PurePath.t :=
  PurePath.joinpath temp_dir to_path_rendered.

(** The steps of a rule once its paths are rendered. *)
Definition copy_rendered (from_path_rendered to_path_rendered : string) : M unit :=
  let source := source_of from_path_rendered in
  let destination := destination_of to_path_rendered in
  found <- path_exists source ;;
  if negb found then
    if verbose then
      print ("Error: Source file not found: " +:+ PurePath.to_string source) ;;;
      raise (SystemExit None)
    else ret tt
  else
    mkdir_parents (PurePath.parent destination) ;;;
    copy2 source destination ;;;
    log_if log_path (fun lp =>
      append_log lp "copy" (PurePath.to_string source) (PurePath.to_string destination)) ;;;
    when verbose
      (print ("Copied: " +:+ from_path_rendered +:+ " -> " +:+ temp_dir_name
              +:+ "/" +:+ to_path_rendered)).

(** The body of the loop over the [file*] sections. *)
Definition copy_rule (section : string * toml) : M unit :=
  let '(section_name, file_config) := section in
  match file_config with
  | TTable file_config =>
      match dict_get "from" file_config, dict_get "to" file_config with
      | Some from_path, Some to_path =>
          if (negb (truthy from_path) || negb (truthy to_path))%bool then
            when verbose
              (print ("Warning: " +:+ section_name +:+ " is missing 'from' or 'to' field"))
          else
            match render_path from_path variables with
            | None => outside_model
            | Some from_path_rendered =>
                match render_path to_path variables with
                | None => outside_model
                | Some to_path_rendered => copy_rendered from_path_rendered to_path_rendered
                end
            end
      | _, _ =>
          when verbose
            (print ("Warning: " +:+ section_name +:+ " is missing 'from' or 'to' field"))
      end
  | _ => raise AttributeError
  end.

(** The log header and the copy loop. *)
Definition stage (sections : py_dict) : M unit :=
  log_if log_path write_log_header ;;;
  for_each copy_rule sections.

Variables (zip_file_name : string) (zip_path : PurePath.t).

(** The branch for a password: [pyminizip]. *)
Definition zip_encrypted (zip_password : string) : M unit :=
  files <- rglob_files temp_dir ;;
  let file_list := PurePath.to_string <$> files in
  files' <- rglob_files temp_dir ;;
  arcnames <- map_m (fun f => relative_to f temp_dir) files' ;;
  let arcname_list := PurePath.to_string <$> arcnames in
  match file_list with
  | [] => ret tt
  | _ =>
      compress_multiple files arcname_list zip_path zip_password 5 ;;;
      log_if log_path (fun lp =>
        for_each (fun '(file, arcname) => append_log lp "zip" file arcname)
                 (combine file_list arcname_list)) ;;;
      when verbose
        (for_each (fun arcname => print ("Added to zip: " +:+ arcname)) arcname_list)
  end.

(** The body of the loop of the branch without a password. *)
Definition zip_add (file : PurePath.t) : M unit :=
  arcname <- relative_to file temp_dir ;;
  zip_write zip_path file arcname ;;;
  log_if log_path (fun lp =>
    append_log lp "zip" (PurePath.to_string file) (PurePath.to_string arcname)) ;;;
  when verbose (print ("Added to zip: " +:+ PurePath.to_string arcname)).

(** The branch without a password: [zipfile]. *)
Definition zip_plain : M unit :=
  zip_open zip_path ;;;
  files <- rglob_files temp_dir ;;
  for_each zip_add files.

(** Everything after the copy loop but the [return]. *)
Definition write_zip (zip_output_enabled : toml) (zip_password : option toml) : M unit :=
  if truthy zip_output_enabled then
    (if truthy_opt zip_password then
       match zip_password with
       | Some (TStr password) => zip_encrypted password
       | _ => outside_model
       end
     else zip_plain) ;;;
    when verbose
      (print (newline +:+ "Created: " +:+ zip_file_name) ;;;
       when (truthy_opt zip_password) (print "Password protected: enabled") ;;;
       print ("Directory preserved: " +:+ temp_dir_name +:+ "/"))
  else
    when verbose
      (print (newline +:+ "Zip output disabled. Files are in directory: "
              +:+ temp_dir_name +:+ "/")).

End Run.

Definition process_files (config : py_dict) (base_dir : PurePath.t) (verbose : bool)
    (log_path : option PurePath.t) : M (PurePath.t * PurePath.t) :=
  let variables := dict_get_default "variables" (TTable []) config in
  let zip_config := dict_get_default "zip" (TTable []) config in
  if negb (truthy zip_config) then raise (ValueError "[zip] section is required in TOML")
  else
    match zip_config with
    | TTable zip_config =>
        match render_path (dict_get_default "file_name" (TStr "output.zip") zip_config) variables with
        | None => outside_model
        | Some zip_file_name =>
            let zip_password := dict_get "password" zip_config in
            let zip_output_enabled := dict_get_default "output_enabled" (TBool true) zip_config in
            let temp_dir_name := PurePath.stem (PurePath.parse zip_file_name) in
            let temp_dir := PurePath.joinpath base_dir temp_dir_name in
            stage variables base_dir temp_dir temp_dir_name verbose log_path
                  (file_sections config) ;;;
            let zip_path := PurePath.joinpath base_dir zip_file_name in
            write_zip temp_dir temp_dir_name verbose log_path zip_file_name zip_path
                      zip_output_enabled zip_password ;;;
            ret (temp_dir, zip_path)
        end
    | _ => raise AttributeError
    end.

(** ** [main]: what becomes of the run's outcome

    [load_toml] stands for reading and parsing the manifest; the derivation
    of the log path from the clock and the messages [main] prints are left
    out.  The result is the exit status of the process. *)
Definition main (load_toml : M py_dict) (base_dir : PurePath.t) (quiet : bool)
    (log_path : PurePath.t) : M Z :=
  fun w =>
    match (config <- load_toml ;; process_files config base_dir (negb quiet) (Some log_path)) w with
    | (Return _, w') => (Return 0, w')
    | (Raise (SystemExit None), w') => (Return 0, w')
    | (Raise (SystemExit (Some code)), w') => (Return code, w')
    | (Raise _, w') => (Return 1, w')
    | (OutsideModel, w') => (OutsideModel, w')
    end.

(** ** [main]: the base directory and the log path

    [base_dir = Path(toml_path).parent] *)
Definition main_base_dir (toml_path : string) : PurePath.t :=
  PurePath.parent (PurePath.parse toml_path).

(** The log path [main] derives from its [--log] argument.  [timestamp] is
    the reading of the clock as [strftime] formats it (year, month, day, an
    underscore, hour, minute, second); the file name is put together as a
    string and joined to a directory. *)
Definition main_log_path (log timestamp : string) (base_dir : PurePath.t) : PurePath.t :=
  let log_base := PurePath.parse log in
  let file_name :=
    PurePath.stem log_base +:+ "_" +:+ timestamp +:+ PurePath.suffix log_base in
  if decide (PurePath.parent log_base = PurePath.parse ".")
  then PurePath.joinpath (PurePath.parent log_base) file_name
  else PurePath.joinpath base_dir file_name.

(** ** Vocabulary of the properties *)

(** Calls of the plain archive writer, [zipfile]. *)
Definition is_plain_call (c : call) : bool :=
  match c with
  | CallZipFile _ _ _ | CallZipWrite _ _ => true
  | _ => false
  end.

(** Calls of the encrypting archive writer, [pyminizip]. *)
Definition is_encrypted_call (c : call) : bool :=
  match c with
  | CallCompressMultiple _ _ _ _ _ => true
  | _ => false
  end.

(** The world after further library calls and nothing else. *)
Definition add_calls (l : list call) (w : world) : world :=
  mk_world (fs w) (cwd w) (clock w) (ticks w) (stdout w) (calls w ++ l).

(** Every library call an action makes satisfies [P]; the calls made before
    it stay in place. *)
Definition calls_only {A} (P : call -> Prop) (m : M A) : Prop :=
  forall w, exists l, calls (snd (m w)) = calls w ++ l /\ Forall P l.

(** A path lies below a directory, component-wise. *)
Definition lies_under (p dir : PurePath.t) : Prop :=
  PurePath.root p = PurePath.root dir /\ PurePath.parts dir `prefix_of` PurePath.parts p.

(** A regular file is stored at [k]. *)
Definition is_file (f : gmap key node) (k : key) : bool :=
  match f !! k with
  | Some (File _ _) => true
  | _ => false
  end.

(** A directory is stored at [k]. *)
Definition is_dir (f : gmap key node) (k : key) : bool :=
  match node_at f k with
  | Some Dir => true
  | _ => false
  end.

(** The location of the operation log, when there is one. *)
Definition log_key (cwd : key) (log_path : option PurePath.t) : option key :=
  match log_path with
  | Some lp => resolve_key cwd lp
  | None => None
  end.

(** The operation log, when the run keeps one, is in place: its header row
    has been written. *)
Definition log_ready (f : gmap key node) (cwd : key) (log_path : option PurePath.t) : bool :=
  match log_path with
  | None => true
  | Some lp =>
      match resolve_key cwd lp with
      | Some (c :: k) =>
          match f !! (c :: k) with
          | Some (File (Log _) _) => true
          | _ => false
          end
      | _ => false
      end
  end.

(** No component is a double dot. *)
Definition no_dotdot (rel : list string) : bool :=
  negb (existsb (String.eqb "..") rel).

(** Literal text of a template: no opening brace and no line break. *)
Fixpoint plain_text (s : string) : bool :=
  match s with
  | EmptyString => true
  | String c rest => negb (Ascii.eqb c "{") && negb (Jinja.is_newline c) && plain_text rest
  end.

(** Spaces and tabs only. *)
Fixpoint blanks (s : string) : bool :=
  match s with
  | EmptyString => true
  | String c rest => Jinja.is_blank c && blanks rest
  end.

Fixpoint ident_chars (s : string) : bool :=
  match s with
  | EmptyString => true
  | String c rest => Jinja.is_ident_char c && ident_chars rest
  end.

(** An ASCII identifier. *)
Definition identifier (s : string) : bool :=
  match s with
  | EmptyString => false
  | String c rest => Jinja.is_ident_start c && ident_chars rest
  end.

(** A member of an archive at [kz], stored for the file [rel] below the
    staging directory at [kt]: its name is the relative path, and unless the
    file is the archive or the log its content is the one the file has in
    [f]. *)
Definition stored_from (kt kz : key) (klog : option key) (f : gmap key node)
    (rel : list string) (member : string * data) : Prop :=
  member.1 = PurePath.to_string (PurePath.mk PurePath.Relative rel)
  /\ (kt ++ rel <> kz -> klog <> Some (kt ++ rel) ->
      exists m, f !! (kt ++ rel) = Some (File member.2 m)).

(** [pre] is a prefix of [l]. *)
Definition is_prefix (pre l : key) : bool :=
  match PurePath.strip_prefix pre l with
  | Some _ => true
  | None => false
  end.

(** No location is a prefix of another one of the list; in particular they
    are pairwise distinct. *)
Fixpoint prefix_free (l : list key) : bool :=
  match l with
  | [] => true
  | k :: l' =>
      forallb (fun k' => negb (is_prefix k k') && negb (is_prefix k' k)) l' && prefix_free l'
  end.

(** No regular file sits on the way from [pre] down the components [rest],
    the end included. *)
Fixpoint no_file_on (f : gmap key node) (pre rest : key) : bool :=
  match rest with
  | [] => true
  | c :: rest' =>
      match f !! (pre ++ [c]) with
      | Some (File _ _) => false
      | _ => no_file_on f (pre ++ [c]) rest'
      end
  end.

(** Nothing is stored at [k], and the directories leading to it exist or can
    be created. *)
Definition free_at (f : gmap key node) (k : key) : bool :=
  match node_at f k with
  | None => no_file_on f [] k
  | Some _ => false
  end.

(** What the loop will do with a section that is a valid rule: the resolved
    location of its source, and the components of its destination below the
    staging directory.  A rule counts as valid here when it has a true [from]
    and [to], both render, the source resolves to a location other than the
    root, and the rendered [to] is a relative path of at least one component,
    none of them a double dot. *)
Definition rule_plan (cwd : key) (variables : toml) (base_dir : PurePath.t)
    (section : string * toml) : option (key * list string) :=
  match section.2 with
  | TTable file_config =>
      match dict_get "from" file_config, dict_get "to" file_config with
      | Some from_path, Some to_path =>
          if truthy from_path && truthy to_path then
            match render_path from_path variables, render_path to_path variables with
            | Some from_path_rendered, Some to_path_rendered =>
                let rel := PurePath.parts (PurePath.parse to_path_rendered) in
                match resolve_key cwd (source_of base_dir from_path_rendered), rel with
                | Some (c :: ks), _ :: _ =>
                    if negb (PurePath.is_absolute (PurePath.parse to_path_rendered))
                       && no_dotdot rel
                    then Some (c :: ks, rel)
                    else None
                | _, _ => None
                end
            | _, _ => None
            end
          else None
      | _, _ => None
      end
  | _ => None
  end.

(** The operation log, when the run keeps one, can be created at its path,
    which is none of the sources and neither above, at nor below the
    staging directory. *)
Definition log_fits (f : gmap key node) (cwd : key) (log_path : option PurePath.t)
    (kt : key) (sources : list key) : bool :=
  match log_path with
  | None => true
  | Some lp =>
      match resolve_key cwd lp with
      | Some kl =>
          negb (is_dir f kl)
          && match check_dirs f [] (removelast kl) with None => true | Some _ => false end
          && negb (is_prefix kl kt) && negb (is_prefix kt kl)
          && forallb (fun ks => negb (bool_decide (ks = kl))) sources
      | None => false
      end
  end.

(** No slash occurs in the string. *)
Fixpoint no_slash (s : string) : bool :=
  match s with
  | EmptyString => true
  | String c rest => negb (Ascii.eqb c "/") && no_slash rest
  end.

(** Two worlds that differ at most in what has been printed. *)
Definition same_but_stdout (w w' : world) : Prop :=
  fs w = fs w' /\ cwd w = cwd w' /\ clock w = clock w' /\ ticks w = ticks w'
  /\ calls w = calls w'.

(** An action that does not look at what has been printed: from worlds that
    differ at most there it ends the same way, in worlds that differ at most
    there. *)
Definition stdout_blind {A} (m : M A) : Prop :=
  forall w w', same_but_stdout w w' ->
    fst (m w) = fst (m w') /\ same_but_stdout (snd (m w)) (snd (m w')).

(** The quiet action [mq] does what the verbose action [mv] does, printing
    apart, unless the verbose one raises [SystemExit]. *)
Definition quiet_follows {A} (mv mq : M A) : Prop :=
  forall w w', same_but_stdout w w' ->
    fst (mv w) = Raise (SystemExit None)
    \/ (fst (mv w) = fst (mq w') /\ same_but_stdout (snd (mv w)) (snd (mq w'))).

(** An action that prints nothing. *)
Definition silent {A} (m : M A) : Prop :=
  forall w, stdout (snd (m w)) = stdout w.

(** From [f] to [f'] nothing was removed: directories are still directories
    and regular files are still regular files (their content may differ). *)
Definition kinds_kept (f f' : gmap key node) : Prop :=
  forall k, (f !! k = Some Dir -> f' !! k = Some Dir)
            /\ (is_file f k = true -> is_file f' k = true).

(** An action that removes nothing. *)
Definition keeps_kinds {A} (m : M A) : Prop :=
  forall w, kinds_kept (fs w) (fs (snd (m w))).

(** The [to] field of a section, where it is there and renders, renders to a
    relative path. *)
Definition to_is_relative (variables : toml) (section : string * toml) : bool :=
  match section.2 with
  | TTable file_config =>
      match dict_get "to" file_config with
      | Some to_path =>
          match render_path to_path variables with
          | Some to_path_rendered =>
              negb (PurePath.is_absolute (PurePath.parse to_path_rendered))
          | None => true
          end
      | None => true
      end
  | _ => true
  end.

(** What a row of the log says, its time stamp apart. *)
Definition row_of (e : log_entry) : string * string * string :=
  (operation e, source e, destination e).

(** The rows that stand for the calls of [shutil.copy2] among some library
    calls. *)
Definition copy_rows (l : list call) : list (string * string * string) :=
  omap (fun c => match c with
                 | CallCopy2 src dst =>
                     Some ("copy", PurePath.to_string src, PurePath.to_string dst)
                 | _ => None
                 end) l.

(** The rows that stand for the files put into an archive by some library
    calls: one for each [zipf.write], and one for each pair of a source file
    and its prefix given to [pyminizip.compress_multiple]. *)
Definition zip_rows (l : list call) : list (string * string * string) :=
  flat_map (fun c => match c with
                     | CallZipWrite file arcname =>
                         [("zip", PurePath.to_string file, PurePath.to_string arcname)]
                     | CallCompressMultiple srcfiles prefixes _ _ _ =>
                         (fun '(file, arcname) => ("zip", file, arcname))
                           <$> combine srcfiles prefixes
                     | _ => []
                     end) l.

(** The [to] field of a section, where there is one, renders to a relative
    path none of whose components is a double dot: the destination then
    lies in the staging directory or below it, also for the system. *)
Definition to_stays_inside (variables : toml) (section : string * toml) : bool :=
  match section.2 with
  | TTable file_config =>
      match dict_get "to" file_config with
      | Some to_path =>
          match render_path to_path variables with
          | Some to_path_rendered =>
              negb (PurePath.is_absolute (PurePath.parse to_path_rendered))
              && no_dotdot (PurePath.parts (PurePath.parse to_path_rendered))
          | None => false
          end
      | None => true
      end
  | _ => true
  end.

(** The log path, when there is one, has no double dot among its
    components. *)
Definition log_without_dotdot (log_path : option PurePath.t) : bool :=
  match log_path with
  | Some lp => negb (has_dotdot lp)
  | None => true
  end.

(** The locations a run may write to: the staging directory, what lies
    below it and the directories above it, the archive and the log. *)
Definition may_write (kt kz : key) (klog : option key) (k : key) : bool :=
  is_prefix kt k || is_prefix k kt || bool_decide (k = kz) || bool_decide (klog = Some k).

(** An action that, run in the working directory [cwd0], stays there and
    leaves what is stored outside the locations [allowed] as it is. *)
Definition writes_within {A} (cwd0 : key) (allowed : key -> bool) (m : M A) : Prop :=
  forall w, cwd w = cwd0 ->
    cwd (snd (m w)) = cwd0
    /\ forall k, allowed k = false -> fs (snd (m w)) !! k = fs w !! k.

(** ** Sample manifests and worlds *)

Module Sample.

(** A world with a base directory [/tmp] holding [testuser/foobar.txt] and
    [testuser/foobar2.txt]; the process runs in [/tmp]. *)
Definition fs0 : gmap key node :=
  list_to_map
    [ (["tmp"], Dir);
      (["tmp"; "testuser"], Dir);
      (["tmp"; "testuser"; "foobar.txt"], File (Raw "test1") 100);
      (["tmp"; "testuser"; "foobar2.txt"], File (Raw "test2") 200) ].

Definition w0 : world :=
  mk_world fs0 ["tmp"] (fun n => 1000 + Z.of_nat n) 0 [] [].

Definition variables : toml :=
  TTable [("name", TStr "testuser"); ("id", TInt 1)].

Definition base_dir : PurePath.t := PurePath.parse "/tmp".
Definition log_path : PurePath.t := PurePath.parse "/tmp/operation.log".

(** The manifest of the repository's test. *)
Definition config : py_dict :=
  [ ("variables", variables);
    ("zip", TTable [("file_name", TStr "sample.zip")]);
    ("file1", TTable [("from", TStr "{{name}}/foobar.txt"); ("to", TStr "renamed_foobar.txt")]);
    ("file2", TTable [("from", TStr "{{name}}/foobar2.txt");
                      ("to", TStr "new_dir/renamed_foobar2.txt")]) ].

Definition temp_dir : PurePath.t := PurePath.parse "/tmp/sample".
Definition zip_path : PurePath.t := PurePath.parse "/tmp/sample.zip".

(** The same manifest with the archive switched off. *)
Definition config_disabled : py_dict :=
  [ ("variables", variables);
    ("zip", TTable [("file_name", TStr "sample.zip"); ("output_enabled", TBool false)]);
    ("file1", TTable [("from", TStr "{{name}}/foobar.txt"); ("to", TStr "renamed_foobar.txt")]) ].

(** The same manifest with a [password] key. *)
Definition config_password (password : string) : py_dict :=
  [ ("variables", variables);
    ("zip", TTable [("file_name", TStr "sample.zip"); ("password", TStr password)]);
    ("file1", TTable [("from", TStr "{{name}}/foobar.txt"); ("to", TStr "renamed_foobar.txt")]);
    ("file2", TTable [("from", TStr "{{name}}/foobar2.txt");
                      ("to", TStr "new_dir/renamed_foobar2.txt")]) ].

(** A manifest whose first rule names a file that does not exist. *)
Definition config_missing_source : py_dict :=
  [ ("variables", variables);
    ("zip", TTable [("file_name", TStr "sample.zip")]);
    ("file1", TTable [("from", TStr "{{name}}/absent.txt"); ("to", TStr "absent.txt")]);
    ("file2", TTable [("from", TStr "{{name}}/foobar2.txt"); ("to", TStr "kept.txt")]) ].

(** A manifest whose two rules name the same destination. *)
Definition config_same_destination : py_dict :=
  [ ("variables", variables);
    ("zip", TTable [("file_name", TStr "sample.zip")]);
    ("file1", TTable [("from", TStr "{{name}}/foobar.txt"); ("to", TStr "out.txt")]);
    ("file2", TTable [("from", TStr "{{name}}/foobar2.txt"); ("to", TStr "out.txt")]) ].

(** A manifest whose rule renders an absolute destination. *)
Definition config_absolute_to : py_dict :=
  [ ("variables", variables);
    ("zip", TTable [("file_name", TStr "sample.zip")]);
    ("file1", TTable [("from", TStr "{{name}}/foobar.txt"); ("to", TStr "/tmp/elsewhere/x.txt")]) ].

(** A world in which the two sample files have been staged. *)
Definition w_staged : world :=
  mk_world
    (list_to_map
       [ (["tmp"], Dir);
         (["tmp"; "testuser"], Dir);
         (["tmp"; "testuser"; "foobar.txt"], File (Raw "test1") 100);
         (["tmp"; "testuser"; "foobar2.txt"], File (Raw "test2") 200);
         (["tmp"; "operation.log"], File (Log []) 1000);
         (["tmp"; "sample"], Dir);
         (["tmp"; "sample"; "renamed_foobar.txt"], File (Raw "test1") 100);
         (["tmp"; "sample"; "new_dir"], Dir);
         (["tmp"; "sample"; "new_dir"; "renamed_foobar2.txt"], File (Raw "test2") 200) ])
    ["tmp"] (fun n => 1000 + Z.of_nat n) 1 [] [].

(** What staging the test's manifest amounts to: each source with the
    components of its destination below the staging directory. *)
Definition plan : list (key * key) :=
  [ (["tmp"; "testuser"; "foobar.txt"], ["renamed_foobar.txt"]);
    (["tmp"; "testuser"; "foobar2.txt"], ["new_dir"; "renamed_foobar2.txt"]) ].

(** A world whose staging directory exists and is empty. *)
Definition w_empty_staging : world :=
  mk_world (<[ ["tmp"; "sample"] := Dir ]> fs0) ["tmp"] (fun n => 1000 + Z.of_nat n) 0 [] [].

End Sample.

(** * Properties *)

(** ** The repository's tests, replayed on the model *)
Example render_path_test1 :
  render_path (TStr "{{name}}/foo.txt") (TTable [("name", TStr "testuser"); ("id", TInt 1)])
  = Some "testuser/foo.txt".
Proof. reflexivity. Qed.

Example render_path_test2 :
  render_path (TStr "id_{{id}}") (TTable [("name", TStr "testuser"); ("id", TInt 1)])
  = Some "id_1".
Proof. reflexivity. Qed.

Example stem_sample : PurePath.stem (PurePath.parse "sample.zip") = "sample".
Proof. reflexivity. Qed.

Example stem_hidden : PurePath.stem (PurePath.parse "dir/.hidden") = ".hidden".
Proof. reflexivity. Qed.

Example stem_two_suffixes : PurePath.stem (PurePath.parse "a.tar.gz") = "a.tar".
Proof. reflexivity. Qed.

Example join_absolute :
  PurePath.to_string (PurePath.joinpath (PurePath.parse "/base/out") "/etc/passwd") = "/etc/passwd".
Proof. reflexivity. Qed.

Example join_relative :
  PurePath.to_string (PurePath.joinpath (PurePath.parse "base/out") "./new_dir//x.txt") = "base/out/new_dir/x.txt".
Proof. reflexivity. Qed.


(** [test_process_files]: both files are staged and the archive lists them. *)
Example test_process_files :
  let r := process_files Sample.config Sample.base_dir true None Sample.w0 in
  fst r = Return (PurePath.parse "/tmp/sample", PurePath.parse "/tmp/sample.zip")
  /\ fs (snd r) !! ["tmp"; "sample"; "renamed_foobar.txt"] = Some (File (Raw "test1") 100)
  /\ fs (snd r) !! ["tmp"; "sample"; "new_dir"; "renamed_foobar2.txt"] = Some (File (Raw "test2") 200)
  /\ fs (snd r) !! ["tmp"; "sample.zip"]
     = Some (File (Zip [("renamed_foobar.txt", Raw "test1");
                        ("new_dir/renamed_foobar2.txt", Raw "test2")]) 1002).
Proof. vm_compute. repeat split; reflexivity. Qed.

(** ** The monad *)

Lemma bind_return {A B} (m : M A) (k : A -> M B) (w w' : world) (a : A) :
  m w = (Return a, w') -> bind m k w = k a w'.
Proof. intros H. unfold bind. now rewrite H. Qed.

Lemma bind_raise {A B} (m : M A) (k : A -> M B) (w w' : world) (e : exn) :
  m w = (Raise e, w') -> bind m k w = (Raise e, w').
Proof. intros H. unfold bind. now rewrite H. Qed.

Lemma bind_outside {A B} (m : M A) (k : A -> M B) (w w' : world) :
  m w = (OutsideModel, w') -> bind m k w = (OutsideModel, w').
Proof. intros H. unfold bind. now rewrite H. Qed.

Lemma bind_assoc {A B C} (m : M A) (k : A -> M B) (h : B -> M C) (w : world) :
  bind (bind m k) h w = bind m (fun a => bind (k a) h) w.
Proof. unfold bind. destruct (m w) as [[a | e |] w']; reflexivity. Qed.

Lemma for_each_app {A} (body : A -> M unit) (l1 l2 : list A) (w : world) :
  for_each body (l1 ++ l2) w = bind (for_each body l1) (fun _ => for_each body l2) w.
Proof.
  revert w. induction l1 as [| x l1 IH]; intros w; simpl.
  - reflexivity.
  - unfold bind. destruct (body x w) as [[[] | e |] w']; [apply IH | reflexivity..].
Qed.

Lemma for_each_cons {A} (body : A -> M unit) (x : A) (l : list A) (w : world) :
  for_each body (x :: l) w
  = match body x w with
    | (Return _, w') => for_each body l w'
    | (Raise e, w') => (Raise e, w')
    | (OutsideModel, w') => (OutsideModel, w')
    end.
Proof. reflexivity. Qed.

(** ** A manifest without a [zip] section *)

(** C4: a manifest lacking a [zip] section makes [process_files] raise before
    anything is done: the world (file system, log, library calls, output) is
    the one it started in; and [main] turns the exception into exit status 1
    with the file system untouched and no library call made. *)
Theorem missing_zip_section_aborts_before_io :
  forall (config : py_dict) (base_dir : PurePath.t) (verbose : bool)
         (log_path : option PurePath.t) (lp : PurePath.t) (w : world),
    dict_get "zip" config = None ->
    process_files config base_dir verbose log_path w
      = (Raise (ValueError "[zip] section is required in TOML"), w)
    /\ (let r := main (ret config) base_dir (negb verbose) lp w in
        fst r = Return 1 /\ fs (snd r) = fs w /\ calls (snd r) = calls w).
Proof.
  intros config base_dir verbose log_path lp w Hzip.
  assert (Hp : forall v l, process_files config base_dir v l w
                           = (Raise (ValueError "[zip] section is required in TOML"), w)).
  { intros v l. unfold process_files, dict_get_default. rewrite Hzip. reflexivity. }
  split; [apply Hp |].
  cbv zeta. unfold main. rewrite (bind_return _ _ w w config) by reflexivity.
  rewrite Hp. repeat split; reflexivity.
Qed.

Lemma missing_zip_section_witness :
  let config := [("file1", TTable [("from", TStr "a.txt"); ("to", TStr "b.txt")])] in
  process_files config Sample.base_dir true (Some Sample.log_path) Sample.w0
    = (Raise (ValueError "[zip] section is required in TOML"), Sample.w0)
  /\ (let r := main (ret config) Sample.base_dir (negb true) Sample.log_path Sample.w0 in
      fst r = Return 1 /\ fs (snd r) = fs Sample.w0 /\ calls (snd r) = calls Sample.w0).
Proof.
  apply (missing_zip_section_aborts_before_io _ Sample.base_dir true
           (Some Sample.log_path) Sample.log_path Sample.w0).
  reflexivity.
Defined.

(** ** Rules without [from] or [to] *)

(** C7: a [file*] section that lacks [from] or [to] is skipped: its turn of
    the loop returns normally, changes neither the file system nor the
    library calls, prints the warning when the run is verbose, and the loop
    goes on with the sections after it exactly as if it had started there. *)
Theorem rule_missing_field_is_skipped :
  forall (variables : toml) (base_dir temp_dir : PurePath.t) (temp_dir_name : string)
         (verbose : bool) (log_path : option PurePath.t)
         (section_name : string) (file_config : py_dict) (rest : py_dict) (w : world),
    dict_get "from" file_config = None \/ dict_get "to" file_config = None ->
    let body := copy_rule variables base_dir temp_dir temp_dir_name verbose log_path in
    let warned :=
      if verbose
      then snd (print ("Warning: " +:+ section_name +:+ " is missing 'from' or 'to' field") w)
      else w in
    body (section_name, TTable file_config) w = (Return tt, warned)
    /\ for_each body ((section_name, TTable file_config) :: rest) w = for_each body rest warned
    /\ fs warned = fs w
    /\ calls warned = calls w.
Proof.
  intros variables base_dir temp_dir temp_dir_name verbose log_path
         section_name file_config rest w Hmiss body warned.
  assert (Hbody : body (section_name, TTable file_config) w = (Return tt, warned)).
  { unfold body, warned, copy_rule.
    destruct Hmiss as [-> | Hto].
    - destruct verbose; reflexivity.
    - rewrite Hto. destruct (dict_get "from" file_config); destruct verbose; reflexivity. }
  split; [exact Hbody |]. split.
  - simpl. now rewrite (bind_return _ _ _ _ _ Hbody).
  - unfold warned. destruct verbose; split; reflexivity.
Qed.

Lemma rule_missing_field_witness :
  let body := copy_rule Sample.variables Sample.base_dir (PurePath.parse "/tmp/sample")
                "sample" true None in
  let warned := snd (print "Warning: file0 is missing 'from' or 'to' field" Sample.w0) in
  body ("file0", TTable [("from", TStr "a.txt")]) Sample.w0 = (Return tt, warned)
  /\ for_each body (("file0", TTable [("from", TStr "a.txt")]) :: file_sections Sample.config)
       Sample.w0
     = for_each body (file_sections Sample.config) warned
  /\ fs warned = fs Sample.w0
  /\ calls warned = calls Sample.w0.
Proof.
  apply (rule_missing_field_is_skipped Sample.variables Sample.base_dir
           (PurePath.parse "/tmp/sample") "sample" true None
           "file0" [("from", TStr "a.txt")] (file_sections Sample.config) Sample.w0).
  right. reflexivity.
Defined.

(** ** The archive phase *)

Lemma write_zip_disabled (temp_dir : PurePath.t) (temp_dir_name : string) (verbose : bool)
    (log_path : option PurePath.t) (zip_file_name : string) (zip_path : PurePath.t)
    (zip_output_enabled : toml) (zip_password : option toml) (w : world) :
  truthy zip_output_enabled = false ->
  let r := write_zip temp_dir temp_dir_name verbose log_path zip_file_name zip_path
             zip_output_enabled zip_password w in
  fst r = Return tt /\ fs (snd r) = fs w /\ calls (snd r) = calls w /\ ticks (snd r) = ticks w.
Proof.
  intros Hoff. unfold write_zip. rewrite Hoff. destruct verbose; simpl; auto.
Qed.

(** The run of a manifest whose [zip] section is a non-empty table and whose
    archive name renders: staging, then the archive phase. *)
Lemma process_files_unfold (config zip_config : py_dict) (zip_file_name : string)
    (base_dir : PurePath.t) (verbose : bool) (log_path : option PurePath.t) (w : world) :
  dict_get "zip" config = Some (TTable zip_config) ->
  zip_config <> [] ->
  render_path (dict_get_default "file_name" (TStr "output.zip") zip_config)
              (dict_get_default "variables" (TTable []) config) = Some zip_file_name ->
  let variables := dict_get_default "variables" (TTable []) config in
  let temp_dir_name := PurePath.stem (PurePath.parse zip_file_name) in
  let temp_dir := PurePath.joinpath base_dir temp_dir_name in
  let zip_path := PurePath.joinpath base_dir zip_file_name in
  process_files config base_dir verbose log_path w
  = (stage variables base_dir temp_dir temp_dir_name verbose log_path (file_sections config) ;;;
     write_zip temp_dir temp_dir_name verbose log_path zip_file_name zip_path
       (dict_get_default "output_enabled" (TBool true) zip_config)
       (dict_get "password" zip_config) ;;;
     ret (temp_dir, zip_path)) w.
Proof.
  intros Hzip Hne Hname. cbv zeta. unfold process_files.
  replace (dict_get_default "zip" (TTable []) config) with (TTable zip_config)
    by (unfold dict_get_default; now rewrite Hzip).
  replace (truthy (TTable zip_config)) with true by (now destruct zip_config).
  cbn [negb]. now rewrite Hname.
Qed.

(** C9: with [output_enabled = false] in the [zip] section, the run ends where
    staging ended: the file system (hence the staging directory, every file
    copied into it, and the log) and the library calls are those staging
    left, no archive writer having been called; when staging returned, the
    run returns the staging directory and the archive path. *)
Theorem output_disabled_archive_is_noop :
  forall (config zip_config : py_dict) (zip_file_name : string) (base_dir : PurePath.t)
         (verbose : bool) (log_path : option PurePath.t) (w : world),
    dict_get "zip" config = Some (TTable zip_config) ->
    dict_get "output_enabled" zip_config = Some (TBool false) ->
    render_path (dict_get_default "file_name" (TStr "output.zip") zip_config)
                (dict_get_default "variables" (TTable []) config) = Some zip_file_name ->
    let temp_dir_name := PurePath.stem (PurePath.parse zip_file_name) in
    let temp_dir := PurePath.joinpath base_dir temp_dir_name in
    let staged := stage (dict_get_default "variables" (TTable []) config) base_dir temp_dir
                    temp_dir_name verbose log_path (file_sections config) w in
    let final := process_files config base_dir verbose log_path w in
    fs (snd final) = fs (snd staged)
    /\ calls (snd final) = calls (snd staged)
    /\ (fst staged = Return tt ->
        fst final = Return (temp_dir, PurePath.joinpath base_dir zip_file_name)).
Proof.
  intros config zip_config zip_file_name base_dir verbose log_path w Hzip Hoff Hname.
  cbv zeta.
  rewrite (process_files_unfold config zip_config zip_file_name) by
    (try assumption; intros ->; discriminate Hoff).
  replace (dict_get_default "output_enabled" (TBool true) zip_config) with (TBool false)
    by (unfold dict_get_default; now rewrite Hoff).
  unfold bind at 1 3 5.
  destruct (stage _ _ _ _ _ _ _ w) as [[[] | e |] w1]; cbn [fst snd];
    [| repeat split; (reflexivity || discriminate)..].
  pose proof (write_zip_disabled (PurePath.joinpath base_dir (PurePath.stem (PurePath.parse zip_file_name)))
                (PurePath.stem (PurePath.parse zip_file_name)) verbose log_path zip_file_name
                (PurePath.joinpath base_dir zip_file_name) (TBool false)
                (dict_get "password" zip_config) w1 eq_refl) as Hw.
  unfold bind.
  destruct (write_zip _ _ _ _ _ _ _ _ w1) as [r w2]. cbn [fst snd] in *.
  destruct Hw as (-> & Hfs & Hcalls & _). cbn [fst snd]. auto.
Qed.

Lemma output_disabled_witness :
  let staged := stage Sample.variables Sample.base_dir Sample.temp_dir "sample" true
                  (Some Sample.log_path) (file_sections Sample.config_disabled) Sample.w0 in
  let final := process_files Sample.config_disabled Sample.base_dir true
                 (Some Sample.log_path) Sample.w0 in
  fs (snd final) = fs (snd staged)
  /\ calls (snd final) = calls (snd staged)
  /\ (fst staged = Return tt -> fst final = Return (Sample.temp_dir, Sample.zip_path)).
Proof.
  apply (output_disabled_archive_is_noop Sample.config_disabled
           [("file_name", TStr "sample.zip"); ("output_enabled", TBool false)]
           "sample.zip" Sample.base_dir true (Some Sample.log_path) Sample.w0);
    reflexivity.
Defined.

(** *** Enumerating the staging directory *)

Lemma strip_prefix_app (pre rel : list string) :
  PurePath.strip_prefix pre (pre ++ rel) = Some rel.
Proof.
  induction pre as [| x pre IH]; simpl; [reflexivity |].
  now rewrite String.eqb_refl.
Qed.

Lemma relative_to_extend (p : PurePath.t) (rel : list string) :
  PurePath.relative_to (PurePath.extend p rel) p = Some (PurePath.mk PurePath.Relative rel).
Proof.
  unfold PurePath.relative_to, PurePath.extend. cbn [PurePath.root PurePath.parts].
  rewrite decide_True by reflexivity. now rewrite strip_prefix_app.
Qed.

Lemma map_m_relative_to (p : PurePath.t) (rels : list (list string)) (w : world) :
  map_m (fun f => relative_to f p) (PurePath.extend p <$> rels) w
  = (Return (PurePath.mk PurePath.Relative <$> rels), w).
Proof.
  revert w. induction rels as [| rel rels IH]; intros w; [reflexivity |].
  cbn [fmap list_fmap map_m]. unfold relative_to at 1. rewrite relative_to_extend.
  unfold bind at 1. unfold ret at 1. unfold bind. now rewrite IH.
Qed.

Lemma rglob_files_spec (p : PurePath.t) (k : key) (w : world) :
  resolve_key (cwd w) p = Some k ->
  rglob_files p w
  = (Return (PurePath.extend p <$> files_under (fs w) k), add_calls [CallRglob p] w).
Proof.
  intros Hk. unfold rglob_files, bind, record_call, resolve, get_fs, ret.
  cbn [cwd fs]. now rewrite Hk.
Qed.

Lemma add_calls_app (l1 l2 : list call) (w : world) :
  add_calls l2 (add_calls l1 w) = add_calls (l1 ++ l2) w.
Proof. unfold add_calls. cbn. now rewrite app_assoc. Qed.

(** The encrypted branch up to its test of the file list. *)
Lemma zip_encrypted_spec (temp_dir : PurePath.t) (verbose : bool)
    (log_path : option PurePath.t) (zip_path : PurePath.t) (password : string)
    (kt : key) (w : world) :
  resolve_key (cwd w) temp_dir = Some kt ->
  let rels := files_under (fs w) kt in
  let files := PurePath.extend temp_dir <$> rels in
  let file_list := PurePath.to_string <$> files in
  let arcname_list := PurePath.to_string <$> (PurePath.mk PurePath.Relative <$> rels) in
  let w2 := add_calls [CallRglob temp_dir; CallRglob temp_dir] w in
  zip_encrypted temp_dir verbose log_path zip_path password w
  = match rels with
    | [] => (Return tt, w2)
    | _ =>
        (compress_multiple files arcname_list zip_path password 5 ;;;
         log_if log_path (fun lp =>
           for_each (fun '(file, arcname) => append_log lp "zip" file arcname)
                    (combine file_list arcname_list)) ;;;
         when verbose
           (for_each (fun arcname => print ("Added to zip: " +:+ arcname)) arcname_list)) w2
    end.
Proof.
  intros Hk. cbv zeta. unfold zip_encrypted.
  rewrite (bind_return _ _ _ _ _ (rglob_files_spec temp_dir kt w Hk)).
  rewrite (bind_return _ _ _ _ _
             (rglob_files_spec temp_dir kt (add_calls [CallRglob temp_dir] w) Hk)).
  rewrite add_calls_app. cbn [app fs add_calls].
  rewrite (bind_return _ _ _ _ _ (map_m_relative_to temp_dir _ _)).
  destruct (files_under (fs w) kt); reflexivity.
Qed.

(** C8: with a non-empty password, archiving enabled and no regular file under
    the staging directory, the archive phase returns normally having only
    listed the staging directory (twice): the file system is unchanged, so
    no archive file exists that did not before and the log has no new row;
    neither archive writer is called. *)
Theorem encrypted_empty_staging_is_noop :
  forall (temp_dir : PurePath.t) (temp_dir_name : string) (verbose : bool)
         (log_path : option PurePath.t) (zip_file_name : string) (zip_path : PurePath.t)
         (zip_output_enabled : toml) (password : string) (kt : key) (w : world),
    truthy zip_output_enabled = true ->
    password <> EmptyString ->
    resolve_key (cwd w) temp_dir = Some kt ->
    files_under (fs w) kt = [] ->
    let r := write_zip temp_dir temp_dir_name verbose log_path zip_file_name zip_path
               zip_output_enabled (Some (TStr password)) w in
    fst r = Return tt
    /\ fs (snd r) = fs w
    /\ calls (snd r) = calls w ++ [CallRglob temp_dir; CallRglob temp_dir].
Proof.
  intros temp_dir temp_dir_name verbose log_path zip_file_name zip_path
         zip_output_enabled password kt w Hon Hpw Hk Hempty.
  cbv zeta. unfold write_zip. rewrite Hon.
  assert (Ht : truthy_opt (Some (TStr password)) = true).
  { cbn. destruct (String.eqb_spec password EmptyString); [contradiction | reflexivity]. }
  rewrite Ht.
  pose proof (zip_encrypted_spec temp_dir verbose log_path zip_path password kt w Hk) as Hz.
  cbv zeta in Hz. rewrite Hempty in Hz.
  rewrite (bind_return _ _ _ _ _ Hz).
  destruct verbose; repeat split; reflexivity.
Qed.

Lemma encrypted_empty_staging_witness :
  let r := write_zip Sample.temp_dir "sample" true (Some Sample.log_path) "sample.zip"
             Sample.zip_path (TBool true) (Some (TStr "secret")) Sample.w_empty_staging in
  fst r = Return tt
  /\ fs (snd r) = fs Sample.w_empty_staging
  /\ calls (snd r) = calls Sample.w_empty_staging
                     ++ [CallRglob Sample.temp_dir; CallRglob Sample.temp_dir].
Proof.
  apply (encrypted_empty_staging_is_noop Sample.temp_dir "sample" true (Some Sample.log_path)
           "sample.zip" Sample.zip_path (TBool true) "secret" ["tmp"; "sample"]
           Sample.w_empty_staging).
  - reflexivity.
  - discriminate.
  - reflexivity.
  - vm_compute. reflexivity.
Defined.

(** *** Which library calls an action makes *)

Section CallsOnly.

Variable P : call -> Prop.

Lemma calls_only_pure {A} (m : M A) :
  (forall w, calls (snd (m w)) = calls w) -> calls_only P m.
Proof. intros H w. exists []. rewrite H, app_nil_r. auto. Qed.

Lemma calls_only_ret {A} (a : A) : calls_only P (ret a).
Proof. now apply calls_only_pure. Qed.

Lemma calls_only_raise {A} (e : exn) : calls_only P (@raise A e).
Proof. now apply calls_only_pure. Qed.

Lemma calls_only_outside {A} : calls_only P (@outside_model A).
Proof. now apply calls_only_pure. Qed.

Lemma calls_only_get_fs : calls_only P get_fs.
Proof. now apply calls_only_pure. Qed.

Lemma calls_only_put_fs f : calls_only P (put_fs f).
Proof. now apply calls_only_pure. Qed.

Lemma calls_only_print line : calls_only P (print line).
Proof. now apply calls_only_pure. Qed.

Lemma calls_only_now : calls_only P now.
Proof. now apply calls_only_pure. Qed.

Lemma calls_only_resolve p : calls_only P (resolve p).
Proof.
  apply calls_only_pure. intros w. unfold resolve.
  now destruct (resolve_key (cwd w) p).
Qed.

Lemma calls_only_record c : P c -> calls_only P (record_call c).
Proof. intros Hc w. exists [c]. cbn. auto. Qed.

Lemma calls_only_bind {A B} (m : M A) (k : A -> M B) :
  calls_only P m -> (forall a, calls_only P (k a)) -> calls_only P (bind m k).
Proof.
  intros Hm Hk w. unfold bind. destruct (Hm w) as (l1 & E1 & F1).
  destruct (m w) as [[a | e |] w1]; cbn [snd] in *; [| now exists l1..].
  destruct (Hk a w1) as (l2 & E2 & F2).
  exists (l1 ++ l2). rewrite E2, E1, app_assoc. split; [reflexivity |].
  now apply Forall_app.
Qed.

Lemma calls_only_when (b : bool) (m : M unit) : calls_only P m -> calls_only P (when b m).
Proof. destruct b; [auto | intros _; apply calls_only_ret]. Qed.

Lemma calls_only_log_if (lp : option PurePath.t) (m : PurePath.t -> M unit) :
  (forall p, calls_only P (m p)) -> calls_only P (log_if lp m).
Proof. intros H. destruct lp; [apply H | apply calls_only_ret]. Qed.

Lemma calls_only_for_each {A} (body : A -> M unit) (l : list A) :
  (forall x, calls_only P (body x)) -> calls_only P (for_each body l).
Proof.
  intros Hb. induction l as [| x l IH]; [apply calls_only_ret |].
  simpl. apply calls_only_bind; auto.
Qed.

Lemma calls_only_map_m {A B} (f : A -> M B) (l : list A) :
  (forall x, calls_only P (f x)) -> calls_only P (map_m f l).
Proof.
  intros Hf. induction l as [| x l IH]; [apply calls_only_ret |].
  simpl. apply calls_only_bind; [auto |]. intros y.
  apply calls_only_bind; [auto |]. intros ys. apply calls_only_ret.
Qed.

End CallsOnly.

(** Goals [calls_only P m] for the actions of this file, down to the
    obligations [P c] of the calls they record. *)
Ltac calls_only_step :=
  lazymatch goal with
  | |- calls_only _ (bind _ _) => apply calls_only_bind; [| intros ?]
  | |- calls_only _ (ret _) => apply calls_only_ret
  | |- calls_only _ (raise _) => apply calls_only_raise
  | |- calls_only _ outside_model => apply calls_only_outside
  | |- calls_only _ get_fs => apply calls_only_get_fs
  | |- calls_only _ (put_fs _) => apply calls_only_put_fs
  | |- calls_only _ (print _) => apply calls_only_print
  | |- calls_only _ now => apply calls_only_now
  | |- calls_only _ (resolve _) => apply calls_only_resolve
  | |- calls_only _ (record_call _) => apply calls_only_record
  | |- calls_only _ (when _ _) => apply calls_only_when
  | |- calls_only _ (log_if _ _) => apply calls_only_log_if; intros ?
  | |- calls_only _ (for_each _ _) => apply calls_only_for_each; intros ?
  | |- calls_only _ (map_m _ _) => apply calls_only_map_m; intros ?
  | |- calls_only _ (match ?x with _ => _ end) => destruct x
  end.

Ltac calls_only_tac := repeat calls_only_step.

Lemma calls_only_create_file (P : call -> Prop) (k : key) (content : data) :
  calls_only P (create_file k content).
Proof. unfold create_file. calls_only_tac. Qed.

Lemma calls_only_append_log (P : call -> Prop) (lp : PurePath.t) (op src dst : string) :
  P (CallOpen lp "a") -> calls_only P (append_log lp op src dst).
Proof. intros H. unfold append_log. calls_only_tac. exact H. Qed.

Lemma calls_only_read_files (P : call -> Prop) (kz : key) (files : list PurePath.t) :
  calls_only P (read_files kz files).
Proof.
  induction files as [| p files IH]; simpl; [apply calls_only_ret |].
  calls_only_tac; apply IH.
Qed.

Lemma calls_only_relative_to (P : call -> Prop) (p other : PurePath.t) :
  calls_only P (relative_to p other).
Proof. unfold relative_to. calls_only_tac. Qed.

Lemma calls_after_record {A} (P : call -> Prop) (c : call) (k : unit -> M A) :
  calls_only P (k tt) ->
  forall w, exists l,
    calls (snd (bind (record_call c) k w)) = calls w ++ c :: l /\ Forall P l.
Proof.
  intros Hm w. destruct (Hm (add_calls [c] w)) as (l & E & F).
  exists l. split; [| exact F].
  change (bind (record_call c) k w) with (k tt (add_calls [c] w)).
  rewrite E. cbn. now rewrite <- app_assoc.
Qed.

Lemma bind_eq {A B} (m m' : M A) (k : A -> M B) (w w' : world) :
  m w = m' w' -> bind m k w = bind m' k w'.
Proof. intros H. unfold bind. now rewrite H. Qed.

(** The encrypted branch never calls the plain writer. *)
Lemma zip_encrypted_no_plain_call (temp_dir : PurePath.t) (verbose : bool)
    (log_path : option PurePath.t) (zip_path : PurePath.t) (password : string) :
  calls_only (fun c => is_plain_call c = false)
    (zip_encrypted temp_dir verbose log_path zip_path password).
Proof.
  unfold zip_encrypted, rglob_files, compress_multiple.
  calls_only_tac;
    first [ reflexivity
          | apply calls_only_relative_to
          | apply calls_only_read_files
          | apply calls_only_create_file
          | apply calls_only_append_log; reflexivity ].
Qed.

(** The plain branch never calls the encrypting writer. *)
Lemma zip_plain_no_encrypted_call (temp_dir : PurePath.t) (verbose : bool)
    (log_path : option PurePath.t) (zip_path : PurePath.t) :
  calls_only (fun c => is_encrypted_call c = false)
    (zip_plain temp_dir verbose log_path zip_path).
Proof.
  unfold zip_plain, zip_add, zip_open, rglob_files, zip_write.
  calls_only_tac;
    first [ reflexivity
          | apply calls_only_relative_to
          | apply calls_only_create_file
          | apply calls_only_append_log; reflexivity ].
Qed.

(** C10: a [password] key holding the empty string selects the plain branch.
    The archive phase with [password = ''] is the archive phase without a
    password, call for call; and on the sample manifest with such a key the
    run writes an ordinary [zipfile] archive of the two staged files and
    never calls the encrypting writer. *)
Theorem empty_password_takes_plain_branch :
  (forall (temp_dir : PurePath.t) (temp_dir_name : string) (verbose : bool)
          (log_path : option PurePath.t) (zip_file_name : string) (zip_path : PurePath.t)
          (zip_output_enabled : toml) (w : world),
      write_zip temp_dir temp_dir_name verbose log_path zip_file_name zip_path
        zip_output_enabled (Some (TStr EmptyString)) w
      = write_zip temp_dir temp_dir_name verbose log_path zip_file_name zip_path
          zip_output_enabled None w)
  /\ (let r := process_files (Sample.config_password EmptyString) Sample.base_dir true None
                 Sample.w0 in
      fst r = Return (Sample.temp_dir, Sample.zip_path)
      /\ fs (snd r) !! ["tmp"; "sample.zip"]
         = Some (File (Zip [("renamed_foobar.txt", Raw "test1");
                            ("new_dir/renamed_foobar2.txt", Raw "test2")]) 1002)
      /\ forallb (fun c => negb (is_encrypted_call c)) (calls (snd r)) = true
      /\ existsb is_plain_call (calls (snd r)) = true).
Proof.
  split.
  - reflexivity.
  - vm_compute. repeat split; reflexivity.
Qed.

(** ** Where a rule's destination lies *)

Lemma joinpath_relative (p : PurePath.t) (s : string) :
  PurePath.is_absolute (PurePath.parse s) = false ->
  PurePath.joinpath p s = PurePath.extend p (PurePath.parts (PurePath.parse s)).
Proof. intros H. unfold PurePath.joinpath. now rewrite H. Qed.

Lemma joinpath_absolute (p : PurePath.t) (s : string) :
  PurePath.is_absolute (PurePath.parse s) = true ->
  PurePath.joinpath p s = PurePath.parse s.
Proof. intros H. unfold PurePath.joinpath. now rewrite H. Qed.

Lemma has_dotdot_extend (p : PurePath.t) (rel : list string) :
  has_dotdot (PurePath.extend p rel) = (has_dotdot p || negb (no_dotdot rel))%bool.
Proof.
  unfold has_dotdot, no_dotdot, PurePath.extend. cbn [PurePath.parts].
  now rewrite existsb_app, negb_involutive.
Qed.

Lemma resolve_key_extend (cwd : key) (p : PurePath.t) (rel : list string) (k : key) :
  resolve_key cwd p = Some k ->
  no_dotdot rel = true ->
  resolve_key cwd (PurePath.extend p rel) = Some (k ++ rel).
Proof.
  unfold resolve_key. rewrite has_dotdot_extend. intros Hk ->.
  destruct (has_dotdot p); [discriminate |]. cbn [orb negb].
  injection Hk as <-. unfold PurePath.extend. cbn [PurePath.root PurePath.parts].
  destruct (PurePath.root p); now rewrite ?app_assoc.
Qed.

Lemma resolve_key_extend_inv (cwd : key) (p : PurePath.t) (rel : list string) (kd : key) :
  resolve_key cwd (PurePath.extend p rel) = Some kd ->
  exists k, resolve_key cwd p = Some k /\ kd = k ++ rel /\ no_dotdot rel = true.
Proof.
  unfold resolve_key. rewrite has_dotdot_extend.
  destruct (has_dotdot p); [discriminate |].
  destruct (no_dotdot rel); [| discriminate]. cbn [orb negb].
  intros [= <-]. eexists. split; [reflexivity |]. split; [| reflexivity].
  unfold PurePath.extend. cbn [PurePath.root PurePath.parts].
  destruct (PurePath.root p); now rewrite ?app_assoc.
Qed.

(** C6, as the code has it: the destination is [pathlib]'s join of the staging
    directory and the rendered [to].  A relative [to] extends the staging
    directory by its components, so the destination lies below it, and
    wherever the destination resolves the staging directory resolves to a
    prefix of that location; an absolute [to] is the destination by itself
    and the staging directory is dropped. *)
Theorem destination_is_pathlib_join :
  forall (temp_dir : PurePath.t) (to_path_rendered : string),
    let destination := destination_of temp_dir to_path_rendered in
    let rel := PurePath.parts (PurePath.parse to_path_rendered) in
    match PurePath.root (PurePath.parse to_path_rendered) with
    | PurePath.Relative =>
        destination = PurePath.extend temp_dir rel
        /\ lies_under destination temp_dir
        /\ (forall (cwd kd : key),
              resolve_key cwd destination = Some kd ->
              exists kt, resolve_key cwd temp_dir = Some kt /\ kd = kt ++ rel)
    | _ => destination = PurePath.parse to_path_rendered
    end.
Proof.
  intros temp_dir to_path_rendered. cbv zeta. unfold destination_of.
  destruct (PurePath.root (PurePath.parse to_path_rendered)) eqn:Hroot.
  - assert (Hrel : PurePath.is_absolute (PurePath.parse to_path_rendered) = false)
      by (unfold PurePath.is_absolute; now rewrite Hroot).
    rewrite (joinpath_relative _ _ Hrel). split; [reflexivity |]. split.
    + split; [reflexivity |]. now apply prefix_app_r.
    + intros cwd kd Hkd. apply resolve_key_extend_inv in Hkd as (kt & Hkt & -> & _).
      now exists kt.
  - apply joinpath_absolute. unfold PurePath.is_absolute. now rewrite Hroot.
  - apply joinpath_absolute. unfold PurePath.is_absolute. now rewrite Hroot.
Qed.

Lemma destination_relative_witness :
  destination_of Sample.temp_dir "new_dir/renamed_foobar2.txt"
  = PurePath.extend Sample.temp_dir ["new_dir"; "renamed_foobar2.txt"]
  /\ lies_under (destination_of Sample.temp_dir "new_dir/renamed_foobar2.txt") Sample.temp_dir
  /\ (forall (cwd kd : key),
        resolve_key cwd (destination_of Sample.temp_dir "new_dir/renamed_foobar2.txt") = Some kd ->
        exists kt, resolve_key cwd Sample.temp_dir = Some kt
                   /\ kd = kt ++ ["new_dir"; "renamed_foobar2.txt"]).
Proof.
  exact (destination_is_pathlib_join Sample.temp_dir "new_dir/renamed_foobar2.txt").
Defined.

(** C6 as stated fails: an absolute rendered [to] is the destination itself,
    outside the staging directory, and the run copies the file there while
    the staging directory stays without a file. *)
Lemma destination_absolute_escapes_staging :
  destination_of Sample.temp_dir "/tmp/elsewhere/x.txt" = PurePath.parse "/tmp/elsewhere/x.txt"
  /\ ~ lies_under (destination_of Sample.temp_dir "/tmp/elsewhere/x.txt") Sample.temp_dir
  /\ (let r := process_files Sample.config_absolute_to Sample.base_dir true None Sample.w0 in
      fst r = Return (Sample.temp_dir, Sample.zip_path)
      /\ fs (snd r) !! ["tmp"; "elsewhere"; "x.txt"] = Some (File (Raw "test1") 100)
      /\ files_under (fs (snd r)) ["tmp"; "sample"] = []).
Proof.
  split; [reflexivity |]. split.
  - intros [_ Hpre]. vm_compute in Hpre. destruct Hpre as [k Hk]. discriminate Hk.
  - vm_compute. repeat split; reflexivity.
Qed.

(** ** Rendering a template that names an undefined variable *)

Section Render.

Import Jinja.

Variable variables : py_dict.

Lemma append_nil_l (s : string) : EmptyString +:+ s = s.
Proof. reflexivity. Qed.

Lemma append_cons (c : ascii) (a s : string) : String c a +:+ s = String c (a +:+ s).
Proof. reflexivity. Qed.

Lemma append_nil_r (s : string) : s +:+ EmptyString = s.
Proof. induction s as [| c s IH]; [reflexivity |]. now rewrite append_cons, IH. Qed.

Lemma blank_not_newline c : is_blank c = true -> is_newline c = false.
Proof. destruct c as [[] [] [] [] [] [] [] []]; vm_compute; congruence. Qed.

Lemma blank_not_ident c : is_blank c = true -> is_ident_char c = false.
Proof. destruct c as [[] [] [] [] [] [] [] []]; vm_compute; congruence. Qed.

Lemma ident_not_newline c : is_ident_char c = true -> is_newline c = false.
Proof. destruct c as [[] [] [] [] [] [] [] []]; vm_compute; congruence. Qed.

Lemma ident_start_char c : is_ident_start c = true -> is_ident_char c = true.
Proof. unfold is_ident_char. now intros ->. Qed.

Lemma ident_start_not_blank c : is_ident_start c = true -> is_blank c = false.
Proof. destruct c as [[] [] [] [] [] [] [] []]; vm_compute; congruence. Qed.

Lemma render_from_plain (pre s : string) :
  plain_text pre = true ->
  render_from variables InData (pre +:+ s)
  = String.append pre <$> render_from variables InData s.
Proof.
  induction pre as [| c pre IH]; intros Hp.
  - rewrite append_nil_l. now destruct (render_from variables InData s).
  - cbn in Hp. apply andb_prop in Hp as [Hc Hp]. apply andb_prop in Hc as [Hb Hn].
    apply negb_true_iff in Hb, Hn.
    rewrite append_cons. cbn [render_from]. rewrite Hn, Hb, (IH Hp).
    now destruct (render_from variables InData s).
Qed.

Lemma render_from_blanks_begin (b s : string) :
  blanks b = true ->
  render_from variables VarBegin (b +:+ s) = render_from variables VarBegin s.
Proof.
  induction b as [| c b IH]; intros Hb; [reflexivity |].
  cbn in Hb. apply andb_prop in Hb as [Hc Hb].
  rewrite append_cons. cbn [render_from]. rewrite (blank_not_newline _ Hc), Hc. auto.
Qed.

Lemma render_from_blanks_end (name b s : string) :
  blanks b = true ->
  render_from variables (VarEnd name) (b +:+ s) = render_from variables (VarEnd name) s.
Proof.
  induction b as [| c b IH]; intros Hb; [reflexivity |].
  cbn in Hb. apply andb_prop in Hb as [Hc Hb].
  rewrite append_cons. cbn [render_from]. rewrite (blank_not_newline _ Hc), Hc. auto.
Qed.

Lemma snoc_append (acc : string) (c : ascii) (n : string) :
  snoc acc c +:+ n = acc +:+ String c n.
Proof.
  unfold snoc. induction acc as [| a acc IH]; [reflexivity |].
  now rewrite !append_cons, IH.
Qed.

Lemma render_from_name (n acc s : string) :
  ident_chars n = true ->
  render_from variables (VarName acc) (n +:+ s)
  = render_from variables (VarName (acc +:+ n)) s.
Proof.
  revert acc. induction n as [| c n IH]; intros acc Hn.
  - now rewrite append_nil_l, append_nil_r.
  - cbn in Hn. apply andb_prop in Hn as [Hc Hn].
    rewrite append_cons. cbn [render_from]. rewrite (ident_not_newline _ Hc), Hc.
    rewrite (IH _ Hn). now rewrite snoc_append.
Qed.

(** What follows a complete name: blanks, the closing braces, the value. *)
Lemma render_from_close (name b s : string) :
  blanks b = true ->
  render_from variables (VarName name) (b +:+ "}}" +:+ s)
  = match lookup_var variables name with
    | Some v => String.append v <$> render_from variables InData s
    | None => None
    end.
Proof.
  intros Hb. destruct b as [| c b].
  - reflexivity.
  - cbn in Hb. apply andb_prop in Hb as [Hc Hb].
    rewrite append_cons. cbn [render_from].
    rewrite (blank_not_newline _ Hc), (blank_not_ident _ Hc), Hc.
    now rewrite (render_from_blanks_end _ _ _ Hb).
Qed.

(** A placeholder after literal text prints the value of its name. *)
Lemma render_placeholder (pre b1 name b2 post : string) :
  plain_text pre = true ->
  blanks b1 = true ->
  identifier name = true ->
  blanks b2 = true ->
  render (pre +:+ "{{" +:+ b1 +:+ name +:+ b2 +:+ "}}" +:+ post) variables
  = match lookup_var variables name with
    | Some v => (fun r => pre +:+ v +:+ r) <$> render post variables
    | None => None
    end.
Proof.
  intros Hpre Hb1 Hname Hb2. unfold render.
  rewrite (render_from_plain _ _ Hpre).
  change (render_from variables InData ("{{" +:+ b1 +:+ name +:+ b2 +:+ "}}" +:+ post))
    with (render_from variables VarBegin (b1 +:+ name +:+ b2 +:+ "}}" +:+ post)).
  rewrite (render_from_blanks_begin _ _ Hb1).
  destruct name as [| c n]; [discriminate |].
  cbn in Hname. apply andb_prop in Hname as [Hc Hn].
  rewrite append_cons. cbn [render_from].
  rewrite (ident_not_newline _ (ident_start_char _ Hc)), (ident_start_not_blank _ Hc), Hc.
  rewrite (render_from_name _ _ _ Hn). rewrite append_cons, append_nil_l.
  rewrite (render_from_close _ _ _ Hb2).
  destruct (lookup_var variables (String c n)) as [v |]; [| reflexivity].
  now destruct (render_from variables InData post).
Qed.

End Render.

(** C2, as the code has it: a placeholder whose name the variable mapping
    lacks does not make [render_path] fail; it prints as the empty string.
    For a template made of literal text, such a placeholder and a remainder,
    the result is the literal text followed by the rendering of the
    remainder. *)
Theorem undefined_variable_renders_empty :
  forall (variables : py_dict) (pre b1 name b2 post : string),
    plain_text pre = true ->
    blanks b1 = true ->
    identifier name = true ->
    blanks b2 = true ->
    Jinja.is_reserved name = false ->
    dict_get name variables = None ->
    render_path (TStr (pre +:+ "{{" +:+ b1 +:+ name +:+ b2 +:+ "}}" +:+ post)) (TTable variables)
    = String.append pre <$> render_path (TStr post) (TTable variables).
Proof.
  intros variables pre b1 name b2 post Hpre Hb1 Hname Hb2 Hres Hundef.
  unfold render_path. rewrite (render_placeholder _ _ _ _ _ _ Hpre Hb1 Hname Hb2).
  unfold Jinja.lookup_var. rewrite Hres, Hundef. reflexivity.
Qed.

Lemma undefined_variable_witness :
  render_path (TStr ("dir/" +:+ "{{" +:+ " " +:+ "project" +:+ " " +:+ "}}" +:+ "/{{name}}.txt"))
    Sample.variables
  = String.append "dir/" <$> render_path (TStr "/{{name}}.txt") Sample.variables.
Proof.
  apply (undefined_variable_renders_empty
           [("name", TStr "testuser"); ("id", TInt 1)] "dir/" " " "project" " " "/{{name}}.txt");
    reflexivity.
Defined.

(** C2 as stated fails: rendering a template that names an absent variable
    returns a string, with nothing where the placeholder stood. *)
Lemma undefined_variable_is_not_an_error :
  render_path (TStr "{{project}}/foo.txt") (TTable [("name", TStr "testuser")])
  = Some "/foo.txt".
Proof. reflexivity. Qed.

(** ** A rule whose source does not exist *)

Lemma stage_app (variables : toml) (base_dir temp_dir : PurePath.t) (temp_dir_name : string)
    (verbose : bool) (log_path : option PurePath.t) (l1 l2 : py_dict) (w : world) :
  stage variables base_dir temp_dir temp_dir_name verbose log_path (l1 ++ l2) w
  = (stage variables base_dir temp_dir temp_dir_name verbose log_path l1 ;;;
     for_each (copy_rule variables base_dir temp_dir temp_dir_name verbose log_path) l2) w.
Proof.
  unfold stage. rewrite bind_assoc. unfold bind.
  destruct (log_if log_path write_log_header w) as [[[] | e |] w']; try reflexivity.
  rewrite for_each_app. reflexivity.
Qed.

Lemma path_exists_spec (p : PurePath.t) (k : key) (w : world) :
  resolve_key (cwd w) p = Some k ->
  path_exists p w
  = (Return (match node_at (fs w) k with Some _ => true | None => false end),
     add_calls [CallExists p] w).
Proof.
  intros Hk. unfold path_exists, bind, record_call, resolve, get_fs, ret.
  cbn [cwd fs]. now rewrite Hk.
Qed.

(** The turn of a valid rule whose source is missing. *)
Lemma copy_rule_missing_source (variables : toml) (base_dir temp_dir : PurePath.t)
    (temp_dir_name : string) (verbose : bool) (log_path : option PurePath.t)
    (section_name : string) (file_config : py_dict) (from_path to_path : toml)
    (from_path_rendered to_path_rendered : string) (ks : key) (w : world) :
  dict_get "from" file_config = Some from_path ->
  dict_get "to" file_config = Some to_path ->
  truthy from_path = true ->
  truthy to_path = true ->
  render_path from_path variables = Some from_path_rendered ->
  render_path to_path variables = Some to_path_rendered ->
  resolve_key (cwd w) (source_of base_dir from_path_rendered) = Some ks ->
  node_at (fs w) ks = None ->
  let source := source_of base_dir from_path_rendered in
  let w' := add_calls [CallExists source] w in
  copy_rule variables base_dir temp_dir temp_dir_name verbose log_path
    (section_name, TTable file_config) w
  = if verbose
    then (Raise (SystemExit None),
          snd (print ("Error: Source file not found: " +:+ PurePath.to_string source) w'))
    else (Return tt, w').
Proof.
  intros Hfrom Hto Htf Htt Hrf Hrt Hks Hnone. cbv zeta.
  unfold copy_rule. rewrite Hfrom, Hto, Htf, Htt. cbn [negb orb].
  rewrite Hrf, Hrt. unfold copy_rendered.
  rewrite (bind_return _ _ _ _ _ (path_exists_spec _ _ _ Hks)).
  rewrite Hnone. cbn [negb]. destruct verbose; reflexivity.
Qed.

(** C1, what the code does: when the loop reaches a valid rule whose resolved
    source does not exist, a verbose run prints the error and ends there by
    raising [SystemExit]: the sections after it are not looked at and the
    archive phase is not entered, the world being the one the rule found
    plus the existence test and the message; a quiet run skips the rule and
    goes on with the sections after it and with the archive phase.  The
    stop depends on [verbose] because [sys.exit()] stands under
    [if verbose:], where every other [if verbose:] guards a [print] only. *)
Theorem missing_source_stops_verbose_run :
  forall (config zip_config : py_dict) (zip_file_name : string) (base_dir : PurePath.t)
         (verbose : bool) (log_path : option PurePath.t)
         (before rest : py_dict) (section_name : string) (file_config : py_dict)
         (from_path to_path : toml) (from_path_rendered to_path_rendered : string)
         (ks : key) (w w1 : world),
    let variables := dict_get_default "variables" (TTable []) config in
    let temp_dir_name := PurePath.stem (PurePath.parse zip_file_name) in
    let temp_dir := PurePath.joinpath base_dir temp_dir_name in
    let zip_path := PurePath.joinpath base_dir zip_file_name in
    let source := source_of base_dir from_path_rendered in
    dict_get "zip" config = Some (TTable zip_config) ->
    zip_config <> [] ->
    render_path (dict_get_default "file_name" (TStr "output.zip") zip_config) variables
      = Some zip_file_name ->
    file_sections config = before ++ (section_name, TTable file_config) :: rest ->
    dict_get "from" file_config = Some from_path ->
    dict_get "to" file_config = Some to_path ->
    truthy from_path = true ->
    truthy to_path = true ->
    render_path from_path variables = Some from_path_rendered ->
    render_path to_path variables = Some to_path_rendered ->
    stage variables base_dir temp_dir temp_dir_name verbose log_path before w = (Return tt, w1) ->
    resolve_key (cwd w1) source = Some ks ->
    node_at (fs w1) ks = None ->
    process_files config base_dir verbose log_path w
    = if verbose
      then (Raise (SystemExit None),
            snd (print ("Error: Source file not found: " +:+ PurePath.to_string source)
                   (add_calls [CallExists source] w1)))
      else (for_each (copy_rule variables base_dir temp_dir temp_dir_name verbose log_path) rest ;;;
            write_zip temp_dir temp_dir_name verbose log_path zip_file_name zip_path
              (dict_get_default "output_enabled" (TBool true) zip_config)
              (dict_get "password" zip_config) ;;;
            ret (temp_dir, zip_path)) (add_calls [CallExists source] w1).
Proof.
  intros config zip_config zip_file_name base_dir verbose log_path before rest section_name
         file_config from_path to_path from_path_rendered to_path_rendered ks w w1
         variables temp_dir_name temp_dir zip_path source
         Hzip Hne Hname Hsections Hfrom Hto Htf Htt Hrf Hrt Hstage Hks Hnone.
  rewrite (process_files_unfold config zip_config zip_file_name) by assumption.
  cbv zeta. fold variables temp_dir_name temp_dir zip_path.
  rewrite Hsections. unfold bind at 1. rewrite stage_app.
  rewrite (bind_return _ _ _ _ _ Hstage), for_each_cons.
  rewrite (copy_rule_missing_source variables base_dir temp_dir temp_dir_name verbose log_path
             section_name file_config from_path to_path from_path_rendered to_path_rendered
             ks w1) by assumption.
  cbv zeta. fold source. destruct verbose; reflexivity.
Qed.

Lemma missing_source_witness :
  process_files Sample.config_missing_source Sample.base_dir true None Sample.w0
  = (Raise (SystemExit None),
     snd (print "Error: Source file not found: /tmp/testuser/absent.txt"
            (add_calls [CallExists (PurePath.parse "/tmp/testuser/absent.txt")] Sample.w0))).
Proof.
  apply (missing_source_stops_verbose_run Sample.config_missing_source
           [("file_name", TStr "sample.zip")] "sample.zip" Sample.base_dir true None
           [] [("file2", TTable [("from", TStr "{{name}}/foobar2.txt"); ("to", TStr "kept.txt")])]
           "file1" [("from", TStr "{{name}}/absent.txt"); ("to", TStr "absent.txt")]
           (TStr "{{name}}/absent.txt") (TStr "absent.txt") "testuser/absent.txt" "absent.txt"
           ["tmp"; "testuser"; "absent.txt"] Sample.w0 Sample.w0);
    first [ reflexivity | discriminate ].
Defined.

(** C1, where the code departs from it: in a quiet run the rule with the
    missing source is passed over, the rule after it is executed and the
    archive is built without the missing file; and the exit status [main]
    reports is zero, in a quiet run and in a verbose one. *)
Lemma missing_source_quiet_run_continues :
  let r := process_files Sample.config_missing_source Sample.base_dir false None Sample.w0 in
  fst r = Return (Sample.temp_dir, Sample.zip_path)
  /\ fs (snd r) !! ["tmp"; "sample"; "kept.txt"] = Some (File (Raw "test2") 200)
  /\ fs (snd r) !! ["tmp"; "sample.zip"] = Some (File (Zip [("kept.txt", Raw "test2")]) 1001)
  /\ fst (main (ret Sample.config_missing_source) Sample.base_dir true Sample.log_path Sample.w0)
     = Return 0
  /\ fst (main (ret Sample.config_missing_source) Sample.base_dir false Sample.log_path Sample.w0)
     = Return 0.
Proof. vm_compute. repeat split; reflexivity. Qed.

(** ** The file system *)

Lemma strip_prefix_Some (pre l r : list string) :
  PurePath.strip_prefix pre l = Some r -> l = pre ++ r.
Proof.
  revert l. induction pre as [| x pre IH]; intros l; simpl.
  - now intros [= ->].
  - destruct l as [| y l]; [discriminate |].
    destruct (String.eqb_spec x y) as [-> |]; [| discriminate].
    intros H. now rewrite (IH _ H).
Qed.

Lemma strip_prefix_None_ne (pre l rel : list string) :
  PurePath.strip_prefix pre l = None -> pre ++ rel <> l.
Proof. intros H <-. now rewrite strip_prefix_app in H. Qed.

Lemma elem_of_files_below (f : gmap key node) (k rel : key) :
  rel ∈ files_below f k <-> rel <> [] /\ is_file f (k ++ rel) = true.
Proof.
  unfold files_below, is_file. rewrite list_elem_of_omap. split.
  - intros [[p n] [Hin Hsome]]. apply elem_of_map_to_list in Hin.
    destruct n as [| d m]; [discriminate |].
    destruct (PurePath.strip_prefix k p) as [[| c r] |] eqn:Hs; try discriminate.
    injection Hsome as <-. apply strip_prefix_Some in Hs as ->.
    rewrite Hin. split; [discriminate | reflexivity].
  - intros [Hne Hfile]. destruct (f !! (k ++ rel)) as [[| d m] |] eqn:Hl; try discriminate.
    exists (k ++ rel, File d m). split; [now apply elem_of_map_to_list |].
    rewrite strip_prefix_app. now destruct rel.
Qed.

Lemma elem_of_files_under (f : gmap key node) (k rel : key) :
  rel ∈ files_under f k <-> is_dir f k = true /\ rel <> [] /\ is_file f (k ++ rel) = true.
Proof.
  unfold files_under, is_dir. rewrite <- elem_of_files_below.
  destruct (node_at f k) as [[| d m] |]; split; try tauto;
    try (intros H; now apply not_elem_of_nil in H); intros [? _]; discriminate.
Qed.

Lemma node_at_cons (f : gmap key node) (c : string) (k : key) :
  node_at f (c :: k) = f !! (c :: k).
Proof. reflexivity. Qed.

Lemma node_at_nonempty (f : gmap key node) (k : key) :
  k <> [] -> node_at f k = f !! k.
Proof. now destruct k. Qed.

Lemma is_file_nonempty (f : gmap key node) (k : key) : is_file f k = true -> f !! k <> None.
Proof. unfold is_file. now destruct (f !! k). Qed.

(** What [create_file] does when the directory is there and the name is
    free or names a file. *)
Lemma create_file_spec (k : key) (content : data) (w : world) :
  is_dir (fs w) k = false ->
  check_dirs (fs w) [] (removelast k) = None ->
  create_file k content w
  = (Return tt,
     mk_world (<[k := File content (clock w (ticks w))]> (fs w)) (cwd w) (clock w)
              (S (ticks w)) (stdout w) (calls w)).
Proof.
  intros Hdir Hcheck. unfold create_file, bind, get_fs, is_dir in *.
  destruct (node_at (fs w) k) as [[| d m] |]; try discriminate; now rewrite Hcheck.
Qed.

(** What appending a row does when the log is in place. *)
Lemma append_log_spec (lp : PurePath.t) (op src dst : string) (kl : key)
    (entries : list log_entry) (m : Z) (w : world) :
  resolve_key (cwd w) lp = Some kl ->
  kl <> [] ->
  fs w !! kl = Some (File (Log entries) m) ->
  append_log lp op src dst w
  = (Return tt,
     mk_world (<[kl := File (Log (entries ++ [mk_entry (clock w (ticks w)) op src dst]))
                            (clock w (S (ticks w)))]> (fs w))
              (cwd w) (clock w) (S (S (ticks w))) (stdout w) (calls w ++ [CallOpen lp "a"])).
Proof.
  intros Hk Hne Hlog. unfold append_log, bind, record_call, resolve, get_fs.
  cbn [cwd fs]. rewrite Hk, (node_at_nonempty _ _ Hne). cbn [fs]. rewrite Hlog. reflexivity.
Qed.

(** A row is appended to the log, when the run keeps one: the action
    returns, and only the log changes. *)
Lemma log_if_append_spec (log_path : option PurePath.t) (op src dst : string) (w : world) :
  log_ready (fs w) (cwd w) log_path = true ->
  exists w',
    log_if log_path (fun lp => append_log lp op src dst) w = (Return tt, w')
    /\ cwd w' = cwd w
    /\ log_ready (fs w') (cwd w') log_path = true
    /\ (forall k, log_key (cwd w) log_path <> Some k -> fs w' !! k = fs w !! k)
    /\ (forall k, is_file (fs w) k = true -> is_file (fs w') k = true).
Proof.
  unfold log_ready, log_key, log_if. destruct log_path as [lp |].
  - destruct (resolve_key (cwd w) lp) as [[| c kl] |] eqn:Hk; try discriminate.
    destruct (fs w !! (c :: kl)) as [[| [| entries | |] m] |] eqn:Hlog; try discriminate.
    intros _. eexists. split; [now apply (append_log_spec lp op src dst (c :: kl) entries m) |].
    cbn [cwd fs]. rewrite Hk. split; [reflexivity |]. split; [now rewrite lookup_insert_eq |].
    split.
    + intros k Hne. apply lookup_insert_ne. congruence.
    + intros k Hfile. unfold is_file in *.
      destruct (decide (c :: kl = k)) as [<- | Hne];
        [now rewrite lookup_insert_eq | now rewrite lookup_insert_ne].
  - intros _. exists w. repeat split; auto.
Qed.

(** *** The plain archive writer *)

Lemma zip_write_spec (zip_path file arcname : PurePath.t) (kz kf : key)
    (content : data) (mf : Z) (members : list (string * data)) (t : Z) (w : world) :
  resolve_key (cwd w) zip_path = Some kz ->
  resolve_key (cwd w) file = Some kf ->
  kz <> kf -> kz <> [] -> kf <> [] ->
  fs w !! kf = Some (File content mf) ->
  fs w !! kz = Some (File (Zip members) t) ->
  zip_write zip_path file arcname w
  = (Return tt,
     mk_world (<[kz := File (Zip (members ++ [(PurePath.to_string arcname, content)]))
                            (clock w (ticks w))]> (fs w))
              (cwd w) (clock w) (S (ticks w)) (stdout w)
              (calls w ++ [CallZipWrite file arcname])).
Proof.
  intros Hkz Hkf Hne Hz Hf Hfile Hzip.
  unfold zip_write, bind, record_call, resolve, get_fs.
  cbn [cwd fs]. rewrite Hkz. cbn [cwd]. rewrite Hkf. cbn [fs].
  rewrite (decide_False _ _ Hne), (node_at_nonempty _ _ Hz), (node_at_nonempty _ _ Hf).
  rewrite Hfile, Hzip. reflexivity.
Qed.

Lemma when_print_spec (b : bool) (line : string) (w : world) :
  exists w', when b (print line) w = (Return tt, w')
             /\ fs w' = fs w /\ cwd w' = cwd w.
Proof. destruct b; eexists; repeat split. Qed.

Section PlainLoop.

Variables (temp_dir zip_path : PurePath.t) (verbose : bool) (log_path : option PurePath.t).
Variables (kt kz : key).

(** One file is added to the archive open at [kz]. *)
Lemma zip_add_spec (rel : list string) (content : data) (mf : Z)
    (members : list (string * data)) (t : Z) (w : world) :
  resolve_key (cwd w) temp_dir = Some kt ->
  resolve_key (cwd w) zip_path = Some kz ->
  kz <> [] ->
  fs w !! kz = Some (File (Zip members) t) ->
  log_ready (fs w) (cwd w) log_path = true ->
  log_key (cwd w) log_path <> Some kz ->
  rel <> [] ->
  no_dotdot rel = true ->
  kt ++ rel <> kz ->
  fs w !! (kt ++ rel) = Some (File content mf) ->
  exists w' t',
    zip_add temp_dir verbose log_path zip_path (PurePath.extend temp_dir rel) w = (Return tt, w')
    /\ cwd w' = cwd w
    /\ fs w' !! kz
       = Some (File (Zip (members ++ [(PurePath.to_string (PurePath.mk PurePath.Relative rel),
                                       content)])) t')
    /\ log_ready (fs w') (cwd w') log_path = true
    /\ (forall k, k <> kz -> log_key (cwd w) log_path <> Some k -> fs w' !! k = fs w !! k)
    /\ (forall k, is_file (fs w) k = true -> is_file (fs w') k = true).
Proof.
  intros Hkt Hkz Hz Hzip Hlog Hlz Hrel Hdd Hne Hfile.
  unfold zip_add. unfold relative_to at 1. rewrite relative_to_extend.
  rewrite (bind_return _ _ w w (PurePath.mk PurePath.Relative rel)) by reflexivity.
  assert (Hkf : resolve_key (cwd w) (PurePath.extend temp_dir rel) = Some (kt ++ rel))
    by now apply resolve_key_extend.
  assert (Hfne : kt ++ rel <> []) by (destruct kt, rel; [contradiction | discriminate..]).
  rewrite (bind_return _ _ _ _ _
             (zip_write_spec zip_path _ (PurePath.mk PurePath.Relative rel) kz (kt ++ rel)
                content mf members t w Hkz Hkf (not_eq_sym Hne) Hz Hfne Hfile Hzip)).
  set (w1 := mk_world _ _ _ _ _ _).
  assert (Hlog1 : log_ready (fs w1) (cwd w1) log_path = true).
  { revert Hlog Hlz. unfold log_ready, log_key, w1. cbn [fs cwd].
    destruct log_path as [lp |]; [| reflexivity].
    destruct (resolve_key (cwd w) lp) as [[| c kl] |]; try discriminate.
    intros Hlog Hlz. rewrite lookup_insert_ne by congruence. exact Hlog. }
  destruct (log_if_append_spec log_path "zip"
              (PurePath.to_string (PurePath.extend temp_dir rel))
              (PurePath.to_string (PurePath.mk PurePath.Relative rel)) w1 Hlog1)
    as (w2 & E2 & Hcwd2 & Hlog2 & Hframe2 & Hfile2).
  rewrite (bind_return _ _ _ _ _ E2).
  destruct (when_print_spec verbose
              ("Added to zip: " +:+ PurePath.to_string (PurePath.mk PurePath.Relative rel)) w2)
    as (w3 & E3 & Hfs3 & Hcwd3).
  exists w3, (clock w (ticks w)). split; [exact E3 |].
  rewrite Hfs3, Hcwd3, Hcwd2. split; [reflexivity |]. split.
  { rewrite Hframe2 by exact Hlz. apply lookup_insert_eq. }
  split; [now rewrite <- Hcwd2 |]. split.
  - intros k Hk Hl. rewrite Hframe2 by exact Hl. now apply lookup_insert_ne.
  - intros k Hk. apply Hfile2. unfold w1, is_file in *. cbn [fs].
    destruct (decide (kz = k)) as [<- | Hn];
      [now rewrite lookup_insert_eq | now rewrite lookup_insert_ne].
Qed.

End PlainLoop.

Section PlainArchive.

Variables (temp_dir zip_path : PurePath.t) (verbose : bool) (log_path : option PurePath.t).
Variables (kt kz : key).

Lemma zip_plain_loop (rels : list (list string)) :
  forall (w : world) (members : list (string * data)) (t : Z),
    resolve_key (cwd w) temp_dir = Some kt ->
    resolve_key (cwd w) zip_path = Some kz ->
    kz <> [] ->
    fs w !! kz = Some (File (Zip members) t) ->
    log_ready (fs w) (cwd w) log_path = true ->
    log_key (cwd w) log_path <> Some kz ->
    Forall (fun rel => rel <> [] /\ no_dotdot rel = true /\ kt ++ rel <> kz
                       /\ is_file (fs w) (kt ++ rel) = true) rels ->
    exists w' members' t',
      for_each (zip_add temp_dir verbose log_path zip_path) (PurePath.extend temp_dir <$> rels) w
      = (Return tt, w')
      /\ cwd w' = cwd w
      /\ fs w' !! kz = Some (File (Zip (members ++ members')) t')
      /\ Forall2 (stored_from kt kz (log_key (cwd w) log_path) (fs w)) rels members'
      /\ (forall k, k <> kz -> log_key (cwd w) log_path <> Some k -> fs w' !! k = fs w !! k).
Proof.
  induction rels as [| rel rels IH]; intros w members t Hkt Hkz Hz Hzip Hlog Hlz Hall.
  - exists w, [], t. rewrite app_nil_r. repeat split; auto.
  - apply Forall_cons in Hall as [(Hrel & Hdd & Hne & Hfile) Hall].
    unfold is_file in Hfile.
    destruct (fs w !! (kt ++ rel)) as [[| content mf] |] eqn:Hl; try discriminate.
    destruct (zip_add_spec temp_dir zip_path verbose log_path kt kz rel content mf members t w
                Hkt Hkz Hz Hzip Hlog Hlz Hrel Hdd Hne Hl)
      as (w1 & t1 & E1 & Hcwd1 & Hzip1 & Hlog1 & Hframe1 & Hfile1).
    destruct (IH w1 (members ++ [(PurePath.to_string (PurePath.mk PurePath.Relative rel),
                                   content)]) t1)
      as (w' & members' & t' & E & Hcwd & Hzip' & Hstored & Hframe);
      try (rewrite Hcwd1; assumption); try assumption.
    { eapply Forall_impl; [exact Hall |]. intros r (? & ? & ? & ?). auto. }
    exists w', ((PurePath.to_string (PurePath.mk PurePath.Relative rel), content) :: members'), t'.
    cbn [fmap list_fmap]. rewrite for_each_cons, E1, E. split; [reflexivity |].
    split; [congruence |]. split; [now rewrite <- app_assoc in Hzip' |]. split.
    + constructor.
      * split; [reflexivity |]. intros _ _. now exists mf.
      * eapply Forall2_impl; [exact Hstored |]. intros r e [Hname Hcontent].
        split; [exact Hname |]. intros Hrz Hrl. rewrite Hcwd1 in Hcontent.
        destruct (Hcontent Hrz Hrl) as [m Hm]. exists m.
        now rewrite <- (Hframe1 _ Hrz Hrl).
    + intros k Hk Hkl. rewrite Hcwd1 in Hframe. rewrite (Hframe k Hk Hkl). now apply Hframe1.
Qed.

End PlainArchive.

Lemma log_ready_insert (f : gmap key node) (cwd : key) (log_path : option PurePath.t)
    (k : key) (n : node) :
  log_ready f cwd log_path = true ->
  log_key cwd log_path <> Some k ->
  log_ready (<[k := n]> f) cwd log_path = true.
Proof.
  unfold log_ready, log_key. destruct log_path as [lp |]; [| reflexivity].
  destruct (resolve_key cwd lp) as [[| c kl] |]; try discriminate.
  intros Hlog Hne. rewrite lookup_insert_ne by congruence. exact Hlog.
Qed.

Lemma is_dir_false_nonempty (f : gmap key node) (k : key) : is_dir f k = false -> k <> [].
Proof. now destruct k. Qed.

Lemma zip_open_spec (zip_path : PurePath.t) (kz : key) (w : world) :
  resolve_key (cwd w) zip_path = Some kz ->
  is_dir (fs w) kz = false ->
  check_dirs (fs w) [] (removelast kz) = None ->
  zip_open zip_path w
  = (Return tt,
     mk_world (<[kz := File (Zip []) (clock w (ticks w))]> (fs w)) (cwd w) (clock w)
              (S (ticks w)) (stdout w) (calls w ++ [CallZipFile zip_path "w" "ZIP_DEFLATED"])).
Proof.
  intros Hkz Hdir Hcheck. unfold zip_open, bind, record_call, resolve.
  cbn [cwd]. rewrite Hkz.
  now rewrite create_file_spec by assumption.
Qed.

(** The plain branch on a world where the archive can be created outside the
    staging directory: every regular file below the staging directory is
    stored under its relative path. *)
Lemma zip_plain_spec (temp_dir zip_path : PurePath.t) (verbose : bool)
    (log_path : option PurePath.t) (kt kz : key) (w : world) :
  resolve_key (cwd w) temp_dir = Some kt ->
  resolve_key (cwd w) zip_path = Some kz ->
  is_dir (fs w) kz = false ->
  check_dirs (fs w) [] (removelast kz) = None ->
  PurePath.strip_prefix kt kz = None ->
  log_ready (fs w) (cwd w) log_path = true ->
  log_key (cwd w) log_path <> Some kz ->
  forallb no_dotdot (files_below (fs w) kt) = true ->
  exists w' rels members t,
    zip_plain temp_dir verbose log_path zip_path w = (Return tt, w')
    /\ fs w' !! kz = Some (File (Zip members) t)
    /\ (forall rel, rel ∈ rels <-> rel ∈ files_under (fs w) kt)
    /\ Forall2 (stored_from kt kz (log_key (cwd w) log_path) (fs w)) rels members
    /\ (forall k, k <> kz -> log_key (cwd w) log_path <> Some k -> fs w' !! k = fs w !! k).
Proof.
  intros Hkt Hkz Hdir Hcheck Hout Hlog Hlz Hdd.
  pose proof (is_dir_false_nonempty _ _ Hdir) as Hz.
  unfold zip_plain.
  rewrite (bind_return _ _ _ _ _ (zip_open_spec zip_path kz w Hkz Hdir Hcheck)).
  set (w1 := mk_world _ _ _ _ _ _).
  rewrite (bind_return _ _ _ _ _ (rglob_files_spec temp_dir kt w1 Hkt)).
  set (rels := files_under (fs w1) kt).
  assert (Hrels : forall rel, rel ∈ rels <-> rel ∈ files_under (fs w) kt).
  { intros rel. unfold rels. rewrite !elem_of_files_under. unfold w1. cbn [fs].
    assert (Hne : kz <> kt ++ rel) by (apply not_eq_sym; now apply strip_prefix_None_ne).
    assert (Hnt : kz <> kt).
    { intros ->. specialize (strip_prefix_app kt []). rewrite app_nil_r. congruence. }
    unfold is_dir, is_file. destruct kt as [| c kt'].
    - cbn [node_at]. now rewrite lookup_insert_ne.
    - rewrite !node_at_cons. now rewrite !lookup_insert_ne. }
  destruct (zip_plain_loop temp_dir zip_path verbose log_path kt kz rels
              (add_calls [CallRglob temp_dir] w1) [] (clock w (ticks w)))
    as (w' & members & t' & E & Hcwd & Hzip & Hstored & Hframe); try assumption.
  { cbn [fs add_calls w1]. apply lookup_insert_eq. }
  { cbn [fs cwd add_calls w1]. now apply log_ready_insert. }
  { apply Forall_forall. intros rel Hin. pose proof Hin as Hin'.
    apply Hrels, elem_of_files_under in Hin' as (_ & Hne & Hfile).
    apply elem_of_files_under in Hin as (_ & _ & Hfile1).
    split; [exact Hne |]. split; [| split; [now apply strip_prefix_None_ne | exact Hfile1]].
    rewrite forallb_forall in Hdd. apply Hdd, list_elem_of_In, elem_of_files_below. auto. }
  exists w', rels, members, t'. split; [exact E |]. split; [exact Hzip |].
  split; [exact Hrels |]. split.
  - eapply Forall2_impl; [exact Hstored |]. intros rel e [Hname Hcontent].
    split; [exact Hname |]. intros Hrz Hrl. destruct (Hcontent Hrz Hrl) as [m Hm].
    exists m. cbn [fs add_calls w1] in Hm. now rewrite lookup_insert_ne in Hm by congruence.
  - intros k Hk Hkl. rewrite (Hframe k Hk Hkl). cbn [fs add_calls w1].
    now apply lookup_insert_ne.
Qed.

(** *** The dispatch *)

Lemma truthy_nonempty_string (s : string) : s <> EmptyString -> truthy (TStr s) = true.
Proof. intros H. cbn. now destruct (String.eqb_spec s EmptyString). Qed.

Lemma write_zip_encrypted_calls (temp_dir : PurePath.t) (temp_dir_name : string)
    (verbose : bool) (log_path : option PurePath.t) (zip_file_name : string)
    (zip_path : PurePath.t) (zip_output_enabled : toml) (password : string) :
  truthy zip_output_enabled = true ->
  password <> EmptyString ->
  calls_only (fun c => is_plain_call c = false)
    (write_zip temp_dir temp_dir_name verbose log_path zip_file_name zip_path
       zip_output_enabled (Some (TStr password))).
Proof.
  intros Hon Hpw. unfold write_zip. rewrite Hon.
  cbn [truthy_opt]. rewrite (truthy_nonempty_string _ Hpw).
  apply calls_only_bind; [apply zip_encrypted_no_plain_call |].
  intros _. calls_only_tac.
Qed.

Lemma write_zip_plain_calls (temp_dir : PurePath.t) (temp_dir_name : string)
    (verbose : bool) (log_path : option PurePath.t) (zip_file_name : string)
    (zip_path : PurePath.t) (zip_output_enabled : toml) :
  truthy zip_output_enabled = true ->
  calls_only (fun c => is_encrypted_call c = false)
    (write_zip temp_dir temp_dir_name verbose log_path zip_file_name zip_path
       zip_output_enabled None).
Proof.
  intros Hon. unfold write_zip. rewrite Hon. cbn [truthy_opt].
  apply calls_only_bind; [apply zip_plain_no_encrypted_call |].
  intros _. calls_only_tac.
Qed.

(** With files to archive, the encrypted branch lists the staging directory
    twice and hands the lists to [pyminizip]. *)
Lemma write_zip_encrypted_compress (temp_dir : PurePath.t) (temp_dir_name : string)
    (verbose : bool) (log_path : option PurePath.t) (zip_file_name : string)
    (zip_path : PurePath.t) (zip_output_enabled : toml) (password : string)
    (kt : key) (w : world) :
  truthy zip_output_enabled = true ->
  password <> EmptyString ->
  resolve_key (cwd w) temp_dir = Some kt ->
  files_under (fs w) kt <> [] ->
  let rels := files_under (fs w) kt in
  exists l,
    calls (snd (write_zip temp_dir temp_dir_name verbose log_path zip_file_name zip_path
                  zip_output_enabled (Some (TStr password)) w))
    = calls w
      ++ [CallRglob temp_dir; CallRglob temp_dir;
          CallCompressMultiple
            (PurePath.to_string <$> (PurePath.extend temp_dir <$> rels))
            (PurePath.to_string <$> (PurePath.mk PurePath.Relative <$> rels))
            (PurePath.to_string zip_path) password 5]
      ++ l
    /\ Forall (fun c => is_plain_call c = false) l.
Proof.
  intros Hon Hpw Hkt Hfiles. cbv zeta. unfold write_zip. rewrite Hon.
  cbn [truthy_opt]. rewrite (truthy_nonempty_string _ Hpw).
  pose proof (zip_encrypted_spec temp_dir verbose log_path zip_path password kt w Hkt) as Hz.
  cbv zeta in Hz.
  destruct (files_under (fs w) kt) as [| rel rels] eqn:Hrels; [contradiction |].
  rewrite (bind_eq _ _ _ _ _ Hz). clear Hz.
  unfold compress_multiple. rewrite !bind_assoc.
  match goal with
  | |- context [ bind (record_call ?c0) ?k _ ] =>
      destruct (calls_after_record (fun x => is_plain_call x = false) c0 k) with
        (w := add_calls [CallRglob temp_dir; CallRglob temp_dir] w) as (l & El & Fl)
  end.
  { calls_only_tac;
      first [ reflexivity
            | apply calls_only_read_files
            | apply calls_only_create_file
            | apply calls_only_append_log; reflexivity ]. }
  exists l. split; [| exact Fl].
  rewrite El. cbn [calls add_calls]. now rewrite <- !app_assoc.
Qed.

(** The plain branch opens the archive with [zipfile] first. *)
Lemma write_zip_plain_opens (temp_dir : PurePath.t) (temp_dir_name : string)
    (verbose : bool) (log_path : option PurePath.t) (zip_file_name : string)
    (zip_path : PurePath.t) (zip_output_enabled : toml) (w : world) :
  truthy zip_output_enabled = true ->
  exists l,
    calls (snd (write_zip temp_dir temp_dir_name verbose log_path zip_file_name zip_path
                  zip_output_enabled None w))
    = calls w ++ CallZipFile zip_path "w" "ZIP_DEFLATED" :: l
    /\ Forall (fun c => is_encrypted_call c = false) l.
Proof.
  intros Hon. unfold write_zip. rewrite Hon. cbn [truthy_opt].
  unfold zip_plain, zip_open. rewrite !bind_assoc.
  apply calls_after_record. unfold zip_add, rglob_files, zip_write.
  calls_only_tac;
    first [ reflexivity
          | apply calls_only_relative_to
          | apply calls_only_create_file
          | apply calls_only_append_log; reflexivity ].
Qed.

(** The plain branch where the archive can be created outside the staging
    directory: the archive phase returns and the archive holds the files. *)
Lemma write_zip_plain_spec (temp_dir : PurePath.t) (temp_dir_name : string)
    (verbose : bool) (log_path : option PurePath.t) (zip_file_name : string)
    (zip_path : PurePath.t) (zip_output_enabled : toml) (kt kz : key) (w : world) :
  truthy zip_output_enabled = true ->
  resolve_key (cwd w) temp_dir = Some kt ->
  resolve_key (cwd w) zip_path = Some kz ->
  is_dir (fs w) kz = false ->
  check_dirs (fs w) [] (removelast kz) = None ->
  PurePath.strip_prefix kt kz = None ->
  log_ready (fs w) (cwd w) log_path = true ->
  log_key (cwd w) log_path <> Some kz ->
  forallb no_dotdot (files_below (fs w) kt) = true ->
  let r := write_zip temp_dir temp_dir_name verbose log_path zip_file_name zip_path
             zip_output_enabled None w in
  fst r = Return tt
  /\ exists rels members t,
       fs (snd r) !! kz = Some (File (Zip members) t)
       /\ (forall rel, rel ∈ rels <-> rel ∈ files_under (fs w) kt)
       /\ Forall2 (stored_from kt kz (log_key (cwd w) log_path) (fs w)) rels members.
Proof.
  intros Hon Hkt Hkz Hdir Hcheck Hout Hlog Hlz Hdd. cbv zeta.
  destruct (zip_plain_spec temp_dir zip_path verbose log_path kt kz w
              Hkt Hkz Hdir Hcheck Hout Hlog Hlz Hdd)
    as (w' & rels & members & t & E & Hzip & Hrels & Hstored & _).
  unfold write_zip. rewrite Hon. cbn [truthy_opt].
  rewrite (bind_return _ _ _ _ _ E).
  assert (Hfs : forall m, (fst (m w') = Return tt /\ fs (snd (m w')) = fs w') ->
                fst (m w') = Return tt
                /\ exists rels members t,
                     fs (snd (m w')) !! kz = Some (File (Zip members) t)
                     /\ (forall rel, rel ∈ rels <-> rel ∈ files_under (fs w) kt)
                     /\ Forall2 (stored_from kt kz (log_key (cwd w) log_path) (fs w))
                          rels members).
  { intros m [Hr Hf]. split; [exact Hr |]. exists rels, members, t. now rewrite Hf. }
  apply Hfs. destruct verbose; split; reflexivity.
Qed.

(** C5: with archiving enabled the password alone selects the writer.  A
    non-empty password: no call of the plain writer is made, whatever
    happens; and when the staging directory holds regular files, it is
    listed twice and [pyminizip.compress_multiple] is called with the files,
    their paths relative to the staging directory, the archive path, that
    password and level 5.  No password: the first call opens the archive
    with [zipfile], no call of the encrypting writer follows; and where the
    archive can be created outside the staging directory the phase returns
    with an archive holding one member per regular file below the staging
    directory, named by the file's path relative to it. *)
Theorem archive_strategy_dispatch :
  forall (temp_dir : PurePath.t) (temp_dir_name : string) (verbose : bool)
         (log_path : option PurePath.t) (zip_file_name : string) (zip_path : PurePath.t)
         (zip_output_enabled : toml) (w : world),
    truthy zip_output_enabled = true ->
    let run := fun zip_password =>
      write_zip temp_dir temp_dir_name verbose log_path zip_file_name zip_path
        zip_output_enabled zip_password w in
    (forall password : string,
        password <> EmptyString ->
        (exists l, calls (snd (run (Some (TStr password)))) = calls w ++ l
                   /\ Forall (fun c => is_plain_call c = false) l)
        /\ (forall kt : key,
              resolve_key (cwd w) temp_dir = Some kt ->
              files_under (fs w) kt <> [] ->
              exists l,
                calls (snd (run (Some (TStr password))))
                = calls w
                  ++ [CallRglob temp_dir; CallRglob temp_dir;
                      CallCompressMultiple
                        (PurePath.to_string <$> (PurePath.extend temp_dir <$> files_under (fs w) kt))
                        (PurePath.to_string <$> (PurePath.mk PurePath.Relative
                                                   <$> files_under (fs w) kt))
                        (PurePath.to_string zip_path) password 5]
                  ++ l
                /\ Forall (fun c => is_plain_call c = false) l))
    /\ (exists l, calls (snd (run None)) = calls w ++ CallZipFile zip_path "w" "ZIP_DEFLATED" :: l
                  /\ Forall (fun c => is_encrypted_call c = false) l)
    /\ (forall kt kz : key,
          resolve_key (cwd w) temp_dir = Some kt ->
          resolve_key (cwd w) zip_path = Some kz ->
          is_dir (fs w) kz = false ->
          check_dirs (fs w) [] (removelast kz) = None ->
          PurePath.strip_prefix kt kz = None ->
          log_ready (fs w) (cwd w) log_path = true ->
          log_key (cwd w) log_path <> Some kz ->
          forallb no_dotdot (files_below (fs w) kt) = true ->
          fst (run None) = Return tt
          /\ exists rels members t,
               fs (snd (run None)) !! kz = Some (File (Zip members) t)
               /\ (forall rel, rel ∈ rels <-> rel ∈ files_under (fs w) kt)
               /\ Forall2 (stored_from kt kz (log_key (cwd w) log_path) (fs w)) rels members).
Proof.
  intros temp_dir temp_dir_name verbose log_path zip_file_name zip_path zip_output_enabled w
         Hon run. unfold run. split; [| split].
  - intros password Hpw. split.
    + apply (write_zip_encrypted_calls temp_dir temp_dir_name verbose log_path zip_file_name
               zip_path zip_output_enabled password Hon Hpw w).
    + intros kt Hkt Hfiles. now apply write_zip_encrypted_compress.
  - now apply write_zip_plain_opens.
  - intros kt kz. now apply write_zip_plain_spec.
Qed.

Lemma archive_strategy_witness :
  let run := fun zip_password =>
    write_zip Sample.temp_dir "sample" true (Some Sample.log_path) "sample.zip" Sample.zip_path
      (TBool true) zip_password Sample.w_staged in
  (exists l,
      calls (snd (run (Some (TStr "secret"))))
      = calls Sample.w_staged
        ++ [CallRglob Sample.temp_dir; CallRglob Sample.temp_dir;
            CallCompressMultiple
              (PurePath.to_string <$> (PurePath.extend Sample.temp_dir
                                         <$> files_under (fs Sample.w_staged) ["tmp"; "sample"]))
              (PurePath.to_string <$> (PurePath.mk PurePath.Relative
                                         <$> files_under (fs Sample.w_staged) ["tmp"; "sample"]))
              (PurePath.to_string Sample.zip_path) "secret" 5]
        ++ l
      /\ Forall (fun c => is_plain_call c = false) l)
  /\ fst (run None) = Return tt
  /\ exists rels members t,
       fs (snd (run None)) !! ["tmp"; "sample.zip"] = Some (File (Zip members) t)
       /\ (forall rel, rel ∈ rels <-> rel ∈ files_under (fs Sample.w_staged) ["tmp"; "sample"])
       /\ Forall2 (stored_from ["tmp"; "sample"] ["tmp"; "sample.zip"]
                     (log_key (cwd Sample.w_staged) (Some Sample.log_path))
                     (fs Sample.w_staged)) rels members.
Proof.
  destruct (archive_strategy_dispatch Sample.temp_dir "sample" true (Some Sample.log_path)
              "sample.zip" Sample.zip_path (TBool true) Sample.w_staged eq_refl)
    as (Hencrypted & _ & Hplain).
  split.
  - destruct (Hencrypted "secret") as [_ Hcompress]; [discriminate |].
    apply (Hcompress ["tmp"; "sample"]); [reflexivity |].
    vm_compute. discriminate.
  - apply (Hplain ["tmp"; "sample"] ["tmp"; "sample.zip"]);
      first [ reflexivity | vm_compute; reflexivity | vm_compute; discriminate ].
Defined.

(** ** Staging *)

(** *** Directories on the way to a destination *)

Lemma split_cons_prefix (c : string) (rest r1 r2 : key) :
  c :: rest = r1 ++ r2 -> r1 <> [] -> exists r1', r1 = c :: r1' /\ rest = r1' ++ r2.
Proof.
  destruct r1 as [| c' r1']; [contradiction |].
  intros [= <- ->] _. now exists r1'.
Qed.

Lemma snoc_app_assoc (pre : key) (c : string) (r : key) : (pre ++ [c]) ++ r = pre ++ c :: r.
Proof. now rewrite <- app_assoc. Qed.

Lemma no_file_on_spec (f : gmap key node) (rest : key) :
  forall pre,
    no_file_on f pre rest = true
    <-> (forall r1 r2, rest = r1 ++ r2 -> r1 <> [] -> is_file f (pre ++ r1) = false).
Proof.
  induction rest as [| c rest IH]; intros pre; cbn [no_file_on].
  - split; [| reflexivity]. intros _ r1 r2 H Hne.
    symmetry in H. apply app_eq_nil in H as [-> _]. contradiction.
  - split.
    + intros H r1 r2 Hsplit Hne.
      destruct (split_cons_prefix _ _ _ _ Hsplit Hne) as (r1' & -> & ->).
      destruct r1' as [| c' r1'].
      * unfold is_file. destruct (f !! (pre ++ [c])) as [[| d m] |]; [reflexivity | discriminate | reflexivity].
      * rewrite <- snoc_app_assoc.
        assert (H' : no_file_on f (pre ++ [c]) ((c' :: r1') ++ r2) = true)
          by (destruct (f !! (pre ++ [c])) as [[| d m] |]; [exact H | discriminate | exact H]).
        apply (proj1 (IH _) H' (c' :: r1') r2); [reflexivity | discriminate].
    + intros H.
      assert (Hc : is_file f (pre ++ [c]) = false) by (apply (H [c] rest); [reflexivity | discriminate]).
      unfold is_file in Hc.
      assert (Hrest : no_file_on f (pre ++ [c]) rest = true).
      { apply IH. intros r1 r2 -> Hne. rewrite snoc_app_assoc.
        apply (H (c :: r1) r2); [reflexivity | discriminate]. }
      destruct (f !! (pre ++ [c])) as [[| d m] |]; [exact Hrest | discriminate | exact Hrest].
Qed.

Lemma check_dirs_dirs (f : gmap key node) (rest : key) :
  forall pre,
    check_dirs f pre rest = None ->
    forall r1 r2, rest = r1 ++ r2 -> r1 <> [] -> f !! (pre ++ r1) = Some Dir.
Proof.
  induction rest as [| c rest IH]; intros pre Hcheck r1 r2 Hsplit Hne.
  - symmetry in Hsplit. apply app_eq_nil in Hsplit as [-> _]. contradiction.
  - destruct (split_cons_prefix _ _ _ _ Hsplit Hne) as (r1' & -> & ->).
    cbn [check_dirs] in Hcheck.
    destruct (f !! (pre ++ [c])) as [[| d m] |] eqn:Hl; try discriminate.
    destruct r1' as [| c' r1']; [exact Hl |].
    rewrite <- snoc_app_assoc. apply (IH _ Hcheck (c' :: r1') r2); [reflexivity | discriminate].
Qed.

Lemma check_dirs_intro (f : gmap key node) (rest : key) :
  forall pre,
    (forall r1 r2, rest = r1 ++ r2 -> r1 <> [] -> f !! (pre ++ r1) = Some Dir) ->
    check_dirs f pre rest = None.
Proof.
  induction rest as [| c rest IH]; intros pre H; [reflexivity |].
  cbn [check_dirs]. rewrite (H [c] rest) by (reflexivity || discriminate).
  apply IH. intros r1 r2 -> Hne. rewrite snoc_app_assoc.
  apply (H (c :: r1) r2); [reflexivity | discriminate].
Qed.

(** Directories that stay let a walk through them succeed as before. *)
Lemma check_dirs_keep (f f' : gmap key node) (k : key) :
  check_dirs f [] k = None ->
  (forall k', f !! k' = Some Dir -> f' !! k' = Some Dir) ->
  check_dirs f' [] k = None.
Proof.
  intros Hcheck Hkeep. apply check_dirs_intro. intros r1 r2 Hsplit Hne.
  apply Hkeep. exact (check_dirs_dirs f k [] Hcheck r1 r2 Hsplit Hne).
Qed.

(** Creating the missing directories succeeds when no file is in the way:
    nodes that exist are kept, and the only new nodes are directories on the
    way. *)
Lemma mkdirs_spec (rest : key) :
  forall (f : gmap key node) (pre : key),
    no_file_on f pre rest = true ->
    exists f',
      mkdirs f pre rest = inr f'
      /\ check_dirs f' pre rest = None
      /\ (forall k, f !! k <> None -> f' !! k = f !! k)
      /\ (forall k, f !! k = None ->
            f' !! k = None
            \/ (f' !! k = Some Dir /\ exists r1 r2, rest = r1 ++ r2 /\ r1 <> [] /\ k = pre ++ r1)).
Proof.
  induction rest as [| c rest IH]; intros f pre Hfree; cbn [mkdirs check_dirs no_file_on] in *.
  - exists f. repeat split; auto.
  - destruct (f !! (pre ++ [c])) as [[| d m] |] eqn:Hl; [| discriminate |].
    + destruct (IH f _ Hfree) as (f' & E & Hcheck & Hkeep & Hnew).
      exists f'. split; [exact E |]. split.
      { rewrite Hkeep by congruence. now rewrite Hl. }
      split; [exact Hkeep |].
      intros k Hk. destruct (Hnew k Hk) as [Hn | (Hd & r1 & r2 & -> & Hne & ->)]; [now left |].
      right. split; [exact Hd |]. exists (c :: r1), r2.
      split; [reflexivity |]. split; [discriminate | apply snoc_app_assoc].
    + assert (Hfree' : no_file_on (<[pre ++ [c] := Dir]> f) (pre ++ [c]) rest = true).
      { apply no_file_on_spec. intros r1 r2 Hsplit Hne.
        pose proof (proj1 (no_file_on_spec f rest (pre ++ [c])) Hfree r1 r2 Hsplit Hne) as Hf.
        unfold is_file in *.
        destruct (decide (pre ++ [c] = (pre ++ [c]) ++ r1)) as [<- | Hd];
          [now rewrite lookup_insert_eq | now rewrite lookup_insert_ne]. }
      destruct (IH _ _ Hfree') as (f' & E & Hcheck & Hkeep & Hnew).
      exists f'. split; [exact E |]. split.
      { rewrite Hkeep by (rewrite lookup_insert_eq; discriminate).
        now rewrite lookup_insert_eq. }
      split.
      { intros k Hk. rewrite Hkeep.
        - apply lookup_insert_ne. congruence.
        - rewrite lookup_insert_ne by congruence. exact Hk. }
      intros k Hk. destruct (decide (pre ++ [c] = k)) as [<- | Hd].
      * right. split.
        -- rewrite Hkeep by (rewrite lookup_insert_eq; discriminate). apply lookup_insert_eq.
        -- exists [c], rest. split; [reflexivity |]. split; [discriminate | reflexivity].
      * destruct (Hnew k) as [Hn | (Hdir & r1 & r2 & -> & Hne & ->)].
        -- now rewrite lookup_insert_ne.
        -- now left.
        -- right. split; [exact Hdir |]. exists (c :: r1), r2.
           split; [reflexivity |]. split; [discriminate | apply snoc_app_assoc].
Qed.

(** *** One rule *)

Lemma parent_extend (p : PurePath.t) (rel : list string) :
  rel <> [] -> PurePath.parent (PurePath.extend p rel) = PurePath.extend p (removelast rel).
Proof.
  intros Hne. unfold PurePath.parent, PurePath.extend. cbn [PurePath.root PurePath.parts].
  now rewrite removelast_app.
Qed.

Lemma no_dotdot_app (l1 l2 : list string) :
  no_dotdot (l1 ++ l2) = (no_dotdot l1 && no_dotdot l2)%bool.
Proof. unfold no_dotdot. now rewrite existsb_app, negb_orb. Qed.

Lemma no_dotdot_removelast (rel : list string) :
  no_dotdot rel = true -> no_dotdot (removelast rel) = true.
Proof.
  destruct (decide (rel = [])) as [-> | Hne]; [auto |].
  rewrite (app_removelast_last EmptyString Hne) at 1. rewrite no_dotdot_app.
  intros H. now apply andb_prop in H as [H _].
Qed.

Lemma no_file_on_prefix (f : gmap key node) (pre r r' : key) :
  no_file_on f pre (r ++ r') = true -> no_file_on f pre r = true.
Proof.
  rewrite !no_file_on_spec. intros H r1 r2 -> Hne.
  apply (H r1 (r2 ++ r')); [now rewrite app_assoc | exact Hne].
Qed.

Lemma log_ready_is_file (f : gmap key node) (cwd : key) (log_path : option PurePath.t) (k : key) :
  log_ready f cwd log_path = true -> log_key cwd log_path = Some k -> is_file f k = true.
Proof.
  unfold log_ready, log_key, is_file. destruct log_path as [lp |]; [| discriminate].
  destruct (resolve_key cwd lp) as [[| c kl] |]; try discriminate.
  intros H [= <-]. now destruct (f !! (c :: kl)) as [[| [] ?] |].
Qed.

Lemma mkdir_parents_spec (p : PurePath.t) (k : key) (w : world) :
  resolve_key (cwd w) p = Some k ->
  no_file_on (fs w) [] k = true ->
  exists f',
    mkdir_parents p w
    = (Return tt, mk_world f' (cwd w) (clock w) (ticks w) (stdout w) (calls w ++ [CallMkdir p]))
    /\ check_dirs f' [] k = None
    /\ (forall k', fs w !! k' <> None -> f' !! k' = fs w !! k')
    /\ (forall k', fs w !! k' = None ->
          f' !! k' = None \/ (f' !! k' = Some Dir /\ exists r, k = k' ++ r)).
Proof.
  intros Hk Hfree. destruct (mkdirs_spec k (fs w) [] Hfree) as (f' & E & Hcheck & Hkeep & Hnew).
  exists f'. split.
  - unfold mkdir_parents, bind, record_call, resolve, get_fs. cbn [cwd]. rewrite Hk.
    cbn [fs]. now rewrite E.
  - split; [exact Hcheck |]. split; [exact Hkeep |].
    intros k' Hk'. destruct (Hnew k' Hk') as [Hn | (Hd & r1 & r2 & -> & _ & ->)]; [now left |].
    right. split; [exact Hd |]. now exists r2.
Qed.

Lemma copy2_spec (src dst : PurePath.t) (ks kd : key) (content : data) (mtime : Z) (w : world) :
  resolve_key (cwd w) src = Some ks ->
  resolve_key (cwd w) dst = Some kd ->
  ks <> [] -> kd <> [] ->
  fs w !! ks = Some (File content mtime) ->
  fs w !! kd = None ->
  check_dirs (fs w) [] (removelast kd) = None ->
  copy2 src dst w
  = (Return tt,
     mk_world (<[kd := File content mtime]> (fs w)) (cwd w) (clock w) (ticks w) (stdout w)
              (calls w ++ [CallCopy2 src dst])).
Proof.
  intros Hks Hkd Hs Hd Hfile Hfree Hcheck.
  unfold copy2, bind, record_call, resolve, get_fs.
  cbn [cwd]. rewrite Hks. cbn [cwd]. rewrite Hkd. cbn [fs].
  rewrite (node_at_nonempty _ _ Hd), Hfree, (node_at_nonempty _ _ Hs), Hfile.
  rewrite decide_False by congruence.
  now rewrite (node_at_nonempty _ _ Hd), Hfree, Hcheck.
Qed.

Section CopyRule.

Variables (variables : toml) (base_dir temp_dir : PurePath.t) (temp_dir_name : string).
Variables (verbose : bool) (log_path : option PurePath.t).
Variable kt : key.

(** A rule whose source is a regular file and whose destination is free is
    carried out: the destination holds the source's content and time stamp,
    the staging directory exists, nodes that existed (the log apart) are
    kept, and the only other new nodes are directories above the
    destination. *)
Lemma copy_rendered_spec (from_path_rendered to_path_rendered : string)
    (ks rel : key) (content : data) (mtime : Z) (w : world) :
  resolve_key (cwd w) temp_dir = Some kt ->
  resolve_key (cwd w) (source_of base_dir from_path_rendered) = Some ks ->
  PurePath.is_absolute (PurePath.parse to_path_rendered) = false ->
  PurePath.parts (PurePath.parse to_path_rendered) = rel ->
  rel <> [] ->
  no_dotdot rel = true ->
  ks <> [] ->
  fs w !! ks = Some (File content mtime) ->
  free_at (fs w) (kt ++ rel) = true ->
  log_ready (fs w) (cwd w) log_path = true ->
  exists w',
    copy_rendered base_dir temp_dir temp_dir_name verbose log_path
      from_path_rendered to_path_rendered w = (Return tt, w')
    /\ cwd w' = cwd w
    /\ log_ready (fs w') (cwd w') log_path = true
    /\ fs w' !! (kt ++ rel) = Some (File content mtime)
    /\ check_dirs (fs w') [] (removelast (kt ++ rel)) = None
    /\ (forall k, fs w !! k <> None -> log_key (cwd w) log_path <> Some k ->
                  fs w' !! k = fs w !! k)
    /\ (forall k, fs w !! k = None -> k <> kt ++ rel ->
                  fs w' !! k = None
                  \/ (fs w' !! k = Some Dir /\ exists r, r <> [] /\ kt ++ rel = k ++ r)).
Proof.
  intros Hkt Hks Hrelative Hparts Hrel Hdd Hsne Hsrc Hfree Hlog.
  set (kd := kt ++ rel) in *.
  assert (Hdne : kd <> []) by (unfold kd; destruct kt, rel; [contradiction | discriminate..]).
  unfold free_at in Hfree. rewrite (node_at_nonempty _ _ Hdne) in Hfree.
  destruct (fs w !! kd) eqn:Hdst; [discriminate |].
  assert (Hparent : removelast kd = kt ++ removelast rel) by (unfold kd; now rewrite removelast_app).
  assert (Hlast : kd = removelast kd ++ [List.last kd EmptyString])
    by now apply app_removelast_last.
  (* the paths *)
  unfold copy_rendered, destination_of.
  rewrite (joinpath_relative _ _ Hrelative), Hparts.
  assert (Hkd : resolve_key (cwd w) (PurePath.extend temp_dir rel) = Some kd)
    by now apply resolve_key_extend.
  assert (Hkp : resolve_key (cwd w) (PurePath.parent (PurePath.extend temp_dir rel))
                = Some (removelast kd)).
  { rewrite (parent_extend _ _ Hrel), Hparent.
    apply resolve_key_extend; [exact Hkt | now apply no_dotdot_removelast]. }
  (* the source exists *)
  rewrite (bind_return _ _ _ _ _ (path_exists_spec _ _ _ Hks)).
  rewrite (node_at_nonempty _ _ Hsne), Hsrc. cbn [negb].
  (* the directories *)
  set (w0 := add_calls _ w).
  destruct (mkdir_parents_spec (PurePath.parent (PurePath.extend temp_dir rel)) (removelast kd) w0)
    as (f1 & E1 & Hcheck1 & Hkeep1 & Hnew1); [exact Hkp | |].
  { cbn [fs w0 add_calls]. apply (no_file_on_prefix _ _ _ [List.last kd EmptyString]).
    now rewrite <- Hlast. }
  cbn [fs cwd clock ticks stdout calls w0 add_calls] in E1, Hkeep1, Hnew1.
  rewrite (bind_return _ _ _ _ _ E1).
  (* the copy *)
  assert (Hdst1 : f1 !! kd = None).
  { destruct (Hnew1 kd Hdst) as [Hn | (_ & r & Hr)]; [exact Hn |].
    exfalso. apply (f_equal (@List.length string)) in Hr. rewrite Hlast in Hr at 2.
    rewrite !length_app in Hr. cbn in Hr. lia. }
  set (w1 := mk_world f1 _ _ _ _ _).
  rewrite (bind_return _ _ _ _ _
             (copy2_spec (source_of base_dir from_path_rendered) (PurePath.extend temp_dir rel)
                ks kd content mtime w1 Hks Hkd Hsne Hdne
                (eq_trans (Hkeep1 ks ltac:(congruence)) Hsrc) Hdst1 Hcheck1)).
  cbn [fs cwd clock ticks stdout calls w1].
  set (w2 := mk_world (<[kd := File content mtime]> f1) _ _ _ _ _).
  (* the log *)
  assert (Hnolog : forall k, is_file (fs w) k = false -> log_key (cwd w) log_path <> Some k).
  { intros k Hk Hl. rewrite (log_ready_is_file _ _ _ _ Hlog Hl) in Hk. discriminate. }
  assert (Hlog2 : log_ready (fs w2) (cwd w2) log_path = true).
  { cbn [fs cwd w2]. apply log_ready_insert.
    - revert Hlog. unfold log_ready. destruct log_path as [lp |]; [| reflexivity].
      destruct (resolve_key (cwd w) lp) as [[| c kl] |]; try discriminate.
      destruct (fs w !! (c :: kl)) eqn:Hkl; [| discriminate].
      now rewrite Hkeep1, Hkl by congruence.
    - apply Hnolog. unfold is_file. now rewrite Hdst. }
  destruct (log_if_append_spec log_path "copy"
              (PurePath.to_string (source_of base_dir from_path_rendered))
              (PurePath.to_string (PurePath.extend temp_dir rel)) w2 Hlog2)
    as (w3 & E3 & Hcwd3 & Hlog3 & Hframe3 & _).
  rewrite (bind_return _ _ _ _ _ E3).
  destruct (when_print_spec verbose
              ("Copied: " +:+ from_path_rendered +:+ " -> " +:+ temp_dir_name
               +:+ "/" +:+ to_path_rendered) w3)
    as (w4 & E4 & Hfs4 & Hcwd4).
  exists w4. split; [exact E4 |]. rewrite Hfs4, Hcwd4, Hcwd3. cbn [cwd w2].
  cbn [cwd w2] in Hframe3.
  split; [reflexivity |]. split; [now rewrite Hcwd3 in Hlog3 |]. split.
  { rewrite Hframe3 by (apply Hnolog; unfold is_file; now rewrite Hdst).
    cbn [fs w2]. apply lookup_insert_eq. }
  split.
  { apply (check_dirs_keep f1); [exact Hcheck1 |]. intros k Hk.
    rewrite Hframe3.
    - cbn [fs w2]. rewrite lookup_insert_ne; [exact Hk | congruence].
    - intros Hl. pose proof (log_ready_is_file _ _ _ _ Hlog Hl) as Hf.
      unfold is_file in Hf. destruct (fs w !! k) as [[| ? ?] |] eqn:Hw; try discriminate.
      rewrite Hkeep1, Hw in Hk by congruence. discriminate. }
  split.
  - intros k Hk Hl. rewrite (Hframe3 k Hl). cbn [fs w2].
    rewrite lookup_insert_ne by congruence. now apply Hkeep1.
  - intros k Hk Hne. rewrite Hframe3 by (apply Hnolog; unfold is_file; now rewrite Hk).
    cbn [fs w2]. rewrite lookup_insert_ne by congruence.
    destruct (Hnew1 k Hk) as [Hn | (Hd & r & Hr)]; [now left |].
    right. split; [exact Hd |]. exists (r ++ [List.last kd EmptyString]). split.
    + now destruct r.
    + now rewrite app_assoc, <- Hr.
Qed.

End CopyRule.

Lemma is_prefix_true (a b : key) : is_prefix a b = true <-> exists r, b = a ++ r.
Proof.
  unfold is_prefix. split.
  - destruct (PurePath.strip_prefix a b) as [r |] eqn:H; [| discriminate].
    intros _. exists r. now apply strip_prefix_Some.
  - intros [r ->]. now rewrite strip_prefix_app.
Qed.

Lemma is_prefix_false (a b r : key) : is_prefix a b = false -> b <> a ++ r.
Proof.
  intros H ->. assert (is_prefix a (a ++ r) = true) by (apply is_prefix_true; eauto).
  congruence.
Qed.

(** The turn of the loop for a section that is a valid rule. *)
Lemma copy_rule_planned (variables : toml) (base_dir temp_dir : PurePath.t)
    (temp_dir_name : string) (verbose : bool) (log_path : option PurePath.t) (kt : key)
    (section : string * toml) (ks rel : key) (w : world) :
  rule_plan (cwd w) variables base_dir section = Some (ks, rel) ->
  resolve_key (cwd w) temp_dir = Some kt ->
  is_file (fs w) ks = true ->
  free_at (fs w) (kt ++ rel) = true ->
  log_ready (fs w) (cwd w) log_path = true ->
  exists w',
    copy_rule variables base_dir temp_dir temp_dir_name verbose log_path section w
    = (Return tt, w')
    /\ cwd w' = cwd w
    /\ log_ready (fs w') (cwd w') log_path = true
    /\ fs w' !! (kt ++ rel) = fs w !! ks
    /\ check_dirs (fs w') [] (removelast (kt ++ rel)) = None
    /\ (forall k, fs w !! k <> None -> log_key (cwd w) log_path <> Some k ->
                  fs w' !! k = fs w !! k)
    /\ (forall k, fs w !! k = None -> k <> kt ++ rel ->
                  fs w' !! k = None
                  \/ (fs w' !! k = Some Dir /\ exists r, r <> [] /\ kt ++ rel = k ++ r)).
Proof.
  destruct section as [section_name file_config].
  unfold rule_plan, copy_rule. cbn [snd].
  destruct file_config as [| | | | file_config]; try discriminate.
  destruct (dict_get "from" file_config) as [from_path |]; [| discriminate].
  destruct (dict_get "to" file_config) as [to_path |]; [| discriminate].
  destruct (truthy from_path); [| discriminate].
  destruct (truthy to_path); [| discriminate]. cbn [andb negb orb].
  destruct (render_path from_path variables) as [from_path_rendered |]; [| discriminate].
  destruct (render_path to_path variables) as [to_path_rendered |]; [| discriminate].
  destruct (resolve_key (cwd w) (source_of base_dir from_path_rendered))
    as [[| c ks'] |] eqn:Hks; try discriminate.
  destruct (PurePath.parts (PurePath.parse to_path_rendered)) as [| c' rel'] eqn:Hparts;
    [discriminate |].
  destruct (PurePath.is_absolute (PurePath.parse to_path_rendered)) eqn:Habs; [discriminate |].
  cbn [negb andb].
  destruct (no_dotdot (c' :: rel')) eqn:Hdd; [| discriminate].
  intros [= <- <-] Hkt Hfile Hfree Hlog.
  unfold is_file in Hfile.
  destruct (fs w !! (c :: ks')) as [[| content mtime] |] eqn:Hsrc; try discriminate.
  destruct (copy_rendered_spec base_dir temp_dir temp_dir_name verbose log_path kt
              from_path_rendered to_path_rendered (c :: ks') (c' :: rel') content mtime w)
    as (w' & E & H); try assumption; try discriminate.
  exists w'. split; [exact E | exact H].
Qed.

(** *** The loop *)

Section CopyLoop.

Variables (variables : toml) (base_dir temp_dir : PurePath.t) (temp_dir_name : string).
Variables (verbose : bool) (log_path : option PurePath.t).
Variables (kt cwd0 : key).

Lemma prefix_free_cons (rel : key) (rels : list key) :
  prefix_free (rel :: rels) = true ->
  prefix_free rels = true
  /\ forall rel', rel' ∈ rels -> is_prefix rel rel' = false /\ is_prefix rel' rel = false.
Proof.
  cbn [prefix_free]. intros H. apply andb_prop in H as [Hhead Htail].
  split; [exact Htail |]. intros rel' Hin.
  rewrite forallb_forall in Hhead. apply list_elem_of_In, Hhead in Hin.
  apply andb_prop in Hin as [H1 H2]. now apply negb_true_iff in H1, H2.
Qed.

Lemma free_at_spec (f : gmap key node) (k : key) :
  free_at f k = true -> k <> [] /\ f !! k = None /\ no_file_on f [] k = true.
Proof.
  unfold free_at. destruct k as [| c k]; [discriminate |]. rewrite node_at_cons.
  destruct (f !! (c :: k)); [discriminate |]. auto.
Qed.

Lemma free_at_intro (f : gmap key node) (k : key) :
  k <> [] -> f !! k = None -> no_file_on f [] k = true -> free_at f k = true.
Proof. intros Hne Hk Hfree. unfold free_at. now rewrite (node_at_nonempty _ _ Hne), Hk. Qed.

Lemma copy_loop (sections : py_dict) (plan : list (key * key)) :
  Forall2 (fun section p => rule_plan cwd0 variables base_dir section = Some p) sections plan ->
  forall w : world,
    cwd w = cwd0 ->
    resolve_key cwd0 temp_dir = Some kt ->
    forallb (fun p => is_file (fs w) p.1) plan = true ->
    forallb (fun p => free_at (fs w) (kt ++ p.2)) plan = true ->
    prefix_free (plan.*2) = true ->
    log_ready (fs w) cwd0 log_path = true ->
    (forall p, p ∈ plan -> log_key cwd0 log_path <> Some p.1) ->
    exists w',
      for_each (copy_rule variables base_dir temp_dir temp_dir_name verbose log_path) sections w
      = (Return tt, w')
      /\ cwd w' = cwd0
      /\ (forall p, p ∈ plan ->
            fs w' !! (kt ++ p.2) = fs w !! p.1
            /\ check_dirs (fs w') [] (removelast (kt ++ p.2)) = None)
      /\ (forall k, fs w !! k <> None -> log_key cwd0 log_path <> Some k ->
                    fs w' !! k = fs w !! k)
      /\ (forall k, fs w !! k = None -> is_file (fs w') k = true ->
                    exists p, p ∈ plan /\ k = kt ++ p.2).
Proof.
  induction 1 as [| section [ks rel] sections plan Hplan _ IH];
    intros w Hcwd Hkt Hsources Hfree Hpf Hlog Hnotlog.
  { exists w. split; [reflexivity |]. split; [exact Hcwd |]. split.
    - intros p Hp. now apply not_elem_of_nil in Hp.
    - split; [reflexivity |]. intros k Hk Hf. unfold is_file in Hf. now rewrite Hk in Hf. }
  cbn [forallb fst snd fmap list_fmap] in Hsources, Hfree, Hpf.
  apply andb_prop in Hsources as [Hsrc Hsources]. apply andb_prop in Hfree as [Hdst Hfree].
  apply prefix_free_cons in Hpf as [Hpf Hhead].
  assert (Hnolog : forall k, is_file (fs w) k = false -> log_key cwd0 log_path <> Some k).
  { intros k Hk Hl. rewrite (log_ready_is_file _ _ _ _ Hlog Hl) in Hk. discriminate. }
  destruct (free_at_spec _ _ Hdst) as (Hdne & Hdnone & Hdfree).
  destruct (copy_rule_planned variables base_dir temp_dir temp_dir_name verbose log_path kt
              section ks rel w)
    as (w1 & E1 & Hcwd1 & Hlog1 & Hcopied & Hdir1 & Hkeep1 & Hnew1);
    try (rewrite Hcwd); try assumption.
  rewrite Hcwd in Hcwd1, Hkeep1. rewrite Hcwd1 in Hlog1.
  (* the world after this rule is fit for the rules after it *)
  assert (Hsources1 : forallb (fun p => is_file (fs w1) p.1) plan = true).
  { apply forallb_forall. intros p Hp. rewrite forallb_forall in Hsources.
    pose proof (Hsources p Hp) as Hf. apply list_elem_of_In in Hp.
    unfold is_file in *. rewrite Hkeep1; [exact Hf | | apply Hnotlog; now right].
    now destruct (fs w !! p.1). }
  assert (Hfree1 : forallb (fun p => free_at (fs w1) (kt ++ p.2)) plan = true).
  { apply forallb_forall. intros p Hp. rewrite forallb_forall in Hfree.
    destruct (free_at_spec _ _ (Hfree p Hp)) as (Hne & Hnone & Hnf).
    apply list_elem_of_In in Hp.
    destruct (Hhead p.2) as [Hh1 Hh2]; [now apply list_elem_of_fmap_2 |].
    apply free_at_intro; [exact Hne | |].
    - destruct (Hnew1 (kt ++ p.2) Hnone) as [Hn | (_ & r & _ & Hr)]; [| exact Hn |].
      + intros Heq. apply app_inv_head in Heq.
        apply (is_prefix_false _ _ [] Hh1). now rewrite app_nil_r.
      + exfalso. rewrite <- app_assoc in Hr. apply app_inv_head in Hr.
        exact (is_prefix_false _ _ _ Hh2 Hr).
    - apply no_file_on_spec. intros r1 r2 Hsplit Hr1. cbn [app].
      pose proof (proj1 (no_file_on_spec _ _ _) Hnf r1 r2 Hsplit Hr1) as Hf. cbn [app] in Hf.
      destruct (fs w !! r1) as [n |] eqn:Hw.
      + unfold is_file in *. rewrite Hkeep1; [exact Hf | congruence |].
        apply Hnolog. unfold is_file. exact Hf.
      + destruct (decide (r1 = kt ++ rel)) as [-> | Hne1].
        * exfalso. rewrite <- app_assoc in Hsplit. apply app_inv_head in Hsplit.
          exact (is_prefix_false _ _ _ Hh1 Hsplit).
        * unfold is_file. now destruct (Hnew1 r1 Hw Hne1) as [-> | [-> _]]. }
  destruct (IH w1 Hcwd1 Hkt Hsources1 Hfree1 Hpf Hlog1)
    as (w' & E & Hcwd' & Hdone & Hkeep & Hnew).
  { intros p Hp. apply Hnotlog. now right. }
  assert (Hnolog1 : forall k, is_file (fs w1) k = false -> log_key cwd0 log_path <> Some k).
  { intros k Hk Hl. rewrite (log_ready_is_file _ _ _ _ Hlog1 Hl) in Hk. discriminate. }
  assert (Hdir' : check_dirs (fs w') [] (removelast (kt ++ rel)) = None).
  { apply (check_dirs_keep (fs w1)); [exact Hdir1 |]. intros k Hk.
    rewrite Hkeep, Hk; [reflexivity | congruence |].
    apply Hnolog1. unfold is_file. now rewrite Hk. }
  exists w'. rewrite for_each_cons, E1. split; [exact E |]. split; [exact Hcwd' |]. split.
  { intros p Hp.
    apply elem_of_cons in Hp as [-> | Hp]; cbn [fst snd].
    - split; [| exact Hdir']. rewrite Hkeep; [exact Hcopied | |].
      + rewrite Hcopied. unfold is_file in Hsrc. now destruct (fs w !! ks).
      + apply Hnolog. unfold is_file. now rewrite Hdnone.
    - destruct (Hdone p Hp) as [-> Hd]. split; [| exact Hd].
      apply Hkeep1; [| apply Hnotlog; now right].
      rewrite forallb_forall in Hsources. apply list_elem_of_In, Hsources in Hp.
      unfold is_file in Hp. now destruct (fs w !! p.1). }
  split.
  { intros k Hk Hl. rewrite Hkeep; [now apply Hkeep1 | now rewrite Hkeep1 | exact Hl]. }
  intros k Hk Hf. destruct (decide (k = kt ++ rel)) as [-> | Hne].
  { exists (ks, rel). split; [now left | reflexivity]. }
  destruct (Hnew1 k Hk Hne) as [Hn | [Hd _]].
  - destruct (Hnew k Hn Hf) as (p & Hp & ->). exists p. split; [now right | reflexivity].
  - exfalso. unfold is_file in Hf. rewrite Hkeep, Hd in Hf; [discriminate | congruence |].
    apply Hnolog. unfold is_file. now rewrite Hk.
Qed.

End CopyLoop.

(** *** Counting the staged files *)

Lemma NoDup_omap_inj {A B} (g : A -> option B) (l : list A) :
  NoDup l ->
  (forall x y z, x ∈ l -> y ∈ l -> g x = Some z -> g y = Some z -> x = y) ->
  NoDup (omap g l).
Proof.
  induction 1 as [| x l Hx Hl IH]; intros Hinj; [constructor |].
  cbn [omap list_omap]. assert (Htail : NoDup (omap g l)).
  { apply IH. intros a b z Ha Hb. apply Hinj; now right. }
  destruct (g x) as [z |] eqn:Hgx; [| exact Htail].
  constructor; [| exact Htail].
  intros Hin. apply list_elem_of_omap in Hin as (y & Hy & Hgy).
  apply Hx. rewrite (Hinj x y z); [exact Hy | now left | now right | exact Hgx | exact Hgy].
Qed.

Lemma NoDup_files_below (f : gmap key node) (k : key) : NoDup (files_below f k).
Proof.
  unfold files_below. apply NoDup_omap_inj; [apply NoDup_map_to_list |].
  intros [p n] [p' n'] rel Hin Hin'.
  apply elem_of_map_to_list in Hin, Hin'.
  destruct n as [| d m]; [discriminate |]. destruct n' as [| d' m']; [discriminate |].
  destruct (PurePath.strip_prefix k p) as [[| c r] |] eqn:Hs; try discriminate.
  destruct (PurePath.strip_prefix k p') as [[| c' r'] |] eqn:Hs'; try discriminate.
  intros [= <-] [= Heq]. apply strip_prefix_Some in Hs, Hs'. subst p p'. rewrite Heq in Hin'.
  congruence.
Qed.

Lemma NoDup_files_under (f : gmap key node) (k : key) : NoDup (files_under f k).
Proof.
  unfold files_under. destruct (node_at f k) as [[| d m] |];
    [apply NoDup_files_below | constructor..].
Qed.

Lemma prefix_free_NoDup (l : list key) : prefix_free l = true -> NoDup l.
Proof.
  induction l as [| k l IH]; intros H; [constructor |].
  apply prefix_free_cons in H as [Htail Hhead]. constructor; [| auto].
  intros Hin. destruct (Hhead k Hin) as [Hp _].
  apply (is_prefix_false _ _ [] Hp). now rewrite app_nil_r.
Qed.

(** *** The log header *)

Lemma write_log_header_spec (lp : PurePath.t) (kl : key) (w : world) :
  resolve_key (cwd w) lp = Some kl ->
  is_dir (fs w) kl = false ->
  check_dirs (fs w) [] (removelast kl) = None ->
  write_log_header lp w
  = (Return tt,
     mk_world (<[kl := File (Log []) (clock w (ticks w))]> (fs w)) (cwd w) (clock w)
              (S (ticks w)) (stdout w) (calls w ++ [CallOpen lp "w"])).
Proof.
  intros Hk Hdir Hcheck. unfold write_log_header, bind, record_call, resolve.
  cbn [cwd]. rewrite Hk. now rewrite create_file_spec by assumption.
Qed.

(** Where the log fits, its header is written and nothing else changes; the
    log is then in place, away from the sources and the staging
    directory. *)
Lemma log_header_spec (log_path : option PurePath.t) (kt : key) (sources : list key)
    (w : world) :
  log_fits (fs w) (cwd w) log_path kt sources = true ->
  exists w1,
    log_if log_path write_log_header w = (Return tt, w1)
    /\ cwd w1 = cwd w
    /\ log_ready (fs w1) (cwd w) log_path = true
    /\ (forall k, log_key (cwd w) log_path <> Some k -> fs w1 !! k = fs w !! k)
    /\ (forall k, log_key (cwd w) log_path = Some k ->
          is_prefix k kt = false /\ is_prefix kt k = false /\ k ∉ sources).
Proof.
  unfold log_fits, log_if, log_key, log_ready. destruct log_path as [lp |].
  - destruct (resolve_key (cwd w) lp) as [kl |] eqn:Hk; [| discriminate].
    intros H. repeat (apply andb_prop in H as [H ?]).
    apply negb_true_iff in H.
    destruct (check_dirs (fs w) [] (removelast kl)) eqn:Hcheck; [discriminate |].
    eexists. split; [now apply (write_log_header_spec lp kl) |]. cbn [cwd fs].
    split; [reflexivity |]. split.
    { pose proof (is_dir_false_nonempty _ _ H) as Hne. destruct kl as [| c kl]; [contradiction |].
      now rewrite lookup_insert_eq. }
    split.
    { intros k Hne. apply lookup_insert_ne. congruence. }
    intros k [= <-]. split; [now apply negb_true_iff |]. split; [now apply negb_true_iff |].
    intros Hin. match goal with Hs : forallb _ sources = true |- _ =>
      rewrite forallb_forall in Hs; apply list_elem_of_In, Hs in Hin end.
    now rewrite bool_decide_eq_true_2 in Hin.
  - intros _. exists w. repeat split; auto; discriminate.
Qed.

(** *** The staged files *)

Lemma rule_plan_nonempty (cwd : key) (variables : toml) (base_dir : PurePath.t)
    (section : string * toml) (p : key * key) :
  rule_plan cwd variables base_dir section = Some p -> p.1 <> [] /\ p.2 <> [].
Proof.
  unfold rule_plan. repeat case_match; try discriminate. intros [= <-]. now split.
Qed.

Lemma prefix_of_extension (a b c r : key) :
  b ++ c = a ++ r -> is_prefix a b = true \/ is_prefix b a = true.
Proof.
  intros H. apply app_eq_inv in H as [(k & -> & _) | (k & -> & _)].
  - left. apply is_prefix_true. eauto.
  - right. apply is_prefix_true. eauto.
Qed.

Lemma plan_nonempty (cwd : key) (variables : toml) (base_dir : PurePath.t)
    (sections : py_dict) (plan : list (key * key)) :
  Forall2 (fun section p => rule_plan cwd variables base_dir section = Some p) sections plan ->
  forall p, p ∈ plan -> p.1 <> [] /\ p.2 <> [].
Proof.
  induction 1 as [| section p sections plan Hrule _ IH]; intros q Hq.
  - now apply not_elem_of_nil in Hq.
  - apply elem_of_cons in Hq as [-> | Hq]; [now apply rule_plan_nonempty in Hrule | auto].
Qed.

(** C3, as the code has it.  Let every [file*] section be a valid rule whose
    rendered [to] is a relative path without double dots, every source be a
    regular file, every destination be free with no file on the way to it,
    no destination be a prefix of another (so they are pairwise distinct),
    the staging directory hold no regular file, and the log, if any, lie
    apart from the sources and the staging directory.  Then staging returns
    normally; every destination holds its source's content and modification
    time, at the end of every directory on the way to it, and the source is
    as it was; and the regular files below the staging directory are exactly
    the destinations, as many as there are sections. *)
Theorem staging_copies_each_rule :
  forall (variables : toml) (base_dir temp_dir : PurePath.t) (temp_dir_name : string)
         (verbose : bool) (log_path : option PurePath.t) (sections : py_dict)
         (kt : key) (plan : list (key * key)) (w : world),
    resolve_key (cwd w) temp_dir = Some kt ->
    mapM (rule_plan (cwd w) variables base_dir) sections = Some plan ->
    forallb (fun p => is_file (fs w) p.1) plan = true ->
    forallb (fun p => free_at (fs w) (kt ++ p.2)) plan = true ->
    prefix_free (plan.*2) = true ->
    files_below (fs w) kt = [] ->
    log_fits (fs w) (cwd w) log_path kt (plan.*1) = true ->
    let r := stage variables base_dir temp_dir temp_dir_name verbose log_path sections w in
    fst r = Return tt
    /\ Forall (fun p => exists content mtime,
                 fs w !! p.1 = Some (File content mtime)
                 /\ fs (snd r) !! (kt ++ p.2) = Some (File content mtime)
                 /\ check_dirs (fs (snd r)) [] (removelast (kt ++ p.2)) = None
                 /\ fs (snd r) !! p.1 = Some (File content mtime)) plan
    /\ (forall rel, rel ∈ files_under (fs (snd r)) kt <-> rel ∈ plan.*2)
    /\ List.length (files_under (fs (snd r)) kt) = List.length sections.
Proof.
  intros variables base_dir temp_dir temp_dir_name verbose log_path sections kt plan w
         Hkt Hplan Hsources Hfree Hpf Hempty Hfits. cbv zeta.
  apply mapM_Some in Hplan.
  destruct (log_header_spec log_path kt (plan.*1) w Hfits)
    as (w1 & E1 & Hcwd1 & Hlog1 & Hframe1 & Haway).
  assert (Hnotlog : forall p, p ∈ plan -> log_key (cwd w) log_path <> Some p.1).
  { intros p Hp Hl. destruct (Haway _ Hl) as (_ & _ & Hout).
    apply Hout. now apply list_elem_of_fmap_2. }
  assert (Hnotbelow : forall r c, log_key (cwd w) log_path <> Some (kt ++ r ++ c)).
  { intros r c Hl. destruct (Haway _ Hl) as (_ & Hp & _).
    rewrite (proj2 (is_prefix_true kt (kt ++ r ++ c))) in Hp; [discriminate | eauto]. }
  assert (Hnotabove : forall p r1 r2, kt ++ p = r1 ++ r2 -> log_key (cwd w) log_path <> Some r1).
  { intros p r1 r2 Hsplit Hl. destruct (Haway _ Hl) as (Hp1 & Hp2 & _).
    destruct (prefix_of_extension _ _ _ _ Hsplit); congruence. }
  assert (Hsources1 : forallb (fun p => is_file (fs w1) p.1) plan = true).
  { apply forallb_forall. intros p Hp. rewrite forallb_forall in Hsources.
    unfold is_file. rewrite Hframe1; [exact (Hsources p Hp) |].
    apply Hnotlog. now apply list_elem_of_In. }
  assert (Hfree1 : forallb (fun p => free_at (fs w1) (kt ++ p.2)) plan = true).
  { apply forallb_forall. intros p Hp. rewrite forallb_forall in Hfree.
    destruct (free_at_spec _ _ (Hfree p Hp)) as (Hne & Hnone & Hnf).
    apply free_at_intro; [exact Hne | |].
    - rewrite Hframe1; [exact Hnone |]. apply (Hnotabove p.2 _ []). now rewrite app_nil_r.
    - apply no_file_on_spec. intros r1 r2 Hsplit Hr1. cbn [app].
      pose proof (proj1 (no_file_on_spec _ _ _) Hnf r1 r2 Hsplit Hr1) as Hf. cbn [app] in Hf.
      unfold is_file in *. rewrite Hframe1; [exact Hf |]. exact (Hnotabove _ _ _ Hsplit). }
  rewrite <- Hcwd1 in Hkt, Hplan, Hlog1, Hnotlog.
  destruct (copy_loop variables base_dir temp_dir temp_dir_name verbose log_path kt (cwd w1)
              sections plan Hplan w1 eq_refl Hkt Hsources1 Hfree1 Hpf Hlog1 Hnotlog)
    as (w' & E & Hcwd' & Hdone & Hkeep & Hnew).
  rewrite Hcwd1 in Hkeep, Hnotlog.
  unfold stage. rewrite (bind_return _ _ _ _ _ E1), E. cbn [fst snd].
  split; [reflexivity |].
  assert (Hstaged : forall p, p ∈ plan ->
            exists content mtime,
              fs w !! p.1 = Some (File content mtime)
              /\ fs w' !! (kt ++ p.2) = Some (File content mtime)
              /\ check_dirs (fs w') [] (removelast (kt ++ p.2)) = None
              /\ fs w' !! p.1 = Some (File content mtime)).
  { intros p Hp. destruct (Hdone p Hp) as [Hcopied Hdirs].
    rewrite forallb_forall in Hsources. pose proof (Hsources p (proj1 (list_elem_of_In _ _) Hp)) as Hf.
    unfold is_file in Hf. destruct (fs w !! p.1) as [[| content mtime] |] eqn:Hsrc; try discriminate.
    assert (Hsrc1 : fs w1 !! p.1 = Some (File content mtime))
      by (rewrite Hframe1; [exact Hsrc | now apply Hnotlog]).
    exists content, mtime. split; [reflexivity |]. split; [congruence |].
    split; [exact Hdirs |]. rewrite Hkeep; [exact Hsrc1 | congruence | now apply Hnotlog]. }
  split; [apply Forall_forall; intros p Hp; now apply Hstaged |].
  assert (Hmember : forall rel, rel ∈ files_under (fs w') kt <-> rel ∈ plan.*2).
  { intros rel. rewrite elem_of_files_under. split.
    - intros (_ & Hne & Hf).
      destruct (fs w1 !! (kt ++ rel)) as [n |] eqn:Hw1.
      + exfalso. assert (Hl : log_key (cwd w) log_path <> Some (kt ++ rel)).
        { specialize (Hnotbelow rel []). now rewrite app_nil_r in Hnotbelow. }
        assert (Hin : rel ∈ files_below (fs w) kt).
        { apply elem_of_files_below. split; [exact Hne |].
          unfold is_file in *. rewrite <- Hframe1, <- Hkeep; [exact Hf | congruence | exact Hl..]. }
        rewrite Hempty in Hin. now apply not_elem_of_nil in Hin.
      + destruct (Hnew _ Hw1 Hf) as (p & Hp & Heq). apply app_inv_head in Heq as ->.
        now apply list_elem_of_fmap_2.
    - intros Hin. apply list_elem_of_fmap in Hin as (p & -> & Hp).
      destruct (Hstaged p Hp) as (content & mtime & _ & Hdst & Hdirs & _).
      destruct (plan_nonempty _ _ _ _ _ Hplan p Hp) as [_ Hne].
      split; [| split; [exact Hne | unfold is_file; now rewrite Hdst]].
      unfold is_dir. destruct (decide (kt = [])) as [Hkt0 | Hktne]; [now rewrite Hkt0 |].
      rewrite (node_at_nonempty _ _ Hktne).
      rewrite removelast_app in Hdirs by exact Hne.
      pose proof (check_dirs_dirs _ _ [] Hdirs kt (removelast p.2) eq_refl Hktne) as Hd.
      cbn [app] in Hd. now rewrite Hd. }
  split; [exact Hmember |].
  rewrite (Forall2_length _ _ _ Hplan), <- (length_fmap snd plan).
  apply Permutation_length, NoDup_Permutation;
    [apply NoDup_files_under | now apply prefix_free_NoDup | exact Hmember].
Qed.

Lemma staging_witness :
  let r := stage Sample.variables Sample.base_dir Sample.temp_dir "sample" true
             (Some Sample.log_path) (file_sections Sample.config) Sample.w0 in
  fst r = Return tt
  /\ Forall (fun p => exists content mtime,
               fs Sample.w0 !! p.1 = Some (File content mtime)
               /\ fs (snd r) !! (["tmp"; "sample"] ++ p.2) = Some (File content mtime)
               /\ check_dirs (fs (snd r)) [] (removelast (["tmp"; "sample"] ++ p.2)) = None
               /\ fs (snd r) !! p.1 = Some (File content mtime)) Sample.plan
  /\ (forall rel, rel ∈ files_under (fs (snd r)) ["tmp"; "sample"] <-> rel ∈ Sample.plan.*2)
  /\ List.length (files_under (fs (snd r)) ["tmp"; "sample"])
     = List.length (file_sections Sample.config).
Proof.
  apply (staging_copies_each_rule Sample.variables Sample.base_dir Sample.temp_dir "sample" true
           (Some Sample.log_path) (file_sections Sample.config) ["tmp"; "sample"] Sample.plan
           Sample.w0);
    vm_compute; reflexivity.
Defined.

(** C3 as stated fails: two valid rules whose sources exist but whose [to] is
    the same leave one file in the staging directory, not two, and it is not
    the first rule's source. *)
Lemma same_destination_leaves_one_file :
  let sections := file_sections Sample.config_same_destination in
  let r := stage Sample.variables Sample.base_dir Sample.temp_dir "sample" true None sections
             Sample.w0 in
  List.length sections = 2%nat
  /\ mapM (rule_plan (cwd Sample.w0) Sample.variables Sample.base_dir) sections
     = Some [ (["tmp"; "testuser"; "foobar.txt"], ["out.txt"]);
              (["tmp"; "testuser"; "foobar2.txt"], ["out.txt"]) ]
  /\ is_file (fs Sample.w0) ["tmp"; "testuser"; "foobar.txt"] = true
  /\ is_file (fs Sample.w0) ["tmp"; "testuser"; "foobar2.txt"] = true
  /\ fst r = Return tt
  /\ files_under (fs (snd r)) ["tmp"; "sample"] = [["out.txt"]]
  /\ fs (snd r) !! ["tmp"; "sample"; "out.txt"] = Some (File (Raw "test2") 200)
  /\ fs (snd r) !! ["tmp"; "testuser"; "foobar.txt"] = Some (File (Raw "test1") 100).
Proof. vm_compute. repeat split; reflexivity. Qed.

(** * More of the code *)

(** ** What the manifest has to look like *)

(** X1: the [zip] entry has to be a non-empty table.  An entry that is there
    but false for Python (an empty table, an empty string, zero, [false], an
    empty array) is refused like a missing one, with [ValueError]; a true
    entry that is no table makes the first [.get] raise [AttributeError].
    Either way nothing has been done: the world is the one the run started
    in. *)
Theorem zip_section_must_be_nonempty_table :
  forall (config : py_dict) (base_dir : PurePath.t) (verbose : bool)
         (log_path : option PurePath.t) (w : world) (v : toml),
    dict_get "zip" config = Some v ->
    (is_dict v && truthy v)%bool = false ->
    process_files config base_dir verbose log_path w
    = (Raise (if truthy v then AttributeError
              else ValueError "[zip] section is required in TOML"), w).
Proof.
  intros config base_dir verbose log_path w v Hzip Hbad.
  unfold process_files.
  replace (dict_get_default "zip" (TTable []) config) with v
    by (unfold dict_get_default; now rewrite Hzip).
  destruct (truthy v) eqn:Ht; cbn [negb]; [| reflexivity].
  destruct v; try reflexivity. discriminate Hbad.
Qed.

Lemma zip_section_empty_table_witness :
  process_files [("zip", TTable []); ("file1", TTable [("from", TStr "a"); ("to", TStr "b")])]
    Sample.base_dir true (Some Sample.log_path) Sample.w0
  = (Raise (ValueError "[zip] section is required in TOML"), Sample.w0).
Proof.
  apply (zip_section_must_be_nonempty_table
           [("zip", TTable []); ("file1", TTable [("from", TStr "a"); ("to", TStr "b")])]
           Sample.base_dir true (Some Sample.log_path) Sample.w0 (TTable []));
    reflexivity.
Defined.

Lemma dict_get_insert_other (key k : string) (v : toml) (d1 d2 : py_dict) :
  k <> key -> dict_get key (d1 ++ (k, v) :: d2) = dict_get key (d1 ++ d2).
Proof.
  intros Hne. induction d1 as [| [k' v'] d1 IH]; cbn [app dict_get].
  - now destruct (String.eqb_spec k key).
  - now rewrite IH.
Qed.

Lemma file_sections_insert_other (k : string) (v : toml) (d1 d2 : py_dict) :
  (String.prefix "file" k && is_dict v)%bool = false ->
  file_sections (d1 ++ (k, v) :: d2) = file_sections (d1 ++ d2).
Proof.
  intros H. unfold file_sections. rewrite !List.filter_app. cbn [List.filter]. now rewrite H.
Qed.

(** X2: entries of the manifest that are neither [zip] nor [variables] nor a
    table under a key that starts with [file] play no part: the run of a
    manifest with such an entry is the run of the manifest without it.  In
    particular a key that starts with [file] but holds no table (a string, a
    number) is no copy rule. *)
Theorem unrelated_entries_are_ignored :
  forall (before after : py_dict) (k : string) (v : toml) (base_dir : PurePath.t)
         (verbose : bool) (log_path : option PurePath.t) (w : world),
    k <> "zip" ->
    k <> "variables" ->
    (String.prefix "file" k && is_dict v)%bool = false ->
    process_files (before ++ (k, v) :: after) base_dir verbose log_path w
    = process_files (before ++ after) base_dir verbose log_path w.
Proof.
  intros before after k v base_dir verbose log_path w Hzip Hvars Hrule.
  unfold process_files, dict_get_default.
  rewrite !dict_get_insert_other by assumption.
  now rewrite (file_sections_insert_other _ _ _ _ Hrule).
Qed.

Lemma unrelated_entries_witness :
  process_files ([("variables", Sample.variables)]
                 ++ ("file_count", TInt 2)
                 :: [("zip", TTable [("file_name", TStr "sample.zip")]);
                     ("file1", TTable [("from", TStr "{{name}}/foobar.txt");
                                       ("to", TStr "renamed_foobar.txt")])])
    Sample.base_dir true None Sample.w0
  = process_files ([("variables", Sample.variables)]
                   ++ [("zip", TTable [("file_name", TStr "sample.zip")]);
                       ("file1", TTable [("from", TStr "{{name}}/foobar.txt");
                                         ("to", TStr "renamed_foobar.txt")])])
      Sample.base_dir true None Sample.w0.
Proof.
  apply (unrelated_entries_are_ignored [("variables", Sample.variables)] _ "file_count" (TInt 2)
           Sample.base_dir true None Sample.w0);
    first [ discriminate | reflexivity ].
Defined.

(** X3: a rule whose [from] or [to] is there but false for Python (the empty
    string, zero, [false], an empty array or table) is passed over like a
    rule without the field: its turn returns normally, the loop goes on with
    the sections after it, the file system and the library calls are
    untouched, and the warning is printed when the run is verbose. *)
Theorem rule_with_false_field_is_skipped :
  forall (variables : toml) (base_dir temp_dir : PurePath.t) (temp_dir_name : string)
         (verbose : bool) (log_path : option PurePath.t)
         (section_name : string) (file_config : py_dict) (rest : py_dict) (w : world),
    truthy_opt (dict_get "from" file_config) = false
    \/ truthy_opt (dict_get "to" file_config) = false ->
    let body := copy_rule variables base_dir temp_dir temp_dir_name verbose log_path in
    let warned :=
      if verbose
      then snd (print ("Warning: " +:+ section_name +:+ " is missing 'from' or 'to' field") w)
      else w in
    for_each body ((section_name, TTable file_config) :: rest) w = for_each body rest warned
    /\ fs warned = fs w
    /\ calls warned = calls w.
Proof.
  intros variables base_dir temp_dir temp_dir_name verbose log_path
         section_name file_config rest w Hfalse body warned.
  assert (Hbody : body (section_name, TTable file_config) w = (Return tt, warned)).
  { unfold body, warned, copy_rule.
    destruct (dict_get "from" file_config) as [from_path |];
      destruct (dict_get "to" file_config) as [to_path |];
      cbn [truthy_opt] in Hfalse; try (destruct verbose; reflexivity).
    destruct Hfalse as [-> | ->]; rewrite ?orb_true_r; cbn [negb orb];
      destruct verbose; reflexivity. }
  split.
  - now rewrite for_each_cons, Hbody.
  - unfold warned. destruct verbose; split; reflexivity.
Qed.

Lemma rule_with_empty_from_witness :
  let body := copy_rule Sample.variables Sample.base_dir Sample.temp_dir "sample" false None in
  for_each body (("file0", TTable [("from", TStr EmptyString); ("to", TStr "b.txt")])
                 :: file_sections Sample.config) Sample.w0
  = for_each body (file_sections Sample.config) Sample.w0
  /\ fs Sample.w0 = fs Sample.w0
  /\ calls Sample.w0 = calls Sample.w0.
Proof.
  apply (rule_with_false_field_is_skipped Sample.variables Sample.base_dir Sample.temp_dir
           "sample" false None "file0" [("from", TStr EmptyString); ("to", TStr "b.txt")]
           (file_sections Sample.config) Sample.w0).
  left. reflexivity.
Defined.

(** ** Rendering *)

(** X4: a template without an opening brace (and without a line break) is
    rendered as it stands, whatever the variables are. *)
Theorem literal_text_renders_unchanged :
  forall (variables : py_dict) (text : string),
    plain_text text = true ->
    render_path (TStr text) (TTable variables) = Some text.
Proof.
  intros variables text Hplain. unfold render_path, Jinja.render.
  rewrite <- (append_nil_r text) at 1.
  rewrite (render_from_plain variables text EmptyString Hplain).
  cbn [Jinja.render_from fmap option_fmap option_map]. now rewrite append_nil_r.
Qed.

Lemma literal_text_witness :
  render_path (TStr "renamed_foobar.txt") Sample.variables = Some "renamed_foobar.txt".
Proof.
  apply (literal_text_renders_unchanged [("name", TStr "testuser"); ("id", TInt 1)]
           "renamed_foobar.txt").
  reflexivity.
Defined.

(** X5: a placeholder whose name the variables define prints the value as
    [str] gives it (a string as it is, an integer in decimal, a boolean as
    [True] or [False]), between the literal text before it and the rendering
    of what follows. *)
Theorem defined_variable_is_substituted :
  forall (variables : py_dict) (pre b1 name b2 post : string) (v : toml) (printed : string),
    plain_text pre = true ->
    blanks b1 = true ->
    identifier name = true ->
    blanks b2 = true ->
    Jinja.is_reserved name = false ->
    dict_get name variables = Some v ->
    py_str v = Some printed ->
    render_path (TStr (pre +:+ "{{" +:+ b1 +:+ name +:+ b2 +:+ "}}" +:+ post)) (TTable variables)
    = (fun rest => pre +:+ printed +:+ rest) <$> render_path (TStr post) (TTable variables).
Proof.
  intros variables pre b1 name b2 post v printed Hpre Hb1 Hname Hb2 Hres Hdef Hstr.
  unfold render_path. rewrite (render_placeholder _ _ _ _ _ _ Hpre Hb1 Hname Hb2).
  unfold Jinja.lookup_var. now rewrite Hres, Hdef, Hstr.
Qed.

Lemma defined_variable_witness :
  render_path (TStr ("id_" +:+ "{{" +:+ " " +:+ "id" +:+ EmptyString +:+ "}}" +:+ ".txt"))
    Sample.variables
  = (fun rest => "id_" +:+ "1" +:+ rest) <$> render_path (TStr ".txt") Sample.variables.
Proof.
  apply (defined_variable_is_substituted [("name", TStr "testuser"); ("id", TInt 1)]
           "id_" " " "id" EmptyString ".txt" (TInt 1) "1");
    reflexivity.
Defined.

(** ** Names and paths *)

Lemma no_slash_app (a b : string) : no_slash (a +:+ b) = (no_slash a && no_slash b)%bool.
Proof.
  induction a as [| c a IH]; [reflexivity |].
  rewrite append_cons. cbn [no_slash]. now rewrite IH, andb_assoc.
Qed.

Lemma split_slash_no_slash (s : string) :
  no_slash s = true -> forall acc, PurePath.split_slash acc s = [acc +:+ s].
Proof.
  induction s as [| c s IH]; intros Hs acc; cbn [PurePath.split_slash].
  - now rewrite append_nil_r.
  - cbn [no_slash] in Hs. apply andb_prop in Hs as [Hc Hs]. apply negb_true_iff in Hc.
    rewrite Hc, (IH Hs). f_equal. apply (snoc_append acc c s).
Qed.

Lemma leading_slashes_no_slash (s : string) : no_slash s = true -> PurePath.leading_slashes s = O.
Proof.
  destruct s as [| c s]; [reflexivity |]. cbn [no_slash PurePath.leading_slashes].
  intros H. apply andb_prop in H as [Hc _]. apply negb_true_iff in Hc. now rewrite Hc.
Qed.

(** A string without a slash is one component, or none when it is empty or a
    single dot. *)
Lemma parse_no_slash (s : string) :
  no_slash s = true ->
  PurePath.parse s
  = PurePath.mk PurePath.Relative (if PurePath.is_component s then [s] else []).
Proof.
  intros Hs. unfold PurePath.parse.
  rewrite (leading_slashes_no_slash _ Hs), (split_slash_no_slash _ Hs), append_nil_l.
  reflexivity.
Qed.

Lemma split_slash_pieces (s : string) :
  forall acc, no_slash acc = true -> Forall (fun p => no_slash p = true) (PurePath.split_slash acc s).
Proof.
  induction s as [| c s IH]; intros acc Hacc; cbn [PurePath.split_slash].
  - now constructor.
  - destruct (Ascii.eqb c "/") eqn:Hc.
    + constructor; [exact Hacc | now apply IH].
    + apply IH. rewrite no_slash_app, Hacc. cbn [no_slash]. now rewrite Hc.
Qed.

Lemma name_no_slash (s : string) : no_slash (PurePath.name (PurePath.parse s)) = true.
Proof.
  unfold PurePath.name, PurePath.parse. cbn [PurePath.parts].
  assert (H : Forall (fun p => no_slash p = true)
                (List.filter PurePath.is_component (PurePath.split_slash EmptyString s))).
  { apply Forall_forall. intros p Hp. apply list_elem_of_In, List.filter_In in Hp as [Hp _].
    pose proof (split_slash_pieces s EmptyString eq_refl) as Hall.
    rewrite Forall_forall in Hall. now apply Hall, list_elem_of_In. }
  induction H as [| p l Hp Hl IH]; [reflexivity |].
  destruct l; [exact Hp | exact IH].
Qed.

Lemma no_slash_substring (s : string) :
  no_slash s = true -> forall a b, no_slash (String.substring a b s) = true.
Proof.
  induction s as [| c s IH]; intros Hs a b.
  - now destruct a, b.
  - cbn [no_slash] in Hs. apply andb_prop in Hs as [Hc Hs].
    destruct a, b; cbn [String.substring no_slash]; try reflexivity; auto.
    now rewrite Hc, IH.
Qed.

Lemma substring_all (s : string) : String.substring 0 (String.length s) s = s.
Proof. induction s as [| c s IH]; cbn; congruence. Qed.

Lemma substring_split (s : string) :
  forall i, (i <= String.length s)%nat ->
    String.substring 0 i s +:+ String.substring i (String.length s - i) s = s.
Proof.
  induction s as [| c s IH]; intros i Hi.
  - cbn in Hi. now replace i with O by lia.
  - destruct i as [| i].
    + rewrite Nat.sub_0_r, substring_all. reflexivity.
    + cbn [String.length] in *. cbn [String.substring Nat.sub].
      rewrite append_cons, IH; [reflexivity | lia].
Qed.

(** The stem and the suffix of a path are its name cut in two. *)
Lemma stem_suffix (p : PurePath.t) : PurePath.stem p +:+ PurePath.suffix p = PurePath.name p.
Proof.
  unfold PurePath.stem, PurePath.suffix.
  destruct (PurePath.rfind_dot (PurePath.name p) 0 None) as [i |]; [| apply append_nil_r].
  destruct ((0 <? i)%nat && (i <? String.length (PurePath.name p) - 1)%nat)%bool eqn:Hi;
    [| apply append_nil_r].
  apply andb_prop in Hi as [_ Hi]. apply Nat.ltb_lt in Hi.
  apply substring_split. lia.
Qed.

Lemma stem_no_slash (s : string) : no_slash (PurePath.stem (PurePath.parse s)) = true.
Proof.
  unfold PurePath.stem. pose proof (name_no_slash s) as Hn.
  repeat case_match; auto using no_slash_substring.
Qed.

Lemma suffix_no_slash (s : string) : no_slash (PurePath.suffix (PurePath.parse s)) = true.
Proof.
  unfold PurePath.suffix. pose proof (name_no_slash s) as Hn.
  repeat case_match; auto using no_slash_substring.
Qed.

(** X6: when the rendered archive name is a plain file name without a suffix
    (no slash; its last dot, if it has one, is its first or its last
    character), the staging directory [base_dir / stem] and the archive path
    [base_dir / name] are the same path. *)
Theorem archive_name_without_suffix_is_the_staging_directory :
  forall (base_dir : PurePath.t) (zip_file_name : string),
    no_slash zip_file_name = true ->
    PurePath.suffix (PurePath.parse zip_file_name) = EmptyString ->
    let temp_dir_name := PurePath.stem (PurePath.parse zip_file_name) in
    let temp_dir := PurePath.joinpath base_dir temp_dir_name in
    let zip_path := PurePath.joinpath base_dir zip_file_name in
    temp_dir = zip_path.
Proof.
  intros base_dir zip_file_name Hplain Hsuffix. cbv zeta.
  pose proof (stem_suffix (PurePath.parse zip_file_name)) as Hcut.
  rewrite Hsuffix, append_nil_r in Hcut. rewrite Hcut.
  rewrite (parse_no_slash _ Hplain). unfold PurePath.name. cbn [PurePath.parts].
  destruct (PurePath.is_component zip_file_name) eqn:Hc; cbn [List.last].
  - reflexivity.
  - unfold PurePath.joinpath. rewrite (parse_no_slash _ Hplain), Hc. reflexivity.
Qed.

Lemma archive_name_without_suffix_witness :
  PurePath.joinpath Sample.base_dir (PurePath.stem (PurePath.parse "archive"))
  = PurePath.joinpath Sample.base_dir "archive".
Proof.
  apply (archive_name_without_suffix_is_the_staging_directory Sample.base_dir "archive");
    reflexivity.
Defined.

Lemma is_component_with_underscore (a b : string) :
  PurePath.is_component (a +:+ "_" +:+ b) = true.
Proof.
  unfold PurePath.is_component. apply negb_true_iff, orb_false_iff.
  split; apply String.eqb_neq.
  - destruct a; discriminate.
  - destruct a as [| c a]; [discriminate |]. rewrite append_cons. intros [= _ H].
    destruct a; discriminate.
Qed.

(** X7: the log file [main] writes is named after the [--log] argument with
    an underscore and the time stamp put in before its suffix, and it lies in
    the current directory when the argument has no directory part, else in
    the manifest's directory: a directory given in [--log] is dropped. *)
Theorem log_path_drops_the_log_directory :
  forall (log timestamp : string) (base_dir : PurePath.t),
    no_slash timestamp = true ->
    let log_base := PurePath.parse log in
    let file_name :=
      PurePath.stem log_base +:+ "_" +:+ timestamp +:+ PurePath.suffix log_base in
    main_log_path log timestamp base_dir
    = PurePath.extend
        (if decide (PurePath.parent log_base = PurePath.parse ".")
         then PurePath.parse "." else base_dir)
        [file_name]
    /\ PurePath.stem log_base +:+ PurePath.suffix log_base = PurePath.name log_base.
Proof.
  intros log timestamp base_dir Hts. cbv zeta. split; [| apply stem_suffix].
  set (file_name := PurePath.stem (PurePath.parse log) +:+ "_" +:+ timestamp
                    +:+ PurePath.suffix (PurePath.parse log)).
  assert (Hparse : PurePath.parse file_name = PurePath.mk PurePath.Relative [file_name]).
  { rewrite parse_no_slash.
    - unfold file_name. now rewrite is_component_with_underscore.
    - unfold file_name. rewrite !no_slash_app, stem_no_slash, Hts, suffix_no_slash. reflexivity. }
  assert (Hjoin : forall d, PurePath.joinpath d file_name = PurePath.extend d [file_name]).
  { intros d. rewrite joinpath_relative; now rewrite Hparse. }
  unfold main_log_path. fold file_name.
  destruct (decide (PurePath.parent (PurePath.parse log) = PurePath.parse ".")) as [-> | _];
    apply Hjoin.
Qed.

Lemma log_path_witness :
  main_log_path "logs/operation.log" "20261105_101500" Sample.base_dir
  = PurePath.extend
      (if decide (PurePath.parent (PurePath.parse "logs/operation.log") = PurePath.parse ".")
       then PurePath.parse "." else Sample.base_dir)
      ["operation" +:+ "_" +:+ "20261105_101500" +:+ ".log"]
  /\ "operation" +:+ ".log" = "operation.log".
Proof.
  apply (log_path_drops_the_log_directory "logs/operation.log" "20261105_101500" Sample.base_dir).
  reflexivity.
Defined.

Example log_path_default :
  PurePath.to_string (main_log_path "operation.log" "20261105_101500" (PurePath.parse "/tmp"))
  = "operation_20261105_101500.log".
Proof. reflexivity. Qed.

Example log_path_with_directory :
  PurePath.to_string (main_log_path "logs/operation.log" "20261105_101500" (PurePath.parse "/tmp"))
  = "/tmp/operation_20261105_101500.log".
Proof. reflexivity. Qed.

(** ** Runs that stop on an error of the file system *)

Lemma create_file_on_dir (k : key) (content : data) (w : world) :
  is_dir (fs w) k = true -> create_file k content w = (Raise IsADirectoryError, w).
Proof.
  unfold create_file, bind, get_fs, is_dir. now destruct (node_at (fs w) k) as [[| ? ?] |].
Qed.

Lemma create_file_no_parent (k : key) (content : data) (e : exn) (w : world) :
  is_dir (fs w) k = false ->
  check_dirs (fs w) [] (removelast k) = Some e ->
  create_file k content w = (Raise e, w).
Proof.
  unfold create_file, bind, get_fs, is_dir. intros Hdir ->.
  now destruct (node_at (fs w) k) as [[| ? ?] |].
Qed.

(** X8: when the archive path names a directory once staging is over (as it
    does when the archive name has no suffix and a file was staged), a run
    without a password ends in [IsADirectoryError] on opening the archive:
    the staged files stay, no archive is written, and the only call after
    staging is the failed [ZipFile]. *)
Theorem archive_path_that_is_a_directory_stops_the_run :
  forall (config zip_config : py_dict) (zip_file_name : string) (base_dir : PurePath.t)
         (verbose : bool) (log_path : option PurePath.t) (kz : key) (w w1 : world),
    let variables := dict_get_default "variables" (TTable []) config in
    let temp_dir_name := PurePath.stem (PurePath.parse zip_file_name) in
    let temp_dir := PurePath.joinpath base_dir temp_dir_name in
    let zip_path := PurePath.joinpath base_dir zip_file_name in
    dict_get "zip" config = Some (TTable zip_config) ->
    zip_config <> [] ->
    render_path (dict_get_default "file_name" (TStr "output.zip") zip_config) variables
      = Some zip_file_name ->
    truthy (dict_get_default "output_enabled" (TBool true) zip_config) = true ->
    truthy_opt (dict_get "password" zip_config) = false ->
    stage variables base_dir temp_dir temp_dir_name verbose log_path (file_sections config) w
      = (Return tt, w1) ->
    resolve_key (cwd w1) zip_path = Some kz ->
    is_dir (fs w1) kz = true ->
    process_files config base_dir verbose log_path w
    = (Raise IsADirectoryError, add_calls [CallZipFile zip_path "w" "ZIP_DEFLATED"] w1).
Proof.
  intros config zip_config zip_file_name base_dir verbose log_path kz w w1
         variables temp_dir_name temp_dir zip_path Hzip Hne Hname Hon Hpw Hstage Hkz Hdir.
  rewrite (process_files_unfold config zip_config zip_file_name) by assumption.
  cbv zeta. fold variables temp_dir_name temp_dir zip_path.
  rewrite (bind_return _ _ _ _ _ Hstage).
  unfold write_zip. rewrite Hon, Hpw.
  assert (Hopen : zip_open zip_path w1
                  = (Raise IsADirectoryError,
                     add_calls [CallZipFile zip_path "w" "ZIP_DEFLATED"] w1)).
  { unfold zip_open, bind, record_call, resolve. cbn [cwd]. rewrite Hkz.
    now rewrite create_file_on_dir. }
  unfold zip_plain.
  now rewrite (bind_raise _ _ _ _ _ (bind_raise _ _ _ _ _ (bind_raise _ _ _ _ _ Hopen))).
Qed.

Lemma archive_path_directory_witness :
  let config :=
    [ ("variables", Sample.variables);
      ("zip", TTable [("file_name", TStr "sample")]);
      ("file1", TTable [("from", TStr "{{name}}/foobar.txt"); ("to", TStr "renamed_foobar.txt")]) ] in
  let w1 := snd (stage Sample.variables Sample.base_dir Sample.temp_dir "sample" true None
                   (file_sections config) Sample.w0) in
  process_files config Sample.base_dir true None Sample.w0
  = (Raise IsADirectoryError,
     add_calls [CallZipFile (PurePath.joinpath Sample.base_dir "sample") "w" "ZIP_DEFLATED"] w1).
Proof.
  apply (archive_path_that_is_a_directory_stops_the_run
           [ ("variables", Sample.variables);
             ("zip", TTable [("file_name", TStr "sample")]);
             ("file1", TTable [("from", TStr "{{name}}/foobar.txt");
                               ("to", TStr "renamed_foobar.txt")]) ]
           [("file_name", TStr "sample")] "sample" Sample.base_dir true None ["tmp"; "sample"]
           Sample.w0);
    first [ discriminate | vm_compute; reflexivity ].
Defined.

(** X9: when the log cannot be created because a directory on the way to it
    is missing (or is a file), the run stops there with the error of the
    system, before any rule is looked at: the file system is untouched and
    the only call made is the failed opening of the log. *)
Theorem log_that_cannot_be_created_stops_the_run :
  forall (config zip_config : py_dict) (zip_file_name : string) (base_dir : PurePath.t)
         (verbose : bool) (lp : PurePath.t) (kl : key) (e : exn) (w : world),
    dict_get "zip" config = Some (TTable zip_config) ->
    zip_config <> [] ->
    render_path (dict_get_default "file_name" (TStr "output.zip") zip_config)
                (dict_get_default "variables" (TTable []) config) = Some zip_file_name ->
    resolve_key (cwd w) lp = Some kl ->
    is_dir (fs w) kl = false ->
    check_dirs (fs w) [] (removelast kl) = Some e ->
    process_files config base_dir verbose (Some lp) w
    = (Raise e, add_calls [CallOpen lp "w"] w).
Proof.
  intros config zip_config zip_file_name base_dir verbose lp kl e w
         Hzip Hne Hname Hkl Hdir Hcheck.
  rewrite (process_files_unfold config zip_config zip_file_name) by assumption.
  cbv zeta.
  assert (Hheader : write_log_header lp w = (Raise e, add_calls [CallOpen lp "w"] w)).
  { unfold write_log_header, bind, record_call, resolve. cbn [cwd]. rewrite Hkl.
    now rewrite (create_file_no_parent _ _ e) by assumption. }
  unfold stage, log_if.
  now rewrite (bind_raise _ _ _ _ _ (bind_raise _ _ _ _ _ Hheader)).
Qed.

Lemma log_that_cannot_be_created_witness :
  process_files Sample.config Sample.base_dir true (Some (PurePath.parse "/tmp/logs/op.log"))
    Sample.w0
  = (Raise FileNotFoundError,
     add_calls [CallOpen (PurePath.parse "/tmp/logs/op.log") "w"] Sample.w0).
Proof.
  apply (log_that_cannot_be_created_stops_the_run Sample.config
           [("file_name", TStr "sample.zip")] "sample.zip" Sample.base_dir true
           (PurePath.parse "/tmp/logs/op.log") ["tmp"; "logs"; "op.log"] FileNotFoundError
           Sample.w0);
    first [ discriminate | vm_compute; reflexivity ].
Defined.

(** ** What the [verbose] flag changes *)

(** *** A quiet run prints nothing *)

Lemma silent_pure {A} (m : M A) : (forall w, stdout (snd (m w)) = stdout w) -> silent m.
Proof. auto. Qed.

Lemma silent_ret {A} (a : A) : silent (ret a).
Proof. now intros w. Qed.

Lemma silent_raise {A} (e : exn) : silent (@raise A e).
Proof. now intros w. Qed.

Lemma silent_outside {A} : silent (@outside_model A).
Proof. now intros w. Qed.

Lemma silent_get_fs : silent get_fs.
Proof. now intros w. Qed.

Lemma silent_put_fs f : silent (put_fs f).
Proof. now intros w. Qed.

Lemma silent_now : silent now.
Proof. now intros w. Qed.

Lemma silent_record c : silent (record_call c).
Proof. now intros w. Qed.

Lemma silent_resolve p : silent (resolve p).
Proof. intros w. unfold resolve. now destruct (resolve_key (cwd w) p). Qed.

Lemma silent_bind {A B} (m : M A) (k : A -> M B) :
  silent m -> (forall a, silent (k a)) -> silent (bind m k).
Proof.
  intros Hm Hk w. unfold bind. specialize (Hm w).
  destruct (m w) as [[a | e |] w1]; cbn [snd] in *; [| exact Hm..].
  now rewrite Hk.
Qed.

Lemma silent_log_if (lp : option PurePath.t) (m : PurePath.t -> M unit) :
  (forall p, silent (m p)) -> silent (log_if lp m).
Proof. intros H. destruct lp; [apply H | apply silent_ret]. Qed.

Lemma silent_for_each {A} (body : A -> M unit) (l : list A) :
  (forall x, silent (body x)) -> silent (for_each body l).
Proof.
  intros Hb. induction l as [| x l IH]; [apply silent_ret |].
  simpl. apply silent_bind; auto.
Qed.

Lemma silent_map_m {A B} (f : A -> M B) (l : list A) :
  (forall x, silent (f x)) -> silent (map_m f l).
Proof.
  intros Hf. induction l as [| x l IH]; [apply silent_ret |].
  simpl. apply silent_bind; [auto |]. intros y.
  apply silent_bind; [auto |]. intros ys. apply silent_ret.
Qed.

(** Goals [silent m] for the actions of this file that do not call
    [print]. *)
Ltac silent_step :=
  lazymatch goal with
  | |- silent (if false then _ else _) => cbv iota
  | |- silent (when false _) => apply silent_ret
  | |- silent (bind _ _) => apply silent_bind; [| intros ?]
  | |- silent (ret _) => apply silent_ret
  | |- silent (raise _) => apply silent_raise
  | |- silent outside_model => apply silent_outside
  | |- silent get_fs => apply silent_get_fs
  | |- silent (put_fs _) => apply silent_put_fs
  | |- silent now => apply silent_now
  | |- silent (resolve _) => apply silent_resolve
  | |- silent (record_call _) => apply silent_record
  | |- silent (log_if _ _) => apply silent_log_if; intros ?
  | |- silent (for_each _ _) => apply silent_for_each; intros ?
  | |- silent (map_m _ _) => apply silent_map_m; intros ?
  | |- silent (match ?x with _ => _ end) => destruct x
  end.

Ltac silent_tac := repeat silent_step.

Lemma silent_read_files (kz : key) (files : list PurePath.t) : silent (read_files kz files).
Proof.
  induction files as [| p files IH]; simpl; [apply silent_ret |].
  silent_tac; apply IH.
Qed.

Lemma silent_copy_rule (variables : toml) (base_dir temp_dir : PurePath.t)
    (temp_dir_name : string) (log_path : option PurePath.t) (section : string * toml) :
  silent (copy_rule variables base_dir temp_dir temp_dir_name false log_path section).
Proof.
  destruct section as [section_name file_config].
  unfold copy_rule, copy_rendered, path_exists, mkdir_parents, copy2, append_log.
  silent_tac.
Qed.

Lemma silent_write_zip (temp_dir : PurePath.t) (temp_dir_name : string)
    (log_path : option PurePath.t) (zip_file_name : string) (zip_path : PurePath.t)
    (zip_output_enabled : toml) (zip_password : option toml) :
  silent (write_zip temp_dir temp_dir_name false log_path zip_file_name zip_path
            zip_output_enabled zip_password).
Proof.
  unfold write_zip, zip_plain, zip_encrypted, zip_add, zip_open, zip_write, rglob_files,
    compress_multiple, create_file, append_log, relative_to.
  silent_tac; apply silent_read_files.
Qed.

(** X10: a quiet run prints nothing, however it ends: what has been printed
    when [process_files] is left with [verbose] false is what had been
    printed when it was entered. *)
Theorem quiet_run_prints_nothing :
  forall (config : py_dict) (base_dir : PurePath.t) (log_path : option PurePath.t) (w : world),
    stdout (snd (process_files config base_dir false log_path w)) = stdout w.
Proof.
  intros config base_dir log_path.
  change (silent (process_files config base_dir false log_path)).
  unfold process_files, stage, write_log_header, create_file.
  silent_tac; first [ apply silent_copy_rule | apply silent_write_zip ].
Qed.

(** *** A quiet run does what the verbose run does *)

Lemma same_but_stdout_refl (w : world) : same_but_stdout w w.
Proof. now repeat split. Qed.

Lemma blind_ret {A} (a : A) : stdout_blind (ret a).
Proof. now intros w w' H. Qed.

Lemma blind_raise {A} (e : exn) : stdout_blind (@raise A e).
Proof. now intros w w' H. Qed.

Lemma blind_outside {A} : stdout_blind (@outside_model A).
Proof. now intros w w' H. Qed.

Lemma blind_get_fs : stdout_blind get_fs.
Proof. intros w w' H. split; [cbn; f_equal; apply H | exact H]. Qed.

Lemma blind_put_fs f : stdout_blind (put_fs f).
Proof. intros w w' (Hfs & Hcwd & Hclock & Hticks & Hcalls). now repeat split. Qed.

Lemma blind_print line : stdout_blind (print line).
Proof. intros w w' (Hfs & Hcwd & Hclock & Hticks & Hcalls). now repeat split. Qed.

Lemma blind_now : stdout_blind now.
Proof.
  intros w w' (Hfs & Hcwd & Hclock & Hticks & Hcalls). cbn.
  rewrite Hclock, Hticks. now repeat split.
Qed.

Lemma blind_record c : stdout_blind (record_call c).
Proof.
  intros w w' (Hfs & Hcwd & Hclock & Hticks & Hcalls). cbn. rewrite Hcalls. now repeat split.
Qed.

Lemma blind_resolve p : stdout_blind (resolve p).
Proof.
  intros w w' H. unfold resolve. destruct H as (Hfs & Hcwd & Hrest). rewrite Hcwd.
  destruct (resolve_key (cwd w') p); cbn; (split; [reflexivity | now repeat split]).
Qed.

Lemma blind_bind {A B} (m : M A) (k : A -> M B) :
  stdout_blind m -> (forall a, stdout_blind (k a)) -> stdout_blind (bind m k).
Proof.
  intros Hm Hk w w' H. unfold bind. destruct (Hm w w' H) as [Hfst Hsnd].
  destruct (m w) as [o w1], (m w') as [o' w1']. cbn [fst snd] in Hfst, Hsnd. subst o'.
  destruct o as [a | e |]; [now apply Hk | now split..].
Qed.

Lemma blind_when (b : bool) (m : M unit) : stdout_blind m -> stdout_blind (when b m).
Proof. destruct b; [auto | intros _; apply blind_ret]. Qed.

Lemma blind_log_if (lp : option PurePath.t) (m : PurePath.t -> M unit) :
  (forall p, stdout_blind (m p)) -> stdout_blind (log_if lp m).
Proof. intros H. destruct lp; [apply H | apply blind_ret]. Qed.

Lemma blind_for_each {A} (body : A -> M unit) (l : list A) :
  (forall x, stdout_blind (body x)) -> stdout_blind (for_each body l).
Proof.
  intros Hb. induction l as [| x l IH]; [apply blind_ret |].
  simpl. apply blind_bind; auto.
Qed.

Lemma blind_map_m {A B} (f : A -> M B) (l : list A) :
  (forall x, stdout_blind (f x)) -> stdout_blind (map_m f l).
Proof.
  intros Hf. induction l as [| x l IH]; [apply blind_ret |].
  simpl. apply blind_bind; [auto |]. intros y.
  apply blind_bind; [auto |]. intros ys. apply blind_ret.
Qed.

Ltac blind_step :=
  lazymatch goal with
  | |- stdout_blind (bind _ _) => apply blind_bind; [| intros ?]
  | |- stdout_blind (ret _) => apply blind_ret
  | |- stdout_blind (raise _) => apply blind_raise
  | |- stdout_blind outside_model => apply blind_outside
  | |- stdout_blind get_fs => apply blind_get_fs
  | |- stdout_blind (put_fs _) => apply blind_put_fs
  | |- stdout_blind (print _) => apply blind_print
  | |- stdout_blind now => apply blind_now
  | |- stdout_blind (resolve _) => apply blind_resolve
  | |- stdout_blind (record_call _) => apply blind_record
  | |- stdout_blind (when _ _) => apply blind_when
  | |- stdout_blind (log_if _ _) => apply blind_log_if; intros ?
  | |- stdout_blind (for_each _ _) => apply blind_for_each; intros ?
  | |- stdout_blind (map_m _ _) => apply blind_map_m; intros ?
  | |- stdout_blind (match ?x with _ => _ end) => destruct x
  end.

Ltac blind_tac := repeat blind_step.

Lemma blind_read_files (kz : key) (files : list PurePath.t) : stdout_blind (read_files kz files).
Proof.
  induction files as [| p files IH]; simpl; [apply blind_ret |].
  blind_tac; apply IH.
Qed.

Lemma blind_path_exists p : stdout_blind (path_exists p).
Proof. unfold path_exists. blind_tac. Qed.

Lemma blind_mkdir_parents p : stdout_blind (mkdir_parents p).
Proof. unfold mkdir_parents. blind_tac. Qed.

Lemma blind_copy2 src dst : stdout_blind (copy2 src dst).
Proof. unfold copy2. blind_tac. Qed.

Lemma blind_create_file k content : stdout_blind (create_file k content).
Proof. unfold create_file. blind_tac. Qed.

Lemma blind_append_log lp op src dst : stdout_blind (append_log lp op src dst).
Proof. unfold append_log. blind_tac. Qed.

Lemma blind_rglob_files p : stdout_blind (rglob_files p).
Proof. unfold rglob_files. blind_tac. Qed.

Lemma blind_zip_open p : stdout_blind (zip_open p).
Proof. unfold zip_open. blind_tac. apply blind_create_file. Qed.

Lemma blind_zip_write zip_path file arcname : stdout_blind (zip_write zip_path file arcname).
Proof. unfold zip_write. blind_tac. Qed.

Lemma blind_compress_multiple files prefixes zip_path password level :
  stdout_blind (compress_multiple files prefixes zip_path password level).
Proof.
  unfold compress_multiple. blind_tac; [apply blind_read_files | apply blind_create_file].
Qed.

Lemma blind_relative_to p other : stdout_blind (relative_to p other).
Proof. unfold relative_to. blind_tac. Qed.

Lemma blind_write_log_header lp : stdout_blind (write_log_header lp).
Proof. unfold write_log_header. blind_tac. apply blind_create_file. Qed.

Lemma quiet_follows_blind {A} (m : M A) : stdout_blind m -> quiet_follows m m.
Proof. intros Hm w w' H. right. now apply Hm. Qed.

Lemma quiet_follows_bind {A B} (mv mq : M A) (kv kq : A -> M B) :
  quiet_follows mv mq -> (forall a, quiet_follows (kv a) (kq a)) ->
  quiet_follows (bind mv kv) (bind mq kq).
Proof.
  intros Hm Hk w w' H. unfold bind. destruct (Hm w w' H) as [Hexit | [Hfst Hsnd]].
  - left. destruct (mv w) as [o w1]. cbn [fst] in Hexit. now subst o.
  - destruct (mv w) as [o w1], (mq w') as [o' w1']. cbn [fst snd] in Hfst, Hsnd. subst o'.
    destruct o as [a | e |]; [now apply Hk | right; now split..].
Qed.

Lemma quiet_follows_print (line : string) : quiet_follows (print line) (ret tt).
Proof. intros w w' (Hfs & Hcwd & Hclock & Hticks & Hcalls). right. now repeat split. Qed.

Lemma quiet_follows_skip (mv1 mv2 : M unit) :
  quiet_follows mv1 (ret tt) -> quiet_follows mv2 (ret tt) ->
  quiet_follows (mv1 ;;; mv2) (ret tt).
Proof. intros H1 H2. exact (quiet_follows_bind mv1 (ret tt) _ (fun _ => ret tt) H1 (fun _ => H2)). Qed.

Lemma quiet_follows_when (mv : M unit) :
  quiet_follows mv (ret tt) -> quiet_follows (when true mv) (when false mv).
Proof. auto. Qed.

Lemma quiet_follows_exit {A} (line : string) (mq : M A) :
  quiet_follows (print line ;;; raise (SystemExit None)) mq.
Proof. intros w w' H. now left. Qed.

Lemma quiet_follows_for_each {A} (bv bq : A -> M unit) (l : list A) :
  (forall x, quiet_follows (bv x) (bq x)) -> quiet_follows (for_each bv l) (for_each bq l).
Proof.
  intros Hb. induction l as [| x l IH]; [apply quiet_follows_blind, blind_ret |].
  simpl. apply quiet_follows_bind; auto.
Qed.

Lemma quiet_follows_prints {A} (line : A -> string) (l : list A) :
  quiet_follows (for_each (fun x => print (line x)) l) (ret tt).
Proof.
  induction l as [| x l IH]; [apply quiet_follows_blind, blind_ret |].
  simpl. apply quiet_follows_skip; [apply quiet_follows_print | exact IH].
Qed.

Create HintDb blind.

#[local] Hint Resolve blind_path_exists blind_mkdir_parents blind_copy2 blind_append_log
  blind_rglob_files blind_zip_open blind_zip_write blind_compress_multiple blind_relative_to
  blind_write_log_header blind_ret blind_raise blind_outside : blind.

(** Goals [quiet_follows mv mq] where [mv] and [mq] are the same action but
    for the flag. *)
Ltac follows_step :=
  lazymatch goal with
  | |- quiet_follows (bind (print _) (fun _ => raise (SystemExit None))) _ =>
      apply quiet_follows_exit
  | |- quiet_follows (when true _) (when false _) => apply quiet_follows_when
  | |- quiet_follows (print _) (ret tt) => apply quiet_follows_print
  | |- quiet_follows (for_each (fun x => print _) _) (ret tt) =>
      apply (quiet_follows_prints (fun x => _))
  | |- quiet_follows (when ?b _) (ret tt) => destruct b; cbv beta iota delta [when]
  | |- quiet_follows (bind _ _) (ret tt) => apply quiet_follows_skip
  | |- quiet_follows (bind _ _) (bind _ _) => apply quiet_follows_bind; [| intros ?]
  | |- quiet_follows (for_each _ _) (for_each _ _) => apply quiet_follows_for_each; intros ?
  | |- quiet_follows (log_if ?lp _) (log_if ?lp _) =>
      apply quiet_follows_blind, blind_log_if; intros ?
  | |- quiet_follows (match ?x with _ => _ end) (match ?x with _ => _ end) => destruct x
  | |- quiet_follows ?m ?m => apply quiet_follows_blind
  | |- stdout_blind _ => first [ solve [auto with blind] | blind_step ]
  end.

Ltac follows_tac := repeat follows_step.

Lemma quiet_follows_copy_rule (variables : toml) (base_dir temp_dir : PurePath.t)
    (temp_dir_name : string) (log_path : option PurePath.t) (section : string * toml) :
  quiet_follows (copy_rule variables base_dir temp_dir temp_dir_name true log_path section)
                (copy_rule variables base_dir temp_dir temp_dir_name false log_path section).
Proof.
  destruct section as [section_name file_config].
  unfold copy_rule, copy_rendered. follows_tac.
Qed.

Lemma quiet_follows_write_zip (temp_dir : PurePath.t) (temp_dir_name : string)
    (log_path : option PurePath.t) (zip_file_name : string) (zip_path : PurePath.t)
    (zip_output_enabled : toml) (zip_password : option toml) :
  quiet_follows (write_zip temp_dir temp_dir_name true log_path zip_file_name zip_path
                   zip_output_enabled zip_password)
                (write_zip temp_dir temp_dir_name false log_path zip_file_name zip_path
                   zip_output_enabled zip_password).
Proof.
  unfold write_zip, zip_plain, zip_encrypted, zip_add. follows_tac.
Qed.

Lemma quiet_follows_process_files (config : py_dict) (base_dir : PurePath.t)
    (log_path : option PurePath.t) :
  quiet_follows (process_files config base_dir true log_path)
                (process_files config base_dir false log_path).
Proof.
  unfold process_files, stage.
  follows_tac; first [ apply quiet_follows_copy_rule | apply quiet_follows_write_zip ].
Qed.

(** X11: the [verbose] flag is about printing only, the stop at a missing
    source apart.  Unless the verbose run is stopped by [sys.exit()], the
    quiet run from the same world ends the same way (the same result or the
    same exception) with the same file system, clock readings and library
    calls. *)
Theorem quiet_run_follows_verbose_run :
  forall (config : py_dict) (base_dir : PurePath.t) (log_path : option PurePath.t) (w : world),
    let rv := process_files config base_dir true log_path w in
    let rq := process_files config base_dir false log_path w in
    fst rv <> Raise (SystemExit None) ->
    fst rq = fst rv /\ same_but_stdout (snd rv) (snd rq).
Proof.
  intros config base_dir log_path w rv rq Hexit.
  destruct (quiet_follows_process_files config base_dir log_path w w (same_but_stdout_refl w))
    as [H | [H1 H2]]; [contradiction |].
  split; [symmetry; exact H1 | exact H2].
Qed.

Lemma quiet_run_follows_witness :
  let rv := process_files Sample.config Sample.base_dir true (Some Sample.log_path) Sample.w0 in
  let rq := process_files Sample.config Sample.base_dir false (Some Sample.log_path) Sample.w0 in
  fst rq = fst rv /\ same_but_stdout (snd rv) (snd rq).
Proof.
  apply (quiet_run_follows_verbose_run Sample.config Sample.base_dir (Some Sample.log_path)
           Sample.w0).
  vm_compute. discriminate.
Defined.

(** ** Nothing is removed *)

Lemma kinds_kept_refl (f : gmap key node) : kinds_kept f f.
Proof. now intros k. Qed.

Lemma kinds_kept_trans (f g h : gmap key node) :
  kinds_kept f g -> kinds_kept g h -> kinds_kept f h.
Proof.
  intros Hfg Hgh k. destruct (Hfg k) as [D1 F1], (Hgh k) as [D2 F2]. split; auto.
Qed.

(** Writing a regular file where no directory is. *)
Lemma kinds_kept_insert_file (f : gmap key node) (k : key) (content : data) (mtime : Z) :
  node_at f k <> Some Dir -> kinds_kept f (<[k := File content mtime]> f).
Proof.
  intros Hk k'. unfold is_file. destruct (decide (k' = k)) as [-> | Hne].
  - rewrite lookup_insert_eq. split; [| reflexivity].
    intros Hd. exfalso. apply Hk. destruct k; [reflexivity | exact Hd].
  - now rewrite lookup_insert_ne by congruence.
Qed.

(** Making a directory where nothing is. *)
Lemma kinds_kept_insert_dir (f : gmap key node) (k : key) :
  f !! k = None -> kinds_kept f (<[k := Dir]> f).
Proof.
  intros Hk k'. unfold is_file. destruct (decide (k' = k)) as [-> | Hne].
  - rewrite lookup_insert_eq, Hk. split; [reflexivity | discriminate].
  - now rewrite lookup_insert_ne by congruence.
Qed.

Lemma kinds_kept_mkdirs (rest pre : key) (f f' : gmap key node) :
  mkdirs f pre rest = inr f' -> kinds_kept f f'.
Proof.
  revert pre f. induction rest as [| c rest IH]; intros pre f; cbn [mkdirs].
  - intros [= <-]. apply kinds_kept_refl.
  - destruct (f !! (pre ++ [c])) as [[| content mtime] |] eqn:Hc; [apply IH | discriminate |].
    intros H. apply (kinds_kept_trans _ (<[pre ++ [c] := Dir]> f)); [| exact (IH _ _ H)].
    now apply kinds_kept_insert_dir.
Qed.

Lemma keeps_kinds_pure {A} (m : M A) : (forall w, fs (snd (m w)) = fs w) -> keeps_kinds m.
Proof. intros H w. rewrite H. apply kinds_kept_refl. Qed.

Lemma keeps_kinds_ret {A} (a : A) : keeps_kinds (ret a).
Proof. now apply keeps_kinds_pure. Qed.

Lemma keeps_kinds_raise {A} (e : exn) : keeps_kinds (@raise A e).
Proof. now apply keeps_kinds_pure. Qed.

Lemma keeps_kinds_outside {A} : keeps_kinds (@outside_model A).
Proof. now apply keeps_kinds_pure. Qed.

Lemma keeps_kinds_print line : keeps_kinds (print line).
Proof. now apply keeps_kinds_pure. Qed.

Lemma keeps_kinds_record c : keeps_kinds (record_call c).
Proof. now apply keeps_kinds_pure. Qed.

Lemma keeps_kinds_resolve p : keeps_kinds (resolve p).
Proof.
  apply keeps_kinds_pure. intros w. unfold resolve. now destruct (resolve_key (cwd w) p).
Qed.

Lemma keeps_kinds_bind {A B} (m : M A) (k : A -> M B) :
  keeps_kinds m -> (forall a, keeps_kinds (k a)) -> keeps_kinds (bind m k).
Proof.
  intros Hm Hk w. unfold bind. specialize (Hm w).
  destruct (m w) as [[a | e |] w1]; cbn [snd] in *; [| exact Hm..].
  exact (kinds_kept_trans _ _ _ Hm (Hk a w1)).
Qed.

Lemma keeps_kinds_when (b : bool) (m : M unit) : keeps_kinds m -> keeps_kinds (when b m).
Proof. destruct b; [auto | intros _; apply keeps_kinds_ret]. Qed.

Lemma keeps_kinds_log_if (lp : option PurePath.t) (m : PurePath.t -> M unit) :
  (forall p, keeps_kinds (m p)) -> keeps_kinds (log_if lp m).
Proof. intros H. destruct lp; [apply H | apply keeps_kinds_ret]. Qed.

Lemma keeps_kinds_for_each {A} (body : A -> M unit) (l : list A) :
  (forall x, keeps_kinds (body x)) -> keeps_kinds (for_each body l).
Proof.
  intros Hb. induction l as [| x l IH]; [apply keeps_kinds_ret |].
  simpl. apply keeps_kinds_bind; auto.
Qed.

Lemma keeps_kinds_map_m {A B} (f : A -> M B) (l : list A) :
  (forall x, keeps_kinds (f x)) -> keeps_kinds (map_m f l).
Proof.
  intros Hf. induction l as [| x l IH]; [apply keeps_kinds_ret |].
  simpl. apply keeps_kinds_bind; [auto |]. intros y.
  apply keeps_kinds_bind; [auto |]. intros ys. apply keeps_kinds_ret.
Qed.

(** The actions that write to the file system. *)
Lemma keeps_kinds_mkdirs_step (k : key) :
  keeps_kinds (f <- get_fs ;; match mkdirs f [] k with inl e => raise e | inr f' => put_fs f' end).
Proof.
  intros w. unfold bind, get_fs. destruct (mkdirs (fs w) [] k) as [e | f'] eqn:H; cbn.
  - apply kinds_kept_refl.
  - exact (kinds_kept_mkdirs _ _ _ _ H).
Qed.

Lemma keeps_kinds_create_file (k : key) (content : data) : keeps_kinds (create_file k content).
Proof.
  intros w. unfold create_file, bind, get_fs.
  destruct (node_at (fs w) k) as [[| c m] |] eqn:Hk;
    [apply kinds_kept_refl | | ];
    (destruct (check_dirs (fs w) [] (removelast k)); cbn;
     [apply kinds_kept_refl | apply kinds_kept_insert_file; congruence]).
Qed.

Lemma keeps_kinds_copy_step (src : PurePath.t) (ks kd : key) :
  keeps_kinds
    (f <- get_fs ;;
     let kd' := match node_at f kd with
                | Some Dir => kd ++ match PurePath.parts src with
                                    | [] => []
                                    | _ => [PurePath.name src]
                                    end
                | _ => kd
                end in
     match node_at f ks with
     | None => raise FileNotFoundError
     | Some n =>
         if decide (ks = kd') then raise SameFileError
         else match n with
              | Dir => raise IsADirectoryError
              | File content mtime =>
                  match node_at f kd' with
                  | Some Dir => raise IsADirectoryError
                  | _ =>
                      match check_dirs f [] (removelast kd') with
                      | Some e => raise e
                      | None => put_fs (<[kd' := File content mtime]> f)
                      end
                  end
              end
     end).
Proof.
  intros w. unfold bind, get_fs. cbv zeta.
  set (kd' := match node_at (fs w) kd with Some Dir => _ | _ => kd end).
  destruct (node_at (fs w) ks) as [[| content mtime] |]; [| | apply kinds_kept_refl].
  - destruct (decide (ks = kd')); apply kinds_kept_refl.
  - destruct (decide (ks = kd')); [apply kinds_kept_refl |].
    destruct (node_at (fs w) kd') as [[| c m] |] eqn:Hd;
      [apply kinds_kept_refl | | ];
      (destruct (check_dirs (fs w) [] (removelast kd')); cbn;
       [apply kinds_kept_refl | apply kinds_kept_insert_file; congruence]).
Qed.

Lemma keeps_kinds_append_step (k : key) (op src dst : string) :
  keeps_kinds
    (f <- get_fs ;;
     match node_at f k with
     | Some Dir => raise IsADirectoryError
     | Some (File (Log entries) _) =>
         ts <- now ;;
         mt <- now ;;
         put_fs (<[k := File (Log (entries ++ [mk_entry ts op src dst])) mt]> f)
     | _ => outside_model
     end).
Proof.
  intros w. unfold bind, get_fs.
  destruct (node_at (fs w) k) as [[| [| entries | |] m] |] eqn:Hk; cbn;
    try apply kinds_kept_refl.
  apply kinds_kept_insert_file. congruence.
Qed.

Lemma keeps_kinds_zip_write_step (kz kf : key) (arcname : PurePath.t) :
  keeps_kinds
    (f <- get_fs ;;
     if decide (kz = kf) then outside_model
     else match node_at f kf, node_at f kz with
          | Some (File content _), Some (File (Zip members) _) =>
              t <- now ;;
              put_fs (<[kz := File (Zip (members ++ [(PurePath.to_string arcname, content)])) t]> f)
          | Some (File _ _), _ => outside_model
          | Some Dir, _ => raise IsADirectoryError
          | None, _ => raise FileNotFoundError
          end).
Proof.
  intros w. unfold bind, get_fs. destruct (decide (kz = kf)); [apply kinds_kept_refl |].
  destruct (node_at (fs w) kf) as [[| content m] |]; try apply kinds_kept_refl.
  destruct (node_at (fs w) kz) as [[| [| | members |] mz] |] eqn:Hz; cbn;
    try apply kinds_kept_refl.
  apply kinds_kept_insert_file. congruence.
Qed.

Ltac keeps_step :=
  lazymatch goal with
  | |- keeps_kinds (bind get_fs (fun f => match mkdirs f _ _ with _ => _ end)) =>
      apply keeps_kinds_mkdirs_step
  | |- keeps_kinds (bind get_fs (fun f => ret _)) =>
      apply keeps_kinds_pure; intros ?; reflexivity
  | |- keeps_kinds (bind get_fs _) => fail
  | |- keeps_kinds (bind _ _) => apply keeps_kinds_bind; [| intros ?]
  | |- keeps_kinds (ret _) => apply keeps_kinds_ret
  | |- keeps_kinds (raise _) => apply keeps_kinds_raise
  | |- keeps_kinds outside_model => apply keeps_kinds_outside
  | |- keeps_kinds (print _) => apply keeps_kinds_print
  | |- keeps_kinds (resolve _) => apply keeps_kinds_resolve
  | |- keeps_kinds (record_call _) => apply keeps_kinds_record
  | |- keeps_kinds (create_file _ _) => apply keeps_kinds_create_file
  | |- keeps_kinds (when _ _) => apply keeps_kinds_when
  | |- keeps_kinds (log_if _ _) => apply keeps_kinds_log_if; intros ?
  | |- keeps_kinds (for_each _ _) => apply keeps_kinds_for_each; intros ?
  | |- keeps_kinds (map_m _ _) => apply keeps_kinds_map_m; intros ?
  | |- keeps_kinds (match ?x with _ => _ end) => destruct x
  end.

Ltac keeps_tac := repeat keeps_step.

Lemma keeps_kinds_path_exists p : keeps_kinds (path_exists p).
Proof. unfold path_exists. keeps_tac. Qed.

Lemma keeps_kinds_mkdir_parents p : keeps_kinds (mkdir_parents p).
Proof. unfold mkdir_parents. keeps_tac. Qed.

Lemma keeps_kinds_copy2 src dst : keeps_kinds (copy2 src dst).
Proof. unfold copy2. keeps_tac. apply keeps_kinds_copy_step. Qed.

Lemma keeps_kinds_append_log lp op src dst : keeps_kinds (append_log lp op src dst).
Proof. unfold append_log. keeps_tac. apply keeps_kinds_append_step. Qed.

Lemma keeps_kinds_rglob_files p : keeps_kinds (rglob_files p).
Proof. unfold rglob_files. keeps_tac. Qed.

Lemma keeps_kinds_zip_write zip_path file arcname :
  keeps_kinds (zip_write zip_path file arcname).
Proof. unfold zip_write. keeps_tac. apply keeps_kinds_zip_write_step. Qed.

Lemma keeps_kinds_read_files (kz : key) (files : list PurePath.t) :
  keeps_kinds (read_files kz files).
Proof.
  apply keeps_kinds_pure. induction files as [| p files IH]; intros w; [reflexivity |].
  cbn [read_files]. unfold bind, resolve, get_fs.
  destruct (resolve_key (cwd w) p) as [k |]; [| reflexivity].
  destruct (decide (kz = k)); [reflexivity |].
  destruct (node_at (fs w) k) as [[| content m] |]; try reflexivity.
  specialize (IH w). now destruct (read_files kz files w) as [[rest | e |] w1].
Qed.

Lemma keeps_kinds_relative_to p other : keeps_kinds (relative_to p other).
Proof. unfold relative_to. keeps_tac. Qed.

Lemma keeps_kinds_copy_rule (variables : toml) (base_dir temp_dir : PurePath.t)
    (temp_dir_name : string) (verbose : bool) (log_path : option PurePath.t)
    (section : string * toml) :
  keeps_kinds (copy_rule variables base_dir temp_dir temp_dir_name verbose log_path section).
Proof.
  destruct section as [section_name file_config].
  unfold copy_rule, copy_rendered.
  keeps_tac;
    first [ apply keeps_kinds_path_exists | apply keeps_kinds_mkdir_parents
          | apply keeps_kinds_copy2 | apply keeps_kinds_append_log ].
Qed.

Lemma keeps_kinds_write_zip (temp_dir : PurePath.t) (temp_dir_name : string) (verbose : bool)
    (log_path : option PurePath.t) (zip_file_name : string) (zip_path : PurePath.t)
    (zip_output_enabled : toml) (zip_password : option toml) :
  keeps_kinds (write_zip temp_dir temp_dir_name verbose log_path zip_file_name zip_path
                 zip_output_enabled zip_password).
Proof.
  unfold write_zip, zip_plain, zip_encrypted, zip_add, zip_open, compress_multiple.
  keeps_tac;
    first [ apply keeps_kinds_rglob_files | apply keeps_kinds_relative_to
          | apply keeps_kinds_read_files | apply keeps_kinds_append_log
          | apply keeps_kinds_zip_write ].
Qed.

(** X12: a run removes nothing, however it ends.  Whatever the manifest, a
    location that held a directory when [process_files] was entered holds a
    directory when it is left, and one that held a regular file holds a
    regular file (its content may have been overwritten): a staging
    directory, an archive or a log that are already there are written into,
    never deleted first. *)
Theorem run_removes_nothing :
  forall (config : py_dict) (base_dir : PurePath.t) (verbose : bool)
         (log_path : option PurePath.t) (w : world),
    kinds_kept (fs w) (fs (snd (process_files config base_dir verbose log_path w))).
Proof.
  intros config base_dir verbose log_path.
  change (keeps_kinds (process_files config base_dir verbose log_path)).
  unfold process_files, stage, write_log_header.
  keeps_tac; first [ apply keeps_kinds_copy_rule | apply keeps_kinds_write_zip ].
Qed.

(** ** What the log records *)

Lemma bind_inv {A B} (m : M A) (k : A -> M B) (w w' : world) (b : B) :
  bind m k w = (Return b, w') ->
  exists a w1, m w = (Return a, w1) /\ k a w1 = (Return b, w').
Proof. unfold bind. destruct (m w) as [[a | e |] w1]; [eauto | discriminate..]. Qed.

Lemma mkdirs_lookup_kept (rest : key) :
  forall (pre : key) (f f' : gmap key node) (k : key) (n : node),
    mkdirs f pre rest = inr f' -> f !! k = Some n -> f' !! k = Some n.
Proof.
  induction rest as [| c rest IH]; intros pre f f' k n; cbn [mkdirs].
  - now intros [= <-].
  - destruct (f !! (pre ++ [c])) as [[| content mtime] |] eqn:Hc; [apply IH | discriminate |].
    intros H Hk. apply (IH _ _ _ _ _ H). rewrite lookup_insert_ne; [exact Hk | congruence].
Qed.

Lemma path_exists_inv (p : PurePath.t) (b : bool) (w w1 : world) :
  path_exists p w = (Return b, w1) -> w1 = add_calls [CallExists p] w.
Proof.
  unfold path_exists, bind, record_call, resolve, get_fs, ret. cbn [cwd].
  destruct (resolve_key (cwd w) p); [| discriminate]. now intros [= _ <-].
Qed.

Lemma mkdir_parents_inv (p : PurePath.t) (w w1 : world) :
  mkdir_parents p w = (Return tt, w1) ->
  cwd w1 = cwd w /\ calls w1 = calls w ++ [CallMkdir p]
  /\ forall k n, fs w !! k = Some n -> fs w1 !! k = Some n.
Proof.
  unfold mkdir_parents, bind, record_call, resolve, get_fs, raise, put_fs. cbn [cwd fs].
  destruct (resolve_key (cwd w) p) as [kp |]; [| discriminate]. cbn [cwd fs].
  destruct (mkdirs (fs w) [] kp) as [e | f'] eqn:Hm; [discriminate |].
  intros [= <-]. cbn. repeat split. intros k n. now apply (mkdirs_lookup_kept kp []).
Qed.

Lemma copy2_inv (src dst : PurePath.t) (w w1 : world) :
  copy2 src dst w = (Return tt, w1) ->
  exists kd r content mtime,
    resolve_key (cwd w) dst = Some kd
    /\ fs w1 = <[kd ++ r := File content mtime]> (fs w)
    /\ cwd w1 = cwd w
    /\ calls w1 = calls w ++ [CallCopy2 src dst].
Proof.
  unfold copy2, bind, record_call, resolve, get_fs, raise, put_fs. cbn [cwd fs].
  destruct (resolve_key (cwd w) src) as [ks |]; [| discriminate]. cbn [cwd fs].
  destruct (resolve_key (cwd w) dst) as [kd |]; [| discriminate]. cbn [cwd fs]. cbv zeta.
  set (kd' := match node_at (fs w) kd with Some Dir => _ | _ => kd end).
  assert (Hr : exists r, kd' = kd ++ r).
  { unfold kd'. destruct (node_at (fs w) kd) as [[| ? ?] |];
      [eexists; reflexivity | exists []; now rewrite app_nil_r..]. }
  destruct Hr as [r Hr].
  destruct (node_at (fs w) ks) as [[| content mtime] |]; try discriminate;
    destruct (decide (ks = kd')); try discriminate.
  destruct (node_at (fs w) kd') as [[| ? ?] |]; try discriminate;
    (destruct (check_dirs (fs w) [] (removelast kd')); [discriminate |]);
    intros [= <-]; exists kd, r, content, mtime; rewrite <- Hr; now cbn.
Qed.

Lemma create_file_inv (k : key) (content : data) (w w1 : world) :
  create_file k content w = (Return tt, w1) ->
  is_dir (fs w) k = false /\ check_dirs (fs w) [] (removelast k) = None.
Proof.
  unfold create_file, bind, get_fs, raise, is_dir.
  destruct (node_at (fs w) k) as [[| ? ?] |]; [discriminate | |];
    (destruct (check_dirs (fs w) [] (removelast k)); [discriminate | now split]).
Qed.

Lemma when_print_inv (b : bool) (line : string) (w w' : world) :
  when b (print line) w = (Return tt, w') ->
  fs w' = fs w /\ cwd w' = cwd w /\ calls w' = calls w.
Proof. destruct b; intros [= <-]; now repeat split. Qed.

Section LogRows.

Variables (variables : toml) (base_dir temp_dir : PurePath.t) (temp_dir_name : string).
Variables (verbose : bool) (lp : PurePath.t).
Variables (kt kl cwd0 : key).

Hypothesis Hkt : resolve_key cwd0 temp_dir = Some kt.
Hypothesis Hkl : resolve_key cwd0 lp = Some kl.
Hypothesis Hne : kl <> [].
Hypothesis Hapart : is_prefix kt kl = false.

(** A rule whose steps all return leaves the rows of the log in place and
    adds one for the copy it made, if it made one. *)
Lemma copy_rendered_log (from_path_rendered to_path_rendered : string)
    (entries : list log_entry) (m : Z) (w w' : world) :
  PurePath.is_absolute (PurePath.parse to_path_rendered) = false ->
  cwd w = cwd0 ->
  fs w !! kl = Some (File (Log entries) m) ->
  copy_rendered base_dir temp_dir temp_dir_name verbose (Some lp)
    from_path_rendered to_path_rendered w = (Return tt, w') ->
  exists entries' m' l,
    cwd w' = cwd0
    /\ fs w' !! kl = Some (File (Log (entries ++ entries')) m')
    /\ calls w' = calls w ++ l
    /\ row_of <$> entries' = copy_rows l.
Proof.
  intros Hrel Hcwd Hlog. unfold copy_rendered. intros H.
  apply bind_inv in H as (found & w1 & E1 & H). apply path_exists_inv in E1. subst w1.
  destruct found; cbn [negb] in H.
  - apply bind_inv in H as ([] & w2 & E2 & H).
    apply mkdir_parents_inv in E2 as (C2 & L2 & K2). cbn [cwd calls fs add_calls] in C2, L2, K2.
    apply bind_inv in H as ([] & w3 & E3 & H).
    apply copy2_inv in E3 as (kd & r & content & mtime & Hkd & F3 & C3 & L3).
    apply bind_inv in H as ([] & w4 & E4 & H). cbn [log_if] in E4.
    unfold destination_of in Hkd. rewrite (joinpath_relative _ _ Hrel), C2, Hcwd in Hkd.
    apply resolve_key_extend_inv in Hkd as (k & Hk & -> & _).
    rewrite Hkt in Hk. injection Hk as <-.
    assert (Hlog3 : fs w3 !! kl = Some (File (Log entries) m)).
    { rewrite F3, lookup_insert_ne; [now apply K2 |].
      rewrite <- app_assoc. intros Heq. exact (is_prefix_false _ _ _ Hapart (eq_sym Heq)). }
    rewrite (append_log_spec lp _ _ _ kl entries m w3) in E4;
      [| now rewrite C3, C2, Hcwd | exact Hne | exact Hlog3].
    injection E4 as <-.
    apply when_print_inv in H as (F5 & C5 & L5). cbn [fs cwd calls] in F5, C5, L5.
    eexists [_], _, [_; _; _; _]. rewrite F5, C5, L5, C3, C2, L3, L2, Hcwd.
    split; [reflexivity |]. split; [apply lookup_insert_eq |].
    split; [now rewrite <- !app_assoc |]. reflexivity.
  - destruct verbose; [discriminate |]. injection H as <-.
    exists [], m, [CallExists (source_of base_dir from_path_rendered)].
    rewrite app_nil_r. now repeat split.
Qed.

Lemma copy_rule_log (section : string * toml) (entries : list log_entry) (m : Z)
    (w w' : world) :
  to_is_relative variables section = true ->
  cwd w = cwd0 ->
  fs w !! kl = Some (File (Log entries) m) ->
  copy_rule variables base_dir temp_dir temp_dir_name verbose (Some lp) section w
  = (Return tt, w') ->
  exists entries' m' l,
    cwd w' = cwd0
    /\ fs w' !! kl = Some (File (Log (entries ++ entries')) m')
    /\ calls w' = calls w ++ l
    /\ row_of <$> entries' = copy_rows l.
Proof.
  destruct section as [section_name file_config].
  unfold to_is_relative, copy_rule. cbn [snd]. intros Hrel Hcwd Hlog H.
  assert (Hskip : forall line, when verbose (print line) w = (Return tt, w') ->
            exists entries' m' l,
              cwd w' = cwd0
              /\ fs w' !! kl = Some (File (Log (entries ++ entries')) m')
              /\ calls w' = calls w ++ l
              /\ row_of <$> entries' = copy_rows l).
  { intros line Hw. apply when_print_inv in Hw as (F & C & L).
    exists [], m, []. rewrite F, C, L, !app_nil_r. now repeat split. }
  destruct file_config as [| | | | file_config]; try discriminate.
  destruct (dict_get "from" file_config) as [from_path |]; [| destruct (dict_get "to" file_config); eauto].
  destruct (dict_get "to" file_config) as [to_path |]; [| eauto].
  destruct (negb (truthy from_path) || negb (truthy to_path))%bool; [eauto |].
  destruct (render_path from_path variables) as [from_path_rendered |]; [| discriminate].
  destruct (render_path to_path variables) as [to_path_rendered |]; [| discriminate].
  apply negb_true_iff in Hrel.
  exact (copy_rendered_log from_path_rendered to_path_rendered entries m w w' Hrel Hcwd Hlog H).
Qed.

Lemma copy_loop_log (sections : py_dict) :
  forallb (to_is_relative variables) sections = true ->
  forall (entries : list log_entry) (m : Z) (w w' : world),
    cwd w = cwd0 ->
    fs w !! kl = Some (File (Log entries) m) ->
    for_each (copy_rule variables base_dir temp_dir temp_dir_name verbose (Some lp)) sections w
    = (Return tt, w') ->
    exists entries' m' l,
      cwd w' = cwd0
      /\ fs w' !! kl = Some (File (Log (entries ++ entries')) m')
      /\ calls w' = calls w ++ l
      /\ row_of <$> entries' = copy_rows l.
Proof.
  induction sections as [| section sections IH]; intros Hrel entries m w w' Hcwd Hlog H.
  - injection H as <-. exists [], m, []. rewrite !app_nil_r. now repeat split.
  - cbn [forallb] in Hrel. apply andb_prop in Hrel as [Hhead Htail].
    cbn [for_each] in H. apply bind_inv in H as ([] & w1 & E1 & H).
    destruct (copy_rule_log section entries m w w1 Hhead Hcwd Hlog E1)
      as (e1 & m1 & l1 & C1 & F1 & L1 & R1).
    destruct (IH Htail _ _ _ _ C1 F1 H) as (e2 & m2 & l2 & C2 & F2 & L2 & R2).
    exists (e1 ++ e2), m2, (l1 ++ l2).
    split; [exact C2 |]. split; [now rewrite app_assoc |].
    split; [now rewrite L2, L1, <- app_assoc |].
    unfold copy_rows in *. now rewrite fmap_app, omap_app, R1, R2.
Qed.

End LogRows.

(** X13: the log records the copies that were made.  Let the log lie
    outside the staging directory and every [to] render to a relative path
    (one through a double dot is not followed: staging does not return
    there).
    When staging returns, the log holds, below its header, one row for each
    call of [shutil.copy2] that staging made, in the order of the calls:
    the operation [copy] and the source and destination paths of the call as
    strings.  Rows the file held before the run are gone. *)
Theorem log_records_the_copies :
  forall (variables : toml) (base_dir temp_dir : PurePath.t) (temp_dir_name : string)
         (verbose : bool) (lp : PurePath.t) (sections : py_dict) (kt kl : key)
         (w w' : world),
    resolve_key (cwd w) temp_dir = Some kt ->
    resolve_key (cwd w) lp = Some kl ->
    is_prefix kt kl = false ->
    forallb (to_is_relative variables) sections = true ->
    stage variables base_dir temp_dir temp_dir_name verbose (Some lp) sections w
    = (Return tt, w') ->
    exists entries mtime l,
      fs w' !! kl = Some (File (Log entries) mtime)
      /\ calls w' = calls w ++ CallOpen lp "w" :: l
      /\ row_of <$> entries = copy_rows l.
Proof.
  intros variables base_dir temp_dir temp_dir_name verbose lp sections kt kl w w'
         Hkt Hkl Hapart Hrel H.
  unfold stage in H. cbn [log_if] in H. apply bind_inv in H as ([] & w1 & E1 & H).
  assert (Hhead : is_dir (fs w) kl = false /\ check_dirs (fs w) [] (removelast kl) = None).
  { revert E1. unfold write_log_header, bind, record_call, resolve. cbn [cwd]. rewrite Hkl.
    exact (create_file_inv kl (Log []) (add_calls [CallOpen lp "w"] w) w1). }
  destruct Hhead as [Hdir Hcheck].
  rewrite (write_log_header_spec lp kl w Hkl Hdir Hcheck) in E1. injection E1 as <-.
  set (w1 := mk_world _ _ _ _ _ _) in H.
  destruct (copy_loop_log variables base_dir temp_dir temp_dir_name verbose lp kt kl (cwd w)
              Hkt Hkl (is_dir_false_nonempty _ _ Hdir) Hapart sections Hrel []
              (clock w (ticks w)) w1 w' eq_refl (lookup_insert_eq _ _ _) H)
    as (entries & m' & l & _ & F & L & R).
  exists entries, m', l. unfold w1 in L. cbn [calls] in L. rewrite <- app_assoc in L.
  now repeat split.
Qed.

Lemma log_records_the_copies_witness :
  let w' := snd (stage Sample.variables Sample.base_dir Sample.temp_dir "sample" true
                   (Some Sample.log_path) (file_sections Sample.config) Sample.w0) in
  exists entries mtime l,
    fs w' !! ["tmp"; "operation.log"] = Some (File (Log entries) mtime)
    /\ calls w' = calls Sample.w0 ++ CallOpen Sample.log_path "w" :: l
    /\ row_of <$> entries = copy_rows l.
Proof.
  apply (log_records_the_copies Sample.variables Sample.base_dir Sample.temp_dir "sample" true
           Sample.log_path (file_sections Sample.config) ["tmp"; "sample"]
           ["tmp"; "operation.log"] Sample.w0);
    vm_compute; reflexivity.
Defined.

(** ** Where the staged files go *)

(** X14: the staging directory is the base directory's entry named by the
    stem of the archive name's last component, whatever directories the
    archive name goes through and whether it is absolute or not; when that
    stem is empty or a single dot (an archive name that is empty, [.] or
    [/], or a last component like [..a]) it is the base directory itself. *)
Theorem staging_directory_is_in_the_base_directory :
  forall (base_dir : PurePath.t) (zip_file_name : string),
    let temp_dir_name := PurePath.stem (PurePath.parse zip_file_name) in
    let temp_dir := PurePath.joinpath base_dir temp_dir_name in
    no_slash temp_dir_name = true
    /\ temp_dir
       = PurePath.extend base_dir
           (if PurePath.is_component temp_dir_name then [temp_dir_name] else []).
Proof.
  intros base_dir zip_file_name temp_dir_name temp_dir.
  pose proof (stem_no_slash zip_file_name) as Hstem. fold temp_dir_name in Hstem.
  split; [exact Hstem |].
  unfold temp_dir, PurePath.joinpath. now rewrite (parse_no_slash _ Hstem).
Qed.

(** ** A rule whose source is a directory *)

Lemma copy2_directory (src dst : PurePath.t) (ks kd : key) (w : world) :
  resolve_key (cwd w) src = Some ks ->
  resolve_key (cwd w) dst = Some kd ->
  ks <> [] -> kd <> [] ->
  fs w !! ks = Some Dir ->
  fs w !! kd = None ->
  copy2 src dst w = (Raise IsADirectoryError, add_calls [CallCopy2 src dst] w).
Proof.
  intros Hks Hkd Hs Hd Hdir Hfree.
  unfold copy2, bind, record_call, resolve, get_fs.
  cbn [cwd]. rewrite Hks. cbn [cwd]. rewrite Hkd. cbn [fs].
  rewrite (node_at_nonempty _ _ Hd), Hfree, (node_at_nonempty _ _ Hs), Hdir.
  now rewrite decide_False by congruence.
Qed.

(** X15: a rule whose source is a directory stops the run, verbose or quiet:
    [exists()] holds for it, the directories of the destination are made,
    and [shutil.copy2] raises [IsADirectoryError].  Nothing is copied, what
    was there is as it was (the log, if any, has its header and the rows it
    had), and the sections after the rule are not looked at. *)
Theorem rule_whose_source_is_a_directory_stops_the_run :
  forall (variables : toml) (base_dir temp_dir : PurePath.t) (temp_dir_name : string)
         (verbose : bool) (log_path : option PurePath.t) (section : string * toml)
         (rest : py_dict) (kt ks rel : key) (w : world),
    resolve_key (cwd w) temp_dir = Some kt ->
    rule_plan (cwd w) variables base_dir section = Some (ks, rel) ->
    fs w !! ks = Some Dir ->
    free_at (fs w) (kt ++ rel) = true ->
    let r := for_each (copy_rule variables base_dir temp_dir temp_dir_name verbose log_path)
               (section :: rest) w in
    fst r = Raise IsADirectoryError
    /\ fs (snd r) !! (kt ++ rel) = None
    /\ check_dirs (fs (snd r)) [] (removelast (kt ++ rel)) = None
    /\ (forall k, fs w !! k <> None -> fs (snd r) !! k = fs w !! k)
    /\ stdout (snd r) = stdout w
    /\ exists src dst,
         calls (snd r) = calls w ++ [CallExists src; CallMkdir (PurePath.parent dst);
                                     CallCopy2 src dst].
Proof.
  intros variables base_dir temp_dir temp_dir_name verbose log_path
         [section_name file_config] rest kt ks rel w Hkt Hplan Hdir Hfree.
  cbv zeta. rewrite for_each_cons.
  unfold rule_plan in Hplan. unfold copy_rule. cbn [snd] in Hplan.
  destruct file_config as [| | | | file_config]; try discriminate.
  destruct (dict_get "from" file_config) as [from_path |]; [| discriminate].
  destruct (dict_get "to" file_config) as [to_path |]; [| discriminate].
  destruct (truthy from_path); [| discriminate].
  destruct (truthy to_path); [| discriminate]. cbn [andb negb orb].
  destruct (render_path from_path variables) as [from_path_rendered |]; [| discriminate].
  destruct (render_path to_path variables) as [to_path_rendered |]; [| discriminate].
  destruct (resolve_key (cwd w) (source_of base_dir from_path_rendered))
    as [[| c ks'] |] eqn:Hks; try discriminate.
  destruct (PurePath.parts (PurePath.parse to_path_rendered)) as [| c' rel'] eqn:Hparts;
    [discriminate |].
  destruct (PurePath.is_absolute (PurePath.parse to_path_rendered)) eqn:Habs; [discriminate |].
  cbn [negb andb] in Hplan.
  destruct (no_dotdot (c' :: rel')) eqn:Hdd; [| discriminate].
  injection Hplan as <- <-.
  set (rel := c' :: rel') in *. set (ks := c :: ks') in *. set (kd := kt ++ rel) in *.
  assert (Hrel : rel <> []) by discriminate.
  assert (Hsne : ks <> []) by discriminate.
  assert (Hdne : kd <> []) by (unfold kd, rel; destruct kt; discriminate).
  unfold free_at in Hfree. rewrite (node_at_nonempty _ _ Hdne) in Hfree.
  destruct (fs w !! kd) eqn:Hdst; [discriminate |].
  assert (Hparent : removelast kd = kt ++ removelast rel)
    by (unfold kd; now rewrite removelast_app).
  assert (Hlast : kd = removelast kd ++ [List.last kd EmptyString])
    by now apply app_removelast_last.
  unfold copy_rendered, destination_of.
  rewrite (joinpath_relative _ _ Habs), Hparts. fold rel.
  assert (Hkd : resolve_key (cwd w) (PurePath.extend temp_dir rel) = Some kd)
    by now apply resolve_key_extend.
  assert (Hkp : resolve_key (cwd w) (PurePath.parent (PurePath.extend temp_dir rel))
                = Some (removelast kd)).
  { rewrite (parent_extend _ _ Hrel), Hparent.
    apply resolve_key_extend; [exact Hkt | now apply no_dotdot_removelast]. }
  rewrite (bind_return _ _ _ _ _ (path_exists_spec _ _ _ Hks)).
  fold ks. rewrite (node_at_nonempty _ _ Hsne), Hdir. cbn [negb].
  set (w0 := add_calls _ w).
  destruct (mkdir_parents_spec (PurePath.parent (PurePath.extend temp_dir rel)) (removelast kd) w0)
    as (f1 & E1 & Hcheck1 & Hkeep1 & Hnew1); [exact Hkp | |].
  { cbn [fs w0 add_calls]. apply (no_file_on_prefix _ _ _ [List.last kd EmptyString]).
    now rewrite <- Hlast. }
  cbn [fs cwd clock ticks stdout calls w0 add_calls] in E1, Hkeep1, Hnew1.
  rewrite (bind_return _ _ _ _ _ E1).
  assert (Hdst1 : f1 !! kd = None).
  { destruct (Hnew1 kd Hdst) as [Hn | (_ & r & Hr)]; [exact Hn |].
    exfalso. apply (f_equal (@List.length string)) in Hr. rewrite Hlast in Hr at 2.
    rewrite !length_app in Hr. cbn in Hr. lia. }
  set (w1 := mk_world f1 _ _ _ _ _).
  assert (Hcopy : copy2 (source_of base_dir from_path_rendered) (PurePath.extend temp_dir rel) w1
                  = (Raise IsADirectoryError,
                     add_calls [CallCopy2 (source_of base_dir from_path_rendered)
                                  (PurePath.extend temp_dir rel)] w1)).
  { apply (copy2_directory _ _ ks kd); try assumption.
    cbn [fs w1]. rewrite Hkeep1 by congruence. exact Hdir. }
  rewrite (bind_raise _ _ _ _ _ Hcopy).
  cbn [fst snd fs stdout calls add_calls w1].
  split; [reflexivity |]. split; [exact Hdst1 |]. split; [exact Hcheck1 |].
  split; [exact Hkeep1 |]. split; [reflexivity |].
  eexists _, _. rewrite <- !app_assoc. reflexivity.
Qed.

Lemma rule_whose_source_is_a_directory_witness :
  let section := ("file1", TTable [("from", TStr "{{name}}"); ("to", TStr "copy/of")]) in
  let r := for_each (copy_rule Sample.variables Sample.base_dir Sample.temp_dir "sample" false
                       (Some Sample.log_path))
             (section :: file_sections Sample.config) Sample.w0 in
  fst r = Raise IsADirectoryError
  /\ fs (snd r) !! (["tmp"; "sample"] ++ ["copy"; "of"]) = None
  /\ check_dirs (fs (snd r)) [] (removelast (["tmp"; "sample"] ++ ["copy"; "of"])) = None
  /\ (forall k, fs Sample.w0 !! k <> None -> fs (snd r) !! k = fs Sample.w0 !! k)
  /\ stdout (snd r) = stdout Sample.w0
  /\ exists src dst,
       calls (snd r) = calls Sample.w0 ++ [CallExists src; CallMkdir (PurePath.parent dst);
                                          CallCopy2 src dst].
Proof.
  apply (rule_whose_source_is_a_directory_stops_the_run Sample.variables Sample.base_dir
           Sample.temp_dir "sample" false (Some Sample.log_path)
           ("file1", TTable [("from", TStr "{{name}}"); ("to", TStr "copy/of")])
           (file_sections Sample.config) ["tmp"; "sample"] ["tmp"; "testuser"] ["copy"; "of"]
           Sample.w0);
    vm_compute; reflexivity.
Defined.

(** ** What the log records of the archive *)

Lemma rglob_files_inv (p : PurePath.t) (files : list PurePath.t) (w w1 : world) :
  rglob_files p w = (Return files, w1) -> w1 = add_calls [CallRglob p] w.
Proof.
  unfold rglob_files, bind, record_call, resolve, get_fs, ret. cbn [cwd].
  destruct (resolve_key (cwd w) p); [| discriminate]. now intros [= _ <-].
Qed.

Lemma relative_to_inv (p other r : PurePath.t) (w w1 : world) :
  relative_to p other w = (Return r, w1) -> w1 = w.
Proof.
  unfold relative_to. destruct (PurePath.relative_to p other); [| discriminate].
  now intros [= _ <-].
Qed.

Lemma map_m_relative_to_inv (other : PurePath.t) (l rs : list PurePath.t) (w w1 : world) :
  map_m (fun f => relative_to f other) l w = (Return rs, w1) -> w1 = w.
Proof.
  revert rs w1. induction l as [| p l IH]; intros rs w1; cbn [map_m].
  - now intros [= _ <-].
  - intros H. apply bind_inv in H as (r & w2 & E & H). apply relative_to_inv in E. subst w2.
    apply bind_inv in H as (rs' & w2 & E & H). apply IH in E. subst w2.
    now injection H as _ <-.
Qed.

Lemma read_files_inv (kz : key) (files : list PurePath.t) (r : list (string * data))
    (w w1 : world) :
  read_files kz files w = (Return r, w1) -> w1 = w.
Proof.
  revert r w1. induction files as [| p files IH]; intros r w1; cbn [read_files].
  - now intros [= _ <-].
  - unfold bind at 1, resolve. destruct (resolve_key (cwd w) p) as [k |]; [| discriminate].
    unfold bind at 1, get_fs. destruct (decide (kz = k)); [discriminate |].
    destruct (node_at (fs w) k) as [[| content m] |]; try discriminate.
    intros H. apply bind_inv in H as (rest & w2 & E & H). apply IH in E. subst w2.
    now injection H as _ <-.
Qed.

Lemma create_file_written (k : key) (content : data) (w w1 : world) :
  create_file k content w = (Return tt, w1) ->
  exists n, fs w1 = <[k := n]> (fs w) /\ cwd w1 = cwd w /\ calls w1 = calls w.
Proof.
  unfold create_file, bind, get_fs, raise, now, put_fs.
  destruct (node_at (fs w) k) as [[| ? ?] |]; [discriminate | |];
    (destruct (check_dirs (fs w) [] (removelast k)); [discriminate |]);
    intros [= <-]; eexists; now repeat split.
Qed.

Lemma zip_open_inv (p : PurePath.t) (w w1 : world) :
  zip_open p w = (Return tt, w1) ->
  exists kz n,
    resolve_key (cwd w) p = Some kz
    /\ fs w1 = <[kz := n]> (fs w) /\ cwd w1 = cwd w
    /\ calls w1 = calls w ++ [CallZipFile p "w" "ZIP_DEFLATED"].
Proof.
  unfold zip_open, bind at 1, record_call. unfold bind at 1, resolve. cbn [cwd].
  destruct (resolve_key (cwd w) p) as [kz |]; [| discriminate].
  intros H. apply create_file_written in H as (n & F & C & L). now exists kz, n.
Qed.

Lemma zip_write_inv (zip_path file arcname : PurePath.t) (w w1 : world) :
  zip_write zip_path file arcname w = (Return tt, w1) ->
  exists kz n,
    resolve_key (cwd w) zip_path = Some kz
    /\ fs w1 = <[kz := n]> (fs w) /\ cwd w1 = cwd w
    /\ calls w1 = calls w ++ [CallZipWrite file arcname].
Proof.
  unfold zip_write, bind, record_call, resolve, get_fs, raise, now, put_fs, outside_model.
  cbn [cwd fs].
  destruct (resolve_key (cwd w) zip_path) as [kz |]; [| discriminate]. cbn [cwd fs].
  destruct (resolve_key (cwd w) file) as [kf |]; [| discriminate]. cbn [cwd fs].
  destruct (decide (kz = kf)); [discriminate |].
  destruct (node_at (fs w) kf) as [[| content m] |]; try discriminate.
  destruct (node_at (fs w) kz) as [[| [| | members |] mz] |]; try discriminate.
  intros [= <-]. eexists kz, _. now repeat split.
Qed.

Lemma compress_multiple_inv (files : list PurePath.t) (prefixes : list string)
    (zip_path : PurePath.t) (password : string) (level : Z) (w w1 : world) :
  compress_multiple files prefixes zip_path password level w = (Return tt, w1) ->
  exists kz n,
    resolve_key (cwd w) zip_path = Some kz
    /\ fs w1 = <[kz := n]> (fs w) /\ cwd w1 = cwd w
    /\ calls w1 = calls w ++ [CallCompressMultiple (PurePath.to_string <$> files) prefixes
                                (PurePath.to_string zip_path) password level].
Proof.
  unfold compress_multiple, bind at 1, record_call. unfold bind at 1, resolve. cbn [cwd].
  destruct (resolve_key (cwd w) zip_path) as [kz |]; [| discriminate].
  intros H. apply bind_inv in H as (srcfiles & w2 & E & H).
  apply read_files_inv in E. subst w2.
  apply create_file_written in H as (n & F & C & L). now exists kz, n.
Qed.

Lemma zip_rows_app (l1 l2 : list call) : zip_rows (l1 ++ l2) = zip_rows l1 ++ zip_rows l2.
Proof. apply flat_map_app. Qed.

Section ZipRows.

Variables (temp_dir : PurePath.t) (temp_dir_name : string).
Variables (verbose : bool) (lp : PurePath.t).
Variables (zip_file_name : string) (zip_path : PurePath.t).
Variables (kl kz cwd0 : key).

Hypothesis Hkl : resolve_key cwd0 lp = Some kl.
Hypothesis Hkz : resolve_key cwd0 zip_path = Some kz.
Hypothesis Hne : kl <> [].
Hypothesis Hapart : kz <> kl.

(** The rows written for the pairs given to [pyminizip]. *)
Lemma append_rows (pairs : list (string * string)) :
  forall (entries : list log_entry) (m : Z) (w w' : world),
    cwd w = cwd0 ->
    fs w !! kl = Some (File (Log entries) m) ->
    for_each (fun '(file, arcname) => append_log lp "zip" file arcname) pairs w
    = (Return tt, w') ->
    exists entries' m' l,
      cwd w' = cwd0
      /\ fs w' !! kl = Some (File (Log (entries ++ entries')) m')
      /\ calls w' = calls w ++ l
      /\ row_of <$> entries' = (fun '(file, arcname) => ("zip", file, arcname)) <$> pairs
      /\ zip_rows l = [].
Proof.
  induction pairs as [| [file arcname] pairs IH]; intros entries m w w' Hcwd Hlog H.
  - injection H as <-. exists [], m, []. rewrite !app_nil_r. now repeat split.
  - cbn [for_each] in H. apply bind_inv in H as ([] & w1 & E1 & H).
    rewrite (append_log_spec lp _ _ _ kl entries m w) in E1;
      [| now rewrite Hcwd | exact Hne | exact Hlog].
    injection E1 as <-. set (w1 := mk_world _ _ _ _ _ _) in H.
    destruct (IH _ _ w1 w' Hcwd (lookup_insert_eq _ _ _) H)
      as (e2 & m2 & l2 & C2 & F2 & L2 & R2 & Z2).
    exists (mk_entry (clock w (ticks w)) "zip" file arcname :: e2), m2, (CallOpen lp "a" :: l2).
    split; [exact C2 |]. split; [now rewrite <- app_assoc in F2 |].
    split; [unfold w1 in L2; cbn [calls] in L2; now rewrite <- app_assoc in L2 |].
    split; [cbn; now rewrite R2 | exact Z2].
Qed.

(** A file added by the plain writer gets its row. *)
Lemma zip_add_log (file : PurePath.t) (entries : list log_entry) (m : Z) (w w' : world) :
  cwd w = cwd0 ->
  fs w !! kl = Some (File (Log entries) m) ->
  zip_add temp_dir verbose (Some lp) zip_path file w = (Return tt, w') ->
  exists entries' m' l,
    cwd w' = cwd0
    /\ fs w' !! kl = Some (File (Log (entries ++ entries')) m')
    /\ calls w' = calls w ++ l
    /\ row_of <$> entries' = zip_rows l.
Proof.
  intros Hcwd Hlog H. unfold zip_add in H.
  apply bind_inv in H as (arcname & w1 & E1 & H). apply relative_to_inv in E1. subst w1.
  apply bind_inv in H as ([] & w2 & E2 & H).
  apply zip_write_inv in E2 as (kz' & n & Hkz' & F2 & C2 & L2).
  rewrite Hcwd, Hkz in Hkz'. injection Hkz' as <-.
  apply bind_inv in H as ([] & w3 & E3 & H). cbn [log_if] in E3.
  rewrite (append_log_spec lp _ _ _ kl entries m w2) in E3;
    [| now rewrite C2, Hcwd | exact Hne | now rewrite F2, lookup_insert_ne].
  injection E3 as <-.
  apply when_print_inv in H as (F4 & C4 & L4). cbn [fs cwd calls] in F4, C4, L4.
  eexists [_], _, [_; _]. rewrite F4, C4, L4, C2, L2, Hcwd.
  split; [reflexivity |]. split; [apply lookup_insert_eq |].
  split; [now rewrite <- app_assoc |]. reflexivity.
Qed.

Lemma zip_loop_log (files : list PurePath.t) :
  forall (entries : list log_entry) (m : Z) (w w' : world),
    cwd w = cwd0 ->
    fs w !! kl = Some (File (Log entries) m) ->
    for_each (zip_add temp_dir verbose (Some lp) zip_path) files w = (Return tt, w') ->
    exists entries' m' l,
      cwd w' = cwd0
      /\ fs w' !! kl = Some (File (Log (entries ++ entries')) m')
      /\ calls w' = calls w ++ l
      /\ row_of <$> entries' = zip_rows l.
Proof.
  induction files as [| file files IH]; intros entries m w w' Hcwd Hlog H.
  - injection H as <-. exists [], m, []. rewrite !app_nil_r. now repeat split.
  - cbn [for_each] in H. apply bind_inv in H as ([] & w1 & E1 & H).
    destruct (zip_add_log file entries m w w1 Hcwd Hlog E1) as (e1 & m1 & l1 & C1 & F1 & L1 & R1).
    destruct (IH _ _ _ _ C1 F1 H) as (e2 & m2 & l2 & C2 & F2 & L2 & R2).
    exists (e1 ++ e2), m2, (l1 ++ l2).
    split; [exact C2 |]. split; [now rewrite app_assoc |].
    split; [now rewrite L2, L1, <- app_assoc |].
    now rewrite fmap_app, zip_rows_app, R1, R2.
Qed.

Lemma zip_plain_log (entries : list log_entry) (m : Z) (w w' : world) :
  cwd w = cwd0 ->
  fs w !! kl = Some (File (Log entries) m) ->
  zip_plain temp_dir verbose (Some lp) zip_path w = (Return tt, w') ->
  exists entries' m' l,
    cwd w' = cwd0
    /\ fs w' !! kl = Some (File (Log (entries ++ entries')) m')
    /\ calls w' = calls w ++ l
    /\ row_of <$> entries' = zip_rows l.
Proof.
  intros Hcwd Hlog H. unfold zip_plain in H.
  apply bind_inv in H as ([] & w1 & E1 & H).
  apply zip_open_inv in E1 as (kz' & n & Hkz' & F1 & C1 & L1).
  rewrite Hcwd, Hkz in Hkz'. injection Hkz' as <-.
  apply bind_inv in H as (files & w2 & E2 & H). apply rglob_files_inv in E2. subst w2.
  destruct (zip_loop_log files entries m (add_calls [CallRglob temp_dir] w1) w')
    as (e & m' & l & C & F & L & R); [| | exact H |].
  - cbn [cwd add_calls]. now rewrite C1.
  - cbn [fs add_calls]. now rewrite F1, lookup_insert_ne.
  - exists e, m', (CallZipFile zip_path "w" "ZIP_DEFLATED" :: CallRglob temp_dir :: l).
    split; [exact C |]. split; [exact F |].
    split; [| exact R].
    cbn [calls add_calls] in L. now rewrite L, L1, <- !app_assoc.
Qed.

Lemma zip_encrypted_log (password : string) (entries : list log_entry) (m : Z)
    (w w' : world) :
  cwd w = cwd0 ->
  fs w !! kl = Some (File (Log entries) m) ->
  zip_encrypted temp_dir verbose (Some lp) zip_path password w = (Return tt, w') ->
  exists entries' m' l,
    cwd w' = cwd0
    /\ fs w' !! kl = Some (File (Log (entries ++ entries')) m')
    /\ calls w' = calls w ++ l
    /\ row_of <$> entries' = zip_rows l.
Proof.
  intros Hcwd Hlog H. unfold zip_encrypted in H.
  apply bind_inv in H as (files & w1 & E1 & H). apply rglob_files_inv in E1. subst w1.
  apply bind_inv in H as (files' & w2 & E2 & H). apply rglob_files_inv in E2. subst w2.
  apply bind_inv in H as (arcnames & w3 & E3 & H). apply map_m_relative_to_inv in E3. subst w3.
  rewrite add_calls_app in H. cbn [app] in H.
  destruct (PurePath.to_string <$> files) as [| file file_list] eqn:Hfiles.
  - injection H as <-. exists [], m, [CallRglob temp_dir; CallRglob temp_dir].
    rewrite app_nil_r. now repeat split.
  - rewrite <- Hfiles in H.
    apply bind_inv in H as ([] & w4 & E4 & H).
    apply compress_multiple_inv in E4 as (kz' & n & Hkz' & F4 & C4 & L4).
    cbn [cwd fs calls add_calls] in Hkz', F4, C4, L4.
    rewrite Hcwd, Hkz in Hkz'. injection Hkz' as <-.
    apply bind_inv in H as ([] & w5 & E5 & H). cbn [log_if] in E5.
    destruct (append_rows (combine (PurePath.to_string <$> files)
                                   (PurePath.to_string <$> arcnames)) entries m w4 w5)
      as (e & m' & l & C & F & L & R & Z);
      [now rewrite C4 | now rewrite F4, lookup_insert_ne | exact E5 |].
    assert (Hsame : fs w' = fs w5 /\ cwd w' = cwd w5 /\ calls w' = calls w5).
    { clear -H. destruct verbose; [| now injection H as <-].
      cbn [when] in H. revert w5 H.
      induction (PurePath.to_string <$> arcnames) as [| a l IH]; intros w5 H.
      - now injection H as <-.
      - cbn [for_each] in H. apply bind_inv in H as ([] & w6 & E & H).
        injection E as <-. now destruct (IH _ H) as (-> & -> & ->). }
    destruct Hsame as (-> & -> & ->).
    eexists e, m', (_ :: _ :: _ :: l).
    split; [exact C |]. split; [exact F |].
    split; [rewrite L, L4, <- !app_assoc; reflexivity |].
    rewrite R. cbn [zip_rows flat_map app]. fold (zip_rows l). now rewrite Z, app_nil_r.
Qed.

End ZipRows.

(** X16: the log records what went into the archive.  Let the log hold its
    header and some rows when the archive phase begins, at a location other
    than the archive's.  When the phase returns, the rows are still there,
    followed by one row for each file handed to an archive writer, in order:
    the operation [zip], the file's path and its name in the archive, for
    each [zipf.write] and for each pair of the two lists given to
    [pyminizip.compress_multiple]. *)
Theorem log_records_the_archive_members :
  forall (temp_dir : PurePath.t) (temp_dir_name : string) (verbose : bool) (lp : PurePath.t)
         (zip_file_name : string) (zip_path : PurePath.t)
         (zip_output_enabled : toml) (zip_password : option toml)
         (kl kz : key) (entries : list log_entry) (m : Z) (w w' : world),
    resolve_key (cwd w) lp = Some kl ->
    resolve_key (cwd w) zip_path = Some kz ->
    kl <> [] ->
    kz <> kl ->
    fs w !! kl = Some (File (Log entries) m) ->
    write_zip temp_dir temp_dir_name verbose (Some lp) zip_file_name zip_path
      zip_output_enabled zip_password w = (Return tt, w') ->
    exists entries' m' l,
      fs w' !! kl = Some (File (Log (entries ++ entries')) m')
      /\ calls w' = calls w ++ l
      /\ row_of <$> entries' = zip_rows l.
Proof.
  intros temp_dir temp_dir_name verbose lp zip_file_name zip_path zip_output_enabled
         zip_password kl kz entries m w w' Hkl Hkz Hne Hapart Hlog H.
  assert (Hprints : forall (prints : M unit) (w1 : world),
            (forall w2 w3, prints w2 = (Return tt, w3) -> fs w3 = fs w2 /\ calls w3 = calls w2) ->
            (exists entries' m' l,
                cwd w1 = cwd w
                /\ fs w1 !! kl = Some (File (Log (entries ++ entries')) m')
                /\ calls w1 = calls w ++ l
                /\ row_of <$> entries' = zip_rows l) ->
            when verbose prints w1 = (Return tt, w') ->
            exists entries' m' l,
              fs w' !! kl = Some (File (Log (entries ++ entries')) m')
              /\ calls w' = calls w ++ l
              /\ row_of <$> entries' = zip_rows l).
  { intros prints w1 Hp (e & m' & l & _ & F & L & R) Hw. exists e, m', l.
    destruct verbose; cbn [when] in Hw.
    - destruct (Hp _ _ Hw) as [-> ->]. now repeat split.
    - injection Hw as <-. now repeat split. }
  unfold write_zip in H. destruct (truthy zip_output_enabled).
  - apply bind_inv in H as ([] & w1 & E & H).
    apply (Hprints _ w1) in H; [exact H | |].
    + clear. intros w2 w3 H. apply bind_inv in H as ([] & w4 & E & H). injection E as <-.
      apply bind_inv in H as ([] & w5 & E & H).
      destruct (truthy_opt zip_password); injection E as <-; injection H as <-; now split.
    + destruct (truthy_opt zip_password).
      * destruct zip_password as [[password | | | |] |]; try discriminate.
        exact (zip_encrypted_log temp_dir verbose lp zip_path kl kz (cwd w) Hkl Hkz Hne Hapart
                 password entries m w w1 eq_refl Hlog E).
      * exact (zip_plain_log temp_dir verbose lp zip_path kl kz (cwd w) Hkl Hkz Hne Hapart
                 entries m w w1 eq_refl Hlog E).
  - apply (Hprints _ w) in H; [exact H | |].
    + intros w2 w3 [= <-]. now split.
    + exists [], m, []. rewrite !app_nil_r. now repeat split.
Qed.

Lemma log_records_the_archive_members_witness :
  let w' := snd (write_zip Sample.temp_dir "sample" true (Some Sample.log_path) "sample.zip"
                   Sample.zip_path (TBool true) None Sample.w_staged) in
  exists entries' m' l,
    fs w' !! ["tmp"; "operation.log"]
    = Some (File (Log ((match fs Sample.w_staged !! ["tmp"; "operation.log"] with
                        | Some (File (Log entries) _) => entries
                        | _ => []
                        end) ++ entries')) m')
    /\ calls w' = calls Sample.w_staged ++ l
    /\ row_of <$> entries' = zip_rows l.
Proof.
  apply (log_records_the_archive_members Sample.temp_dir "sample" true Sample.log_path
           "sample.zip" Sample.zip_path (TBool true) None ["tmp"; "operation.log"]
           ["tmp"; "sample.zip"] _
           (match fs Sample.w_staged !! ["tmp"; "operation.log"] with
            | Some (File _ mtime) => mtime
            | _ => 0
            end) Sample.w_staged);
    first [ discriminate | vm_compute; reflexivity ].
Defined.

(** ** Where a run writes *)

Lemma mkdirs_lookup_outside (rest : key) :
  forall (pre : key) (f f' : gmap key node) (k : key),
    mkdirs f pre rest = inr f' ->
    (forall r1 r2, rest = r1 ++ r2 -> r1 <> [] -> k <> pre ++ r1) ->
    f' !! k = f !! k.
Proof.
  induction rest as [| c rest IH]; intros pre f f' k; cbn [mkdirs].
  - now intros [= <-].
  - intros H Hout.
    assert (Hrec : forall r1 r2, rest = r1 ++ r2 -> r1 <> [] -> k <> (pre ++ [c]) ++ r1).
    { intros r1 r2 -> Hr1. rewrite <- app_assoc. now apply (Hout (c :: r1) r2). }
    destruct (f !! (pre ++ [c])) as [[| content mtime] |];
      [exact (IH _ _ _ _ H Hrec) | discriminate |].
    rewrite (IH _ _ _ _ H Hrec). apply lookup_insert_ne, not_eq_sym.
    now apply (Hout [c] rest).
Qed.

Lemma read_files_world (kz : key) (files : list PurePath.t) (w : world) :
  snd (read_files kz files w) = w.
Proof.
  induction files as [| p files IH]; [reflexivity |].
  cbn [read_files]. unfold bind at 1, resolve.
  destruct (resolve_key (cwd w) p) as [k |]; [| reflexivity].
  unfold bind at 1, get_fs. destruct (decide (kz = k)); [reflexivity |].
  destruct (node_at (fs w) k) as [[| content m] |]; try reflexivity.
  unfold bind. now destruct (read_files kz files w) as [[rest | e |] w1].
Qed.

(** The parent of a path below [p] resolves to a location on the way to
    it. *)
Lemma resolve_key_parent_extend (cwd : key) (p : PurePath.t) (rel : list string)
    (k kp : key) :
  resolve_key cwd p = Some k ->
  resolve_key cwd (PurePath.parent (PurePath.extend p rel)) = Some kp ->
  exists r, k ++ rel = kp ++ r.
Proof.
  unfold resolve_key, PurePath.parent, PurePath.extend. cbn [PurePath.root PurePath.parts].
  destruct (has_dotdot p); [discriminate |]. intros [= <-].
  destruct (has_dotdot _); [discriminate |]. intros [= <-].
  assert (Hcut : exists r, PurePath.parts p ++ rel = removelast (PurePath.parts p ++ rel) ++ r).
  { destruct (decide (PurePath.parts p ++ rel = [])) as [-> | Hne]; [now exists [] |].
    exists [List.last (PurePath.parts p ++ rel) EmptyString]. now apply app_removelast_last. }
  destruct Hcut as [r Hr]. exists r.
  destruct (PurePath.root p); rewrite <- ?app_assoc; now rewrite <- Hr.
Qed.

Section Within.

Variables (cwd0 : key) (allowed : key -> bool).

Lemma within_pure {A} (m : M A) :
  (forall w, cwd (snd (m w)) = cwd w /\ fs (snd (m w)) = fs w) ->
  writes_within cwd0 allowed m.
Proof. intros H w Hc. destruct (H w) as [-> ->]. auto. Qed.

Lemma within_ret {A} (a : A) : writes_within cwd0 allowed (ret a).
Proof. now apply within_pure. Qed.

Lemma within_raise {A} (e : exn) : writes_within cwd0 allowed (@raise A e).
Proof. now apply within_pure. Qed.

Lemma within_outside {A} : writes_within cwd0 allowed (@outside_model A).
Proof. now apply within_pure. Qed.

Lemma within_print line : writes_within cwd0 allowed (print line).
Proof. now apply within_pure. Qed.

Lemma within_record c : writes_within cwd0 allowed (record_call c).
Proof. now apply within_pure. Qed.

Lemma within_resolve p : writes_within cwd0 allowed (resolve p).
Proof.
  apply within_pure. intros w. unfold resolve. now destruct (resolve_key (cwd w) p).
Qed.

Lemma within_bind {A B} (m : M A) (k : A -> M B) :
  writes_within cwd0 allowed m -> (forall a, writes_within cwd0 allowed (k a)) ->
  writes_within cwd0 allowed (bind m k).
Proof.
  intros Hm Hk w Hc. unfold bind. destruct (Hm w Hc) as [C F].
  destruct (m w) as [[a | e |] w1]; cbn [snd] in *; [| auto..].
  destruct (Hk a w1 C) as [C2 F2]. split; [exact C2 |].
  intros k' Hk'. now rewrite F2, F.
Qed.

Lemma within_when (b : bool) (m : M unit) :
  writes_within cwd0 allowed m -> writes_within cwd0 allowed (when b m).
Proof. destruct b; [auto | intros _; apply within_ret]. Qed.

Lemma within_log_if (lp : option PurePath.t) (m : PurePath.t -> M unit) :
  (forall p, lp = Some p -> writes_within cwd0 allowed (m p)) ->
  writes_within cwd0 allowed (log_if lp m).
Proof. intros H. destruct lp; [now apply H | apply within_ret]. Qed.

Lemma within_for_each {A} (body : A -> M unit) (l : list A) :
  (forall x, x ∈ l -> writes_within cwd0 allowed (body x)) ->
  writes_within cwd0 allowed (for_each body l).
Proof.
  induction l as [| x l IH]; intros Hb; [apply within_ret |].
  simpl. apply within_bind; [apply Hb; now left |].
  intros _. apply IH. intros y Hy. apply Hb. now right.
Qed.

Lemma within_map_m {A B} (f : A -> M B) (l : list A) :
  (forall x, writes_within cwd0 allowed (f x)) -> writes_within cwd0 allowed (map_m f l).
Proof.
  intros Hf. induction l as [| x l IH]; [apply within_ret |].
  simpl. apply within_bind; [auto |]. intros y.
  apply within_bind; [auto |]. intros ys. apply within_ret.
Qed.

Lemma within_path_exists p : writes_within cwd0 allowed (path_exists p).
Proof.
  apply within_pure. intros w. unfold path_exists, bind, record_call, resolve. cbn [cwd].
  now destruct (resolve_key (cwd w) p).
Qed.

Lemma within_rglob_files p : writes_within cwd0 allowed (rglob_files p).
Proof.
  apply within_pure. intros w. unfold rglob_files, bind, record_call, resolve. cbn [cwd].
  now destruct (resolve_key (cwd w) p).
Qed.

Lemma within_relative_to p other : writes_within cwd0 allowed (relative_to p other).
Proof.
  apply within_pure. intros w. unfold relative_to.
  now destruct (PurePath.relative_to p other).
Qed.

Lemma within_read_files kz files : writes_within cwd0 allowed (read_files kz files).
Proof. apply within_pure. intros w. now rewrite read_files_world. Qed.

Lemma within_create_file (k : key) (content : data) :
  allowed k = true -> writes_within cwd0 allowed (create_file k content).
Proof.
  intros Hk w Hc. unfold create_file, bind, get_fs.
  destruct (node_at (fs w) k) as [[| ? ?] |]; [now split | |];
    (destruct (check_dirs (fs w) [] (removelast k)); cbn; [now split |];
     split; [first [exact Hc | reflexivity] |]; intros k' Hk'; apply lookup_insert_ne; congruence).
Qed.

Lemma within_mkdir_parents (p : PurePath.t) :
  (forall kp r1 r2, resolve_key cwd0 p = Some kp -> kp = r1 ++ r2 -> allowed r1 = true) ->
  writes_within cwd0 allowed (mkdir_parents p).
Proof.
  intros Hal w Hc. unfold mkdir_parents, bind, record_call, resolve, get_fs. cbn [cwd fs].
  rewrite Hc. destruct (resolve_key cwd0 p) as [kp |] eqn:Hkp; [| now split]. cbn [cwd fs].
  destruct (mkdirs (fs w) [] kp) as [e | f'] eqn:Hm; cbn; [now split |].
  split; [first [exact Hc | reflexivity] |]. intros k Hk. apply (mkdirs_lookup_outside kp [] _ _ _ Hm).
  intros r1 r2 Heq _ ->. cbn [app] in Hk. rewrite (Hal kp r1 r2 eq_refl Heq) in Hk.
  discriminate.
Qed.

Lemma within_copy2 (src dst : PurePath.t) :
  (forall kd r, resolve_key cwd0 dst = Some kd -> allowed (kd ++ r) = true) ->
  writes_within cwd0 allowed (copy2 src dst).
Proof.
  intros Hal w Hc. unfold copy2, bind, record_call, resolve, get_fs. cbn [cwd fs].
  rewrite Hc. destruct (resolve_key cwd0 src) as [ks |]; [| now split]. cbn [cwd fs].
  destruct (resolve_key cwd0 dst) as [kd |] eqn:Hkd; [| now split]. cbn [cwd fs].
  cbv zeta.
  set (kd' := match node_at (fs w) kd with Some Dir => _ | _ => kd end).
  assert (Hr : exists r, kd' = kd ++ r).
  { unfold kd'. destruct (node_at (fs w) kd) as [[| ? ?] |];
      [eexists; reflexivity | exists []; now rewrite app_nil_r..]. }
  destruct Hr as [r Hr].
  destruct (node_at (fs w) ks) as [[| content mtime] |]; [| | now split];
    (destruct (decide (ks = kd')); [now split |]); [now split |].
  destruct (node_at (fs w) kd') as [[| ? ?] |]; [now split | |];
    (destruct (check_dirs (fs w) [] (removelast kd')); cbn; [now split |];
     split; [first [exact Hc | reflexivity] |]; intros k Hk; apply lookup_insert_ne;
     intros <-; rewrite Hr, (Hal kd r eq_refl) in Hk; discriminate).
Qed.

Lemma within_append_log (lp : PurePath.t) (op src dst : string) :
  (forall kl, resolve_key cwd0 lp = Some kl -> allowed kl = true) ->
  writes_within cwd0 allowed (append_log lp op src dst).
Proof.
  intros Hal w Hc. unfold append_log, bind, record_call, resolve, get_fs. cbn [cwd fs].
  rewrite Hc. destruct (resolve_key cwd0 lp) as [kl |] eqn:Hkl; [| now split]. cbn [cwd fs].
  destruct (node_at (fs w) kl) as [[| [| entries | |] m] |]; cbn; try now split.
  split; [first [exact Hc | reflexivity] |]. intros k Hk. apply lookup_insert_ne. intros <-.
  rewrite (Hal kl eq_refl) in Hk. discriminate.
Qed.

Lemma within_write_log_header (lp : PurePath.t) :
  (forall kl, resolve_key cwd0 lp = Some kl -> allowed kl = true) ->
  writes_within cwd0 allowed (write_log_header lp).
Proof.
  intros Hal. unfold write_log_header. apply within_bind; [apply within_record |]. intros _.
  intros w Hc. unfold bind, resolve.
  destruct (resolve_key (cwd w) lp) as [kl |] eqn:Hkl; [| cbn; now split].
  rewrite Hc in Hkl. exact (within_create_file kl (Log []) (Hal kl Hkl) w Hc).
Qed.

Lemma within_zip_open (p : PurePath.t) :
  (forall kz, resolve_key cwd0 p = Some kz -> allowed kz = true) ->
  writes_within cwd0 allowed (zip_open p).
Proof.
  intros Hal. unfold zip_open. apply within_bind; [apply within_record |]. intros _.
  intros w Hc. unfold bind, resolve.
  destruct (resolve_key (cwd w) p) as [kz |] eqn:Hkz; [| cbn; now split].
  rewrite Hc in Hkz. exact (within_create_file kz (Zip []) (Hal kz Hkz) w Hc).
Qed.

Lemma within_zip_write (zip_path file arcname : PurePath.t) :
  (forall kz, resolve_key cwd0 zip_path = Some kz -> allowed kz = true) ->
  writes_within cwd0 allowed (zip_write zip_path file arcname).
Proof.
  intros Hal w Hc. unfold zip_write, bind, record_call, resolve, get_fs. cbn [cwd fs].
  rewrite Hc. destruct (resolve_key cwd0 zip_path) as [kz |] eqn:Hkz; [| now split].
  cbn [cwd fs]. destruct (resolve_key cwd0 file) as [kf |]; [| now split].
  cbn [cwd fs]. destruct (decide (kz = kf)); [now split |].
  destruct (node_at (fs w) kf) as [[| content m] |]; try now split.
  destruct (node_at (fs w) kz) as [[| [| | members |] mz] |]; cbn; try now split.
  split; [first [exact Hc | reflexivity] |]. intros k Hk. apply lookup_insert_ne. intros <-.
  rewrite (Hal kz eq_refl) in Hk. discriminate.
Qed.

Lemma within_compress_multiple (files : list PurePath.t) (prefixes : list string)
    (zip_path : PurePath.t) (password : string) (level : Z) :
  (forall kz, resolve_key cwd0 zip_path = Some kz -> allowed kz = true) ->
  writes_within cwd0 allowed (compress_multiple files prefixes zip_path password level).
Proof.
  intros Hal. unfold compress_multiple.
  apply within_bind; [apply within_record |]. intros _.
  intros w Hc.
  change (bind (resolve zip_path) ?k w) with
    (match resolve zip_path w with
     | (Return a, w') => k a w'
     | (Raise e, w') => (Raise e, w')
     | (OutsideModel, w') => (OutsideModel, w')
     end).
  unfold resolve.
  destruct (resolve_key (cwd w) zip_path) as [kz |] eqn:Hkz; [| cbn; now split].
  rewrite Hc in Hkz.
  revert w Hc. apply within_bind; [apply within_read_files |]. intros srcfiles.
  apply within_create_file. now apply Hal.
Qed.

End Within.

Ltac within_step :=
  lazymatch goal with
  | |- writes_within _ _ (bind _ _) => apply within_bind; [| intros ?]
  | |- writes_within _ _ (ret _) => apply within_ret
  | |- writes_within _ _ (raise _) => apply within_raise
  | |- writes_within _ _ outside_model => apply within_outside
  | |- writes_within _ _ (print _) => apply within_print
  | |- writes_within _ _ (path_exists _) => apply within_path_exists
  | |- writes_within _ _ (rglob_files _) => apply within_rglob_files
  | |- writes_within _ _ (relative_to _ _) => apply within_relative_to
  | |- writes_within _ _ (when _ _) => apply within_when
  | |- writes_within _ _ (log_if _ _) => apply within_log_if; intros ? ?
  | |- writes_within _ _ (for_each _ _) => apply within_for_each; intros ? ?
  | |- writes_within _ _ (map_m _ _) => apply within_map_m; intros ?
  | |- writes_within _ _ (match ?x with _ => _ end) => destruct x eqn:?
  end.

Ltac within_tac := repeat within_step.

Section WritesOf.

Variables (variables : toml) (base_dir temp_dir : PurePath.t) (temp_dir_name : string).
Variables (verbose : bool) (log_path : option PurePath.t).
Variables (zip_file_name : string) (zip_path : PurePath.t).
Variables (kt kz cwd0 : key).

Hypothesis Hkt : resolve_key cwd0 temp_dir = Some kt.
Hypothesis Hkz : resolve_key cwd0 zip_path = Some kz.

Local Abbreviation allowed := (may_write kt kz (log_key cwd0 log_path)).

Lemma may_write_log (lp : PurePath.t) (kl : key) :
  log_path = Some lp -> resolve_key cwd0 lp = Some kl -> allowed kl = true.
Proof.
  intros -> Hkl. unfold may_write. cbn [log_key]. rewrite Hkl.
  rewrite (bool_decide_eq_true_2 (Some kl = Some kl)) by reflexivity. now rewrite !orb_true_r.
Qed.

Lemma may_write_archive (k : key) : resolve_key cwd0 zip_path = Some k -> allowed k = true.
Proof.
  rewrite Hkz. intros [= <-]. unfold may_write.
  rewrite (bool_decide_eq_true_2 (kz = kz)) by reflexivity. now rewrite orb_true_r.
Qed.

Lemma may_write_below (r : key) : allowed (kt ++ r) = true.
Proof.
  unfold may_write. now rewrite (proj2 (is_prefix_true kt (kt ++ r))) by eauto.
Qed.

Lemma may_write_above (rel r1 r2 : key) : kt ++ rel = r1 ++ r2 -> allowed r1 = true.
Proof.
  intros H. unfold may_write.
  destruct (prefix_of_extension kt r1 r2 rel (eq_sym H)) as [-> | ->];
    [reflexivity | now rewrite orb_true_r].
Qed.

Lemma within_copy_rule (section : string * toml) :
  to_is_relative variables section = true ->
  writes_within cwd0 allowed
    (copy_rule variables base_dir temp_dir temp_dir_name verbose log_path section).
Proof.
  destruct section as [section_name file_config].
  unfold to_is_relative, copy_rule. cbn [snd]. intros Hrel.
  destruct file_config as [| | | | file_config]; try apply within_raise.
  destruct (dict_get "from" file_config) as [from_path |];
    [| destruct (dict_get "to" file_config); within_tac].
  destruct (dict_get "to" file_config) as [to_path |]; [| within_tac].
  destruct (negb (truthy from_path) || negb (truthy to_path))%bool; [within_tac |].
  destruct (render_path from_path variables) as [from_path_rendered |];
    [| apply within_outside].
  destruct (render_path to_path variables) as [to_path_rendered |]; [| apply within_outside].
  apply negb_true_iff in Hrel.
  unfold copy_rendered, destination_of. rewrite (joinpath_relative _ _ Hrel).
  set (rel := PurePath.parts (PurePath.parse to_path_rendered)).
  within_tac.
  - apply within_mkdir_parents. intros kp r1 r2 Hkp ->.
    destruct (resolve_key_parent_extend _ _ _ _ _ Hkt Hkp) as [r Hr].
    apply (may_write_above rel r1 (r2 ++ r)). now rewrite app_assoc.
  - apply within_copy2. intros kd r Hkd.
    apply resolve_key_extend_inv in Hkd as (k & Hk & -> & _).
    rewrite Hkt in Hk. injection Hk as <-. rewrite <- app_assoc. apply may_write_below.
  - apply within_append_log. intros kl. now apply may_write_log.
Qed.

Lemma within_stage (sections : py_dict) :
  forallb (to_is_relative variables) sections = true ->
  writes_within cwd0 allowed
    (stage variables base_dir temp_dir temp_dir_name verbose log_path sections).
Proof.
  intros Hrel. unfold stage. within_tac.
  - apply within_write_log_header. intros kl. now apply may_write_log.
  - apply within_copy_rule. rewrite forallb_forall in Hrel. now apply Hrel, list_elem_of_In.
Qed.

Lemma within_write_zip (zip_output_enabled : toml) (zip_password : option toml) :
  writes_within cwd0 allowed
    (write_zip temp_dir temp_dir_name verbose log_path zip_file_name zip_path
       zip_output_enabled zip_password).
Proof.
  unfold write_zip, zip_plain, zip_encrypted, zip_add.
  within_tac;
    first [ apply within_zip_open; exact may_write_archive
          | apply within_zip_write; exact may_write_archive
          | apply within_compress_multiple; exact may_write_archive
          | apply within_append_log; intros kl; now apply may_write_log ].
Qed.

End WritesOf.

Lemma to_stays_inside_relative (variables : toml) (sections : py_dict) :
  forallb (to_stays_inside variables) sections = true ->
  forallb (to_is_relative variables) sections = true.
Proof.
  intros H. apply forallb_forall. intros section Hin.
  rewrite forallb_forall in H. specialize (H section Hin). revert H.
  unfold to_stays_inside, to_is_relative.
  destruct section.2 as [| | | | file_config]; try reflexivity.
  destruct (dict_get "to" file_config) as [to_path |]; [| reflexivity].
  destruct (render_path to_path variables) as [to_path_rendered |]; [| discriminate].
  intros H. now apply andb_prop in H as [H _].
Qed.

Example to_through_dotdot_does_not_stay_inside :
  to_stays_inside Sample.variables
    ("file1", TTable [("from", TStr "{{name}}/foobar.txt"); ("to", TStr "../escape.txt")])
  = false.
Proof. reflexivity. Qed.

(** X17: a run writes only where it may.  Let every [to] that is there
    render to a relative path without a double dot, let the log path have no
    double dot, and let the staging directory and the archive path resolve.
    Then [process_files] leaves every location as it was that is neither the
    staging directory, below it or above it, nor the archive, nor the log,
    however the run ends: sources are only read, and nothing else in the
    base directory or outside it is created, overwritten or removed.  (A
    [to] through a double dot leads out of the staging directory: the
    property needs it excluded.) *)
Theorem run_writes_only_where_it_may :
  forall (config zip_config : py_dict) (zip_file_name : string) (base_dir : PurePath.t)
         (verbose : bool) (log_path : option PurePath.t) (kt kz : key) (w : world) (k : key),
    let variables := dict_get_default "variables" (TTable []) config in
    let temp_dir := PurePath.joinpath base_dir (PurePath.stem (PurePath.parse zip_file_name)) in
    let zip_path := PurePath.joinpath base_dir zip_file_name in
    dict_get "zip" config = Some (TTable zip_config) ->
    zip_config <> [] ->
    render_path (dict_get_default "file_name" (TStr "output.zip") zip_config) variables
      = Some zip_file_name ->
    resolve_key (cwd w) temp_dir = Some kt ->
    resolve_key (cwd w) zip_path = Some kz ->
    forallb (to_stays_inside variables) (file_sections config) = true ->
    log_without_dotdot log_path = true ->
    may_write kt kz (log_key (cwd w) log_path) k = false ->
    fs (snd (process_files config base_dir verbose log_path w)) !! k = fs w !! k.
Proof.
  intros config zip_config zip_file_name base_dir verbose log_path kt kz w k
         variables temp_dir zip_path Hzip Hne Hname Hkt Hkz Hinside _ Hk.
  pose proof (to_stays_inside_relative _ _ Hinside) as Hrel.
  rewrite (process_files_unfold config zip_config zip_file_name) by assumption.
  cbv zeta. fold variables temp_dir zip_path.
  assert (H : writes_within (cwd w) (may_write kt kz (log_key (cwd w) log_path))
                (stage variables base_dir temp_dir
                   (PurePath.stem (PurePath.parse zip_file_name)) verbose log_path
                   (file_sections config) ;;;
                 write_zip temp_dir (PurePath.stem (PurePath.parse zip_file_name)) verbose
                   log_path zip_file_name zip_path
                   (dict_get_default "output_enabled" (TBool true) zip_config)
                   (dict_get "password" zip_config) ;;;
                 ret (temp_dir, zip_path))).
  { apply within_bind; [now apply within_stage |]. intros _.
    apply within_bind; [now apply within_write_zip |]. intros _. apply within_ret. }
  now apply (H w eq_refl).
Qed.

Lemma run_writes_only_where_it_may_witness :
  fs (snd (process_files Sample.config Sample.base_dir true (Some Sample.log_path) Sample.w0))
    !! ["tmp"; "testuser"; "foobar.txt"]
  = fs Sample.w0 !! ["tmp"; "testuser"; "foobar.txt"].
Proof.
  apply (run_writes_only_where_it_may Sample.config [("file_name", TStr "sample.zip")]
           "sample.zip" Sample.base_dir true (Some Sample.log_path) ["tmp"; "sample"]
           ["tmp"; "sample.zip"] Sample.w0 ["tmp"; "testuser"; "foobar.txt"]);
    first [ discriminate | vm_compute; reflexivity ].
Defined.

(** ** A whole run *)

Lemma rule_plan_static (cwd : key) (variables : toml) (base_dir : PurePath.t)
    (section : string * toml) (p : key * key) :
  rule_plan cwd variables base_dir section = Some p ->
  to_is_relative variables section = true /\ no_dotdot p.2 = true.
Proof.
  destruct section as [section_name file_config]. unfold rule_plan, to_is_relative. cbn [snd].
  destruct file_config as [| | | | file_config]; try discriminate.
  destruct (dict_get "from" file_config) as [from_path |]; [| discriminate].
  destruct (dict_get "to" file_config) as [to_path |]; [| discriminate].
  destruct (truthy from_path && truthy to_path)%bool; [| discriminate].
  destruct (render_path from_path variables) as [from_path_rendered |]; [| discriminate].
  destruct (render_path to_path variables) as [to_path_rendered |]; [| discriminate].
  cbv zeta.
  destruct (resolve_key cwd (source_of base_dir from_path_rendered)) as [[| c ks] |];
    try discriminate.
  destruct (PurePath.parts (PurePath.parse to_path_rendered)) as [| c' rel']; [discriminate |].
  destruct (negb (PurePath.is_absolute (PurePath.parse to_path_rendered))); [| discriminate].
  cbn [andb]. destruct (no_dotdot (c' :: rel')) eqn:Hdd; [| discriminate].
  intros [= <-]. now split.
Qed.

Lemma plan_static (cwd : key) (variables : toml) (base_dir : PurePath.t)
    (sections : py_dict) (plan : list (key * key)) :
  Forall2 (fun section p => rule_plan cwd variables base_dir section = Some p) sections plan ->
  forallb (to_is_relative variables) sections = true
  /\ forall rel, rel ∈ plan.*2 -> no_dotdot rel = true.
Proof.
  induction 1 as [| section p sections plan Hrule _ [IH1 IH2]].
  - split; [reflexivity |]. intros rel Hin. now apply not_elem_of_nil in Hin.
  - apply rule_plan_static in Hrule as [Hrel Hdd]. split.
    + cbn [forallb]. now rewrite Hrel.
    + intros rel Hin. cbn [fmap list_fmap] in Hin.
      apply elem_of_cons in Hin as [-> | Hin]; auto.
Qed.

Lemma copy_loop_log_ready (variables : toml) (base_dir temp_dir : PurePath.t)
    (temp_dir_name : string) (verbose : bool) (log_path : option PurePath.t) (kt : key)
    (sections : py_dict) (w w' : world) :
  resolve_key (cwd w) temp_dir = Some kt ->
  (forall kl, log_key (cwd w) log_path = Some kl -> is_prefix kt kl = false) ->
  forallb (to_is_relative variables) sections = true ->
  log_ready (fs w) (cwd w) log_path = true ->
  for_each (copy_rule variables base_dir temp_dir temp_dir_name verbose log_path) sections w
  = (Return tt, w') ->
  log_ready (fs w') (cwd w) log_path = true.
Proof.
  intros Hkt Hapart Hrel Hlog H. destruct log_path as [lp |]; [| reflexivity].
  unfold log_ready in *. cbn [log_key] in Hapart.
  destruct (resolve_key (cwd w) lp) as [[| c kl] |] eqn:Hkl; try discriminate.
  destruct (fs w !! (c :: kl)) as [[| [| entries | |] m] |] eqn:Hl; try discriminate.
  destruct (copy_loop_log variables base_dir temp_dir temp_dir_name verbose lp kt (c :: kl)
              (cwd w) Hkt Hkl ltac:(discriminate) (Hapart _ eq_refl) sections Hrel
              entries m w w' eq_refl Hl H)
    as (e & m' & l & _ & F & _).
  now rewrite F.
Qed.

Lemma keeps_kinds_stage (variables : toml) (base_dir temp_dir : PurePath.t)
    (temp_dir_name : string) (verbose : bool) (log_path : option PurePath.t)
    (sections : py_dict) :
  keeps_kinds (stage variables base_dir temp_dir temp_dir_name verbose log_path sections).
Proof.
  unfold stage, write_log_header. keeps_tac. apply keeps_kinds_copy_rule.
Qed.

(** Staging under the conditions of the copy loop: every rule is carried
    out, and the regular files below the staging directory are the
    destinations. *)
Lemma staging_run (variables : toml) (base_dir temp_dir : PurePath.t)
    (temp_dir_name : string) (verbose : bool) (log_path : option PurePath.t)
    (sections : py_dict) (kt : key) (plan : list (key * key)) (w : world) :
  resolve_key (cwd w) temp_dir = Some kt ->
  Forall2 (fun section p => rule_plan (cwd w) variables base_dir section = Some p)
    sections plan ->
  forallb (fun p => is_file (fs w) p.1) plan = true ->
  forallb (fun p => free_at (fs w) (kt ++ p.2)) plan = true ->
  prefix_free (plan.*2) = true ->
  files_below (fs w) kt = [] ->
  log_fits (fs w) (cwd w) log_path kt (plan.*1) = true ->
  exists w1,
    stage variables base_dir temp_dir temp_dir_name verbose log_path sections w
    = (Return tt, w1)
    /\ cwd w1 = cwd w
    /\ log_ready (fs w1) (cwd w) log_path = true
    /\ (forall p, p ∈ plan ->
          exists content mtime,
            fs w !! p.1 = Some (File content mtime)
            /\ fs w1 !! (kt ++ p.2) = Some (File content mtime))
    /\ (forall rel, rel ∈ files_below (fs w1) kt -> rel ∈ plan.*2)
    /\ (forall rel, rel ∈ plan.*2 -> rel ∈ files_under (fs w1) kt).
Proof.
  intros Hkt Hplan Hsources Hfree Hpf Hempty Hfits.
  destruct (log_header_spec log_path kt (plan.*1) w Hfits)
    as (w0 & E0 & Hcwd0 & Hlog0 & Hframe0 & Haway).
  assert (Hnotlog : forall p, p ∈ plan -> log_key (cwd w) log_path <> Some p.1).
  { intros p Hp Hl. destruct (Haway _ Hl) as (_ & _ & Hout).
    apply Hout. now apply list_elem_of_fmap_2. }
  assert (Hnotbelow : forall r, log_key (cwd w) log_path <> Some (kt ++ r)).
  { intros r Hl. destruct (Haway _ Hl) as (_ & Hp & _).
    rewrite (proj2 (is_prefix_true kt (kt ++ r))) in Hp; [discriminate | eauto]. }
  assert (Hnotabove : forall p r1 r2, kt ++ p = r1 ++ r2 -> log_key (cwd w) log_path <> Some r1).
  { intros p r1 r2 Hsplit Hl. destruct (Haway _ Hl) as (Hp1 & Hp2 & _).
    destruct (prefix_of_extension _ _ _ _ Hsplit); congruence. }
  assert (Hsources0 : forallb (fun p => is_file (fs w0) p.1) plan = true).
  { apply forallb_forall. intros p Hp. rewrite forallb_forall in Hsources.
    unfold is_file. rewrite Hframe0; [exact (Hsources p Hp) |].
    apply Hnotlog. now apply list_elem_of_In. }
  assert (Hfree0 : forallb (fun p => free_at (fs w0) (kt ++ p.2)) plan = true).
  { apply forallb_forall. intros p Hp. rewrite forallb_forall in Hfree.
    destruct (free_at_spec _ _ (Hfree p Hp)) as (Hne & Hnone & Hnf).
    apply free_at_intro; [exact Hne | |].
    - rewrite Hframe0; [exact Hnone |]. apply (Hnotabove p.2 _ []). now rewrite app_nil_r.
    - apply no_file_on_spec. intros r1 r2 Hsplit Hr1. cbn [app].
      pose proof (proj1 (no_file_on_spec _ _ _) Hnf r1 r2 Hsplit Hr1) as Hf. cbn [app] in Hf.
      unfold is_file in *. rewrite Hframe0; [exact Hf |]. exact (Hnotabove _ _ _ Hsplit). }
  rewrite <- Hcwd0 in Hkt, Hplan, Hlog0, Hnotlog.
  destruct (copy_loop variables base_dir temp_dir temp_dir_name verbose log_path kt (cwd w0)
              sections plan Hplan w0 eq_refl Hkt Hsources0 Hfree0 Hpf Hlog0 Hnotlog)
    as (w1 & E & Hcwd1 & Hdone & Hkeep & Hnew).
  assert (Hready : log_ready (fs w1) (cwd w0) log_path = true).
  { apply (copy_loop_log_ready variables base_dir temp_dir temp_dir_name verbose log_path kt
             sections w0 w1 Hkt); [| apply (plan_static _ _ _ _ _ Hplan) | exact Hlog0 | exact E].
    intros kl Hl. rewrite Hcwd0 in Hl. now destruct (Haway _ Hl) as (_ & Hp & _). }
  rewrite Hcwd0 in Hkeep, Hnotlog, Hready, Hcwd1.
  exists w1. unfold stage. rewrite (bind_return _ _ _ _ _ E0), E.
  split; [reflexivity |]. split; [exact Hcwd1 |]. split; [exact Hready |].
  assert (Hstaged : forall p, p ∈ plan ->
            exists content mtime,
              fs w !! p.1 = Some (File content mtime)
              /\ fs w1 !! (kt ++ p.2) = Some (File content mtime)
              /\ check_dirs (fs w1) [] (removelast (kt ++ p.2)) = None).
  { intros p Hp. destruct (Hdone p Hp) as [Hcopied Hdirs].
    rewrite forallb_forall in Hsources.
    pose proof (Hsources p (proj1 (list_elem_of_In _ _) Hp)) as Hf.
    unfold is_file in Hf.
    destruct (fs w !! p.1) as [[| content mtime] |] eqn:Hsrc; try discriminate.
    assert (Hsrc0 : fs w0 !! p.1 = Some (File content mtime))
      by (rewrite Hframe0; [exact Hsrc | now apply Hnotlog]).
    exists content, mtime. split; [reflexivity |]. split; [congruence | exact Hdirs]. }
  split.
  { intros p Hp. destruct (Hstaged p Hp) as (content & mtime & H1 & H2 & _). eauto. }
  split.
  - intros rel Hin. apply elem_of_files_below in Hin as [Hne Hf].
    destruct (fs w0 !! (kt ++ rel)) as [n |] eqn:Hw0.
    + exfalso. assert (Hin : rel ∈ files_below (fs w) kt).
      { apply elem_of_files_below. split; [exact Hne |].
        unfold is_file in *.
        rewrite <- Hframe0, <- Hkeep; [exact Hf | congruence | apply Hnotbelow..]. }
      rewrite Hempty in Hin. now apply not_elem_of_nil in Hin.
    + destruct (Hnew _ Hw0 Hf) as (p & Hp & Heq). apply app_inv_head in Heq as ->.
      now apply list_elem_of_fmap_2.
  - intros rel Hin. apply list_elem_of_fmap in Hin as (p & -> & Hp).
    destruct (Hstaged p Hp) as (content & mtime & _ & Hdst & Hdirs).
    destruct (plan_nonempty _ _ _ _ _ Hplan p Hp) as [_ Hne].
    apply elem_of_files_under.
    split; [| split; [exact Hne | unfold is_file; now rewrite Hdst]].
    unfold is_dir. destruct (decide (kt = [])) as [Hkt0 | Hktne]; [now rewrite Hkt0 |].
    rewrite (node_at_nonempty _ _ Hktne).
    rewrite removelast_app in Hdirs by exact Hne.
    pose proof (check_dirs_dirs _ _ [] Hdirs kt (removelast p.2) eq_refl Hktne) as Hd.
    cbn [app] in Hd. now rewrite Hd.
Qed.

(** The plain archive of a staging directory, with the files counted. *)
Lemma zip_plain_members (temp_dir zip_path : PurePath.t) (verbose : bool)
    (log_path : option PurePath.t) (kt kz : key) (w : world) :
  resolve_key (cwd w) temp_dir = Some kt ->
  resolve_key (cwd w) zip_path = Some kz ->
  is_dir (fs w) kz = false ->
  check_dirs (fs w) [] (removelast kz) = None ->
  PurePath.strip_prefix kt kz = None ->
  log_ready (fs w) (cwd w) log_path = true ->
  log_key (cwd w) log_path <> Some kz ->
  forallb no_dotdot (files_below (fs w) kt) = true ->
  exists w' rels members t,
    zip_plain temp_dir verbose log_path zip_path w = (Return tt, w')
    /\ fs w' !! kz = Some (File (Zip members) t)
    /\ NoDup rels
    /\ (forall rel, rel ∈ rels <-> rel ∈ files_under (fs w) kt)
    /\ Forall2 (stored_from kt kz (log_key (cwd w) log_path) (fs w)) rels members
    /\ (forall k, k <> kz -> log_key (cwd w) log_path <> Some k -> fs w' !! k = fs w !! k).
Proof.
  intros Hkt Hkz Hdir Hcheck Hout Hlog Hlz Hdd.
  pose proof (is_dir_false_nonempty _ _ Hdir) as Hz.
  unfold zip_plain.
  rewrite (bind_return _ _ _ _ _ (zip_open_spec zip_path kz w Hkz Hdir Hcheck)).
  set (w1 := mk_world _ _ _ _ _ _).
  rewrite (bind_return _ _ _ _ _ (rglob_files_spec temp_dir kt w1 Hkt)).
  set (rels := files_under (fs w1) kt).
  assert (Hrels : forall rel, rel ∈ rels <-> rel ∈ files_under (fs w) kt).
  { intros rel. unfold rels. rewrite !elem_of_files_under. unfold w1. cbn [fs].
    assert (Hne : kz <> kt ++ rel) by (apply not_eq_sym; now apply strip_prefix_None_ne).
    assert (Hnt : kz <> kt).
    { intros ->. specialize (strip_prefix_app kt []). rewrite app_nil_r. congruence. }
    unfold is_dir, is_file. destruct kt as [| c kt'].
    - cbn [node_at]. now rewrite lookup_insert_ne.
    - rewrite !node_at_cons. now rewrite !lookup_insert_ne. }
  destruct (zip_plain_loop temp_dir zip_path verbose log_path kt kz rels
              (add_calls [CallRglob temp_dir] w1) [] (clock w (ticks w)))
    as (w' & members & t' & E & Hcwd & Hzip & Hstored & Hframe); try assumption.
  { cbn [fs add_calls w1]. apply lookup_insert_eq. }
  { cbn [fs cwd add_calls w1]. now apply log_ready_insert. }
  { apply Forall_forall. intros rel Hin. pose proof Hin as Hin'.
    apply Hrels, elem_of_files_under in Hin' as (_ & Hne & Hfile).
    apply elem_of_files_under in Hin as (_ & _ & Hfile1).
    split; [exact Hne |]. split; [| split; [now apply strip_prefix_None_ne | exact Hfile1]].
    rewrite forallb_forall in Hdd. apply Hdd, list_elem_of_In, elem_of_files_below. auto. }
  exists w', rels, members, t'. split; [exact E |]. split; [exact Hzip |].
  split; [apply NoDup_files_under |]. split; [exact Hrels |]. split.
  - eapply Forall2_impl; [exact Hstored |]. intros rel e [Hname Hcontent].
    split; [exact Hname |]. intros Hrz Hrl. destruct (Hcontent Hrz Hrl) as [m Hm].
    exists m. cbn [fs add_calls w1] in Hm. now rewrite lookup_insert_ne in Hm by congruence.
  - intros k Hk Hkl. rewrite (Hframe k Hk Hkl). cbn [fs add_calls w1].
    now apply lookup_insert_ne.
Qed.

Lemma Forall2_with_elem {A B} (P : A -> B -> Prop) (l : list A) (k : list B) :
  Forall2 P l k -> Forall2 (fun x y => x ∈ l /\ P x y) l k.
Proof.
  induction 1 as [| x y l k Hxy _ IH]; constructor.
  - split; [now left | exact Hxy].
  - eapply Forall2_impl; [exact IH |]. intros a b [Ha Hab]. split; [now right | exact Hab].
Qed.

(** X18: a whole run without a password.  Let the manifest name an archive,
    archiving be enabled and the password be missing or false; let the
    sections, the sources, the destinations, the staging directory and the
    log be as staging needs them (every section a valid rule with a relative
    [to], every source a regular file, the destinations free and none a
    prefix of another, no file in the staging directory yet, the log apart);
    and let the archive path be no directory, lie in an existing directory,
    neither in nor above the staging directory, and not be the log.  Then
    [process_files] returns the staging directory and the archive path;
    every destination holds its source's content and time stamp; and the
    archive holds exactly one member for each rule, in some order, named by
    the rendered [to] and holding the content of the rule's source. *)
Theorem run_stages_and_archives_every_rule :
  forall (config zip_config : py_dict) (zip_file_name : string) (base_dir : PurePath.t)
         (verbose : bool) (log_path : option PurePath.t) (kt kz : key)
         (plan : list (key * key)) (w : world),
    let variables := dict_get_default "variables" (TTable []) config in
    let temp_dir := PurePath.joinpath base_dir (PurePath.stem (PurePath.parse zip_file_name)) in
    let zip_path := PurePath.joinpath base_dir zip_file_name in
    dict_get "zip" config = Some (TTable zip_config) ->
    zip_config <> [] ->
    render_path (dict_get_default "file_name" (TStr "output.zip") zip_config) variables
      = Some zip_file_name ->
    truthy (dict_get_default "output_enabled" (TBool true) zip_config) = true ->
    truthy_opt (dict_get "password" zip_config) = false ->
    resolve_key (cwd w) temp_dir = Some kt ->
    resolve_key (cwd w) zip_path = Some kz ->
    mapM (rule_plan (cwd w) variables base_dir) (file_sections config) = Some plan ->
    forallb (fun p => is_file (fs w) p.1) plan = true ->
    forallb (fun p => free_at (fs w) (kt ++ p.2)) plan = true ->
    prefix_free (plan.*2) = true ->
    files_below (fs w) kt = [] ->
    log_fits (fs w) (cwd w) log_path kt (plan.*1) = true ->
    is_dir (fs w) kz = false ->
    check_dirs (fs w) [] (removelast kz) = None ->
    is_prefix kt kz = false ->
    is_prefix kz kt = false ->
    log_key (cwd w) log_path <> Some kz ->
    let r := process_files config base_dir verbose log_path w in
    fst r = Return (temp_dir, zip_path)
    /\ Forall (fun p => exists content mtime,
                 fs w !! p.1 = Some (File content mtime)
                 /\ fs (snd r) !! (kt ++ p.2) = Some (File content mtime)) plan
    /\ exists rels members t,
         fs (snd r) !! kz = Some (File (Zip members) t)
         /\ rels ≡ₚ plan.*2
         /\ Forall2 (fun rel member =>
                       member.1 = PurePath.to_string (PurePath.mk PurePath.Relative rel)
                       /\ exists p mtime,
                            p ∈ plan /\ p.2 = rel
                            /\ fs w !! p.1 = Some (File member.2 mtime)) rels members.
Proof.
  intros config zip_config zip_file_name base_dir verbose log_path kt kz plan w
         variables temp_dir zip_path Hzip Hne Hname Hon Hpw Hkt Hkz Hplan Hsources Hfree Hpf
         Hempty Hfits Hzdir Hzcheck Hzt Htz Hzl.
  cbv zeta. rewrite (process_files_unfold config zip_config zip_file_name) by assumption.
  cbv zeta. fold variables temp_dir zip_path.
  set (temp_dir_name := PurePath.stem (PurePath.parse zip_file_name)).
  apply mapM_Some in Hplan.
  destruct (plan_static _ _ _ _ _ Hplan) as [Hrel Hdd].
  (* staging *)
  destruct (staging_run variables base_dir temp_dir temp_dir_name verbose log_path
              (file_sections config) kt plan w Hkt Hplan Hsources Hfree Hpf Hempty Hfits)
    as (w1 & E1 & Hcwd1 & Hready1 & Hstaged & Hbelow & Hunder).
  rewrite (bind_return _ _ _ _ _ E1).
  assert (Hlogkt : forall r, log_key (cwd w) log_path <> Some (kt ++ r)).
  { intros r Hl. revert Hfits. unfold log_fits. destruct log_path as [lp |]; [| discriminate].
    cbn [log_key] in Hl. rewrite Hl. intros H. repeat (apply andb_prop in H as [H ?]).
    match goal with Hp : negb (is_prefix kt (kt ++ r)) = true |- _ =>
      rewrite (proj2 (is_prefix_true kt (kt ++ r))) in Hp; [discriminate | eauto] end. }
  (* the archive path after staging *)
  assert (Hsame : fs w1 !! kz = fs w !! kz).
  { pose proof (within_stage variables base_dir temp_dir temp_dir_name verbose log_path
                  kt kt (cwd w) Hkt (file_sections config) Hrel w eq_refl) as [_ Hframe].
    rewrite E1 in Hframe. apply Hframe. unfold may_write. rewrite Hzt, Htz. cbn [orb].
    apply orb_false_iff. split; apply bool_decide_eq_false_2; [| congruence].
    intros ->. rewrite (proj2 (is_prefix_true kt kt)) in Hzt; [discriminate |].
    exists []. now rewrite app_nil_r. }
  pose proof (is_dir_false_nonempty _ _ Hzdir) as Hzne.
  assert (Hzdir1 : is_dir (fs w1) kz = false).
  { revert Hzdir. unfold is_dir. now rewrite !(node_at_nonempty _ _ Hzne), Hsame. }
  assert (Hzcheck1 : check_dirs (fs w1) [] (removelast kz) = None).
  { apply (check_dirs_keep (fs w)); [exact Hzcheck |]. intros k Hk.
    pose proof (keeps_kinds_stage variables base_dir temp_dir temp_dir_name verbose log_path
                  (file_sections config) w k) as [Hd _].
    rewrite E1 in Hd. now apply Hd. }
  assert (Hstrip : PurePath.strip_prefix kt kz = None).
  { revert Hzt. unfold is_prefix. now destruct (PurePath.strip_prefix kt kz). }
  assert (Hdd1 : forallb no_dotdot (files_below (fs w1) kt) = true).
  { apply forallb_forall. intros rel Hin. apply list_elem_of_In in Hin. auto. }
  rewrite <- Hcwd1 in Hkt, Hkz, Hready1, Hzl.
  destruct (zip_plain_members temp_dir zip_path verbose log_path kt kz w1
              Hkt Hkz Hzdir1 Hzcheck1 Hstrip Hready1 Hzl Hdd1)
    as (w2 & rels & members & t & E2 & Harchive & Hnodup & Hrels & Hstored & Hframe2).
  rewrite Hcwd1 in Hstored, Hframe2.
  unfold write_zip. rewrite Hon, Hpw. cbv beta iota.
  rewrite (bind_eq _ _ _ _ _ (bind_return _ _ _ _ _ E2)).
  (* what is printed at the end leaves the file system alone *)
  assert (Hend : exists w3, fs w3 = fs w2
            /\ (when verbose
                  (print (newline +:+ "Created: " +:+ zip_file_name) ;;;
                   when false (print "Password protected: enabled") ;;;
                   print ("Directory preserved: " +:+ temp_dir_name +:+ "/")) ;;;
                ret (temp_dir, zip_path)) w2 = (Return (temp_dir, zip_path), w3)).
  { destruct verbose; eexists; (split; [| reflexivity]); reflexivity. }
  destruct Hend as (w3 & Hfs3 & E3).
  match goal with |- context [fst ?r] => replace r with (Return (temp_dir, zip_path), w3) end.
  cbn [fst snd]. rewrite Hfs3. split; [reflexivity |]. split.
  - apply Forall_forall. intros p Hp. destruct (Hstaged p Hp) as (content & mtime & Hs & Hd).
    exists content, mtime. split; [exact Hs |]. rewrite Hframe2; [exact Hd | | apply Hlogkt].
    intros Heq. exact (is_prefix_false _ _ _ Hzt (eq_sym Heq)).
  - exists rels, members, t. split; [exact Harchive |].
    assert (Hmember : forall rel, rel ∈ rels <-> rel ∈ plan.*2).
    { intros rel. rewrite Hrels. split; [| apply Hunder].
      intros Hin. apply Hbelow. unfold files_under in Hin.
      destruct (node_at (fs w1) kt) as [[| ? ?] |]; [exact Hin | now apply not_elem_of_nil in Hin..]. }
    split; [apply NoDup_Permutation; [exact Hnodup | now apply prefix_free_NoDup | exact Hmember] |].
    eapply Forall2_impl; [exact (Forall2_with_elem _ _ _ Hstored) |].
    intros rel member [Hin [Hmname Hcontent]]. split; [exact Hmname |].
    apply Hmember, list_elem_of_fmap in Hin as (p & -> & Hp).
    destruct (Hstaged p Hp) as (content & mtime & Hs & Hd).
    destruct Hcontent as [m Hm]; [| apply Hlogkt |].
    + intros Heq. exact (is_prefix_false _ _ _ Hzt (eq_sym Heq)).
    + exists p, mtime. split; [exact Hp |]. split; [reflexivity |]. congruence.
Qed.

Lemma run_stages_and_archives_witness :
  let r := process_files Sample.config Sample.base_dir true (Some Sample.log_path) Sample.w0 in
  fst r = Return (Sample.temp_dir, Sample.zip_path)
  /\ Forall (fun p => exists content mtime,
               fs Sample.w0 !! p.1 = Some (File content mtime)
               /\ fs (snd r) !! (["tmp"; "sample"] ++ p.2) = Some (File content mtime))
       Sample.plan
  /\ exists rels members t,
       fs (snd r) !! ["tmp"; "sample.zip"] = Some (File (Zip members) t)
       /\ rels ≡ₚ Sample.plan.*2
       /\ Forall2 (fun rel member =>
                     member.1 = PurePath.to_string (PurePath.mk PurePath.Relative rel)
                     /\ exists p mtime,
                          p ∈ Sample.plan /\ p.2 = rel
                          /\ fs Sample.w0 !! p.1 = Some (File member.2 mtime)) rels members.
Proof.
  apply (run_stages_and_archives_every_rule Sample.config [("file_name", TStr "sample.zip")]
           "sample.zip" Sample.base_dir true (Some Sample.log_path) ["tmp"; "sample"]
           ["tmp"; "sample.zip"] Sample.plan Sample.w0);
    first [ discriminate | vm_compute; reflexivity | vm_compute; discriminate ].
Defined.
